(** * Multi-tenant agent session manager: model and properties

    A shallow embedding of [server/agent_manager.py], [server/main.py] and
    [server/utils.py].

    - Python objects that are shared by reference ([UserSession] instances)
      live in an object store ([objects]) and are named by locations; the
      manager's [sessions] dict maps usernames to locations.
    - Exceptions are values of [exn]; fallible code returns [result].
    - The collaborators the server does not implement itself (the MCP
      configuration loader, the file system, the model backend, the login
      database) are the fields of a [World].
    - [time.time()] readings are passed to the operations as integers (clock
      ticks), so the rounding of floating-point subtraction is not modelled;
      [datetime.now().isoformat()] readings are passed as strings.
    - The [sessions] dict is a finite map: the insertion order Python keeps
      is not modelled (only [/users] and the order in which a sweep closes
      sessions depend on it, and closing distinct usernames commutes).
    - An [async] handler runs without interruption between two [await]s, so
      [chat], whose only [await] is the backend call, is two atomic steps. *)

From stdpp Require Import gmap strings list fin_maps.

Local Open Scope string_scope.

(** ** Exceptions and results *)

Inductive exn :=
  | ValueError (msg : string)
  | IndexError (msg : string)
  | TypeError (msg : string)
  | OSError (msg : string)
  | RuntimeError (msg : string).

(** [str(e)] *)
Definition str (e : exn) : string :=
  match e with
  | ValueError m | IndexError m | TypeError m | OSError m | RuntimeError m => m
  end.

(** [isinstance(e, ValueError)], the test made by [except ValueError]. *)
Definition is_ValueError (e : exn) : bool :=
  match e with ValueError _ => true | _ => false end.

Inductive result (A : Type) :=
  | Ok (a : A)
  | Raise (e : exn).
Arguments Ok {A} a.
Arguments Raise {A} e.

#[global] Instance result_ret : MRet result := @Ok.
#[global] Instance result_bind : MBind result := λ A B f m,
  match m with Ok a => f a | Raise e => Raise e end.

(** Python truthiness of a [str]. *)
Definition truthy (s : string) : bool := negb (String.eqb s "").

(** ** Data model *)

Definition loc := nat.

Inductive ModelMessage :=
  | ModelRequest (content : string)
  | ModelResponse (content : string).

(** The servers [load_mcp_servers] yields: the stdio ones carry [args], the
    HTTP ones do not (the source tests [hasattr(i, 'args')]). *)
Inductive MCPServer :=
  | MCPServerStdio (command : string) (args : list string) (timeout : Z)
  | MCPServerHTTP (url : string) (timeout : Z).

Module AgentConfig.
Record t := mk {
  model_name : string;
  api_key : string;
  base_url : option string;
  system_prompt : string;
  workspace_root : string;
  mcp_configs : list string }.
End AgentConfig.

(** The keyword arguments the [Agent] constructor is given. *)
Module Agent.
Record t := mk {
  model : string * string * option string;
  system_prompt : string;
  toolsets : list MCPServer }.
End Agent.

Module UserSession.
Record t := mk {
  username : string;
  agent_config : AgentConfig.t;
  agent : option Agent.t;
  last_active : Z;
  is_active : bool;
  history_context : option (list ModelMessage) }.

Definition set_last_active (v : Z) (s : t) : t :=
  mk (username s) (agent_config s) (agent s) v (is_active s) (history_context s).
Definition set_is_active (v : bool) (s : t) : t :=
  mk (username s) (agent_config s) (agent s) (last_active s) v (history_context s).
Definition set_history_context (v : option (list ModelMessage)) (s : t) : t :=
  mk (username s) (agent_config s) (agent s) (last_active s) (is_active s) v.
End UserSession.

Module AgentManager.
Record t := mk {
  sessions : gmap string loc;
  filesystem_mcp_name : string;
  workspace_root : option string;
  mcp_configs : list string }.

Definition set_sessions (f : gmap string loc → gmap string loc) (m : t) : t :=
  mk (f (sessions m)) (filesystem_mcp_name m) (workspace_root m) (mcp_configs m).

(** [AgentManager.__init__] *)
Definition init : t :=
  mk ∅ "@modelcontextprotocol/server-filesystem" None [].
End AgentManager.

(** The state of the server process: the Python objects allocated so far and
    the module-level [agent_manager]. *)
Record Server := mkServer {
  objects : gmap loc UserSession.t;
  agent_manager : AgentManager.t }.

Definition init_server : Server := mkServer ∅ AgentManager.init.

Definition sessions (σ : Server) : gmap string loc :=
  AgentManager.sessions (agent_manager σ).

(** The session object a username is bound to, if any. *)
Definition session_of (σ : Server) (username : string) : option UserSession.t :=
  sessions σ !! username ≫= λ r, objects σ !! r.

(** ** Requests and replies *)

Module UserLogin.
Record t := mk {
  username : string;
  password : string;
  model_name : string;
  api_key : string;
  base_url : option string;
  system_prompt : string }.
End UserLogin.

Module UserMessage.
Record t := mk { username : string; message : string }.
End UserMessage.

Module AgentResponse.
Record t := mk { response : string; timestamp : string }.
End AgentResponse.

Module LoginReply.
Record t := mk { message : string; session_created : bool; timestamp : string }.
End LoginReply.

(** What a handler hands to FastAPI: a body, an [HTTPException], or an
    exception it did not catch (answered with status 500). *)
Inductive response (A : Type) :=
  | Return (body : A)
  | HTTPException (status_code : Z) (detail : string)
  | Unhandled (e : exn).
Arguments Return {A} body.
Arguments HTTPException {A} status_code detail.
Arguments Unhandled {A} e.

Definition status {A} (r : response A) : Z :=
  match r with
  | Return _ => 200
  | HTTPException c _ => c
  | Unhandled _ => 500
  end.

(** ** The outside world *)

Module AgentRunResult.
Record t := mk { all_messages : list ModelMessage; output : string }.
End AgentRunResult.

Record World := mkWorld {
  (** [pydantic_ai.mcp.load_mcp_servers(config)] *)
  load_mcp_servers : string → result (list MCPServer);
  (** [os.makedirs(name, exist_ok=True)] *)
  os_makedirs : string → result ();
  (** [os.path.abspath('../workspace')] *)
  workspace_abspath : string;
  (** whether [OpenAIModel], [OpenAIProvider] or [Agent] refuse their
      arguments *)
  agent_init : AgentConfig.t → list MCPServer → result ();
  (** [await agent.run(message, message_history=history)] *)
  agent_run : Agent.t → string → option (list ModelMessage) →
              result AgentRunResult.t;
  (** [psycopg2.connect(...)] and the [SELECT version()] that follows *)
  db_connect : result ();
  (** [cursor.execute(sql_script, (username,))] and [cursor.fetchall()]: the
      rows (username, password) of [schema_user.user_login] with the given
      username *)
  select_user_login : string → result (list (string * string)) }.

(** ** [agent_manager.py] *)

Section manager.
Context (W : World).

(** [AgentManager._create_agent_for_user] *)
Definition _create_agent_for_user (username : string)
    (agent_config : AgentConfig.t) (mcp_server : list MCPServer) : result Agent.t :=
  _ ← agent_init W agent_config mcp_server;
  mret (Agent.mk
          (AgentConfig.model_name agent_config,
           AgentConfig.api_key agent_config,
           AgentConfig.base_url agent_config)
          (AgentConfig.system_prompt agent_config)
          mcp_server).

(** First loop of [load_mcp_server]: [final_server += load_mcp_servers(config)]. *)
Fixpoint load_configs (configs : list string) (final_server : list MCPServer)
    : result (list MCPServer) :=
  match configs with
  | [] => Ok final_server
  | config :: configs =>
      server ← load_mcp_servers W config;
      load_configs configs (final_server ++ server)
  end.

(** [hasattr(i, 'args') and len(i.args) > 1 and i.args[1] == self.filesystem_mcp_name] *)
Definition is_filesystem_server (self : AgentManager.t) (i : MCPServer) : bool :=
  match i with
  | MCPServerStdio _ args _ =>
      bool_decide (1 < length args)%nat
      && bool_decide (args !! 1%nat = Some (AgentManager.filesystem_mcp_name self))
  | MCPServerHTTP _ _ => false
  end.

(** [args[k] = v] on a Python list. *)
Definition setitem (args : list string) (k : nat) (v : string) : result (list string) :=
  if bool_decide (k < length args)%nat then Ok (<[k := v]> args)
  else Raise (IndexError "list assignment index out of range").

(** [i.timeout = timeout] *)
Definition set_timeout (timeout : Z) (i : MCPServer) : MCPServer :=
  match i with
  | MCPServerStdio command args _ => MCPServerStdio command args timeout
  | MCPServerHTTP url _ => MCPServerHTTP url timeout
  end.

(** [i.args = args] (reached for stdio servers only) *)
Definition set_args (args : list string) (i : MCPServer) : MCPServer :=
  match i with
  | MCPServerStdio command _ timeout => MCPServerStdio command args timeout
  | MCPServerHTTP url timeout => MCPServerHTTP url timeout
  end.

Definition server_args (i : MCPServer) : list string :=
  match i with
  | MCPServerStdio _ args _ => args
  | MCPServerHTTP _ _ => []
  end.

(** Body of the second loop of [load_mcp_server]. *)
Definition stamp_server (self : AgentManager.t) (username : string) (timeout : Z)
    (i : MCPServer) : result MCPServer :=
  i ← (if is_filesystem_server self i then
         match AgentManager.workspace_root self with
         | None => Raise (TypeError "unsupported operand type(s) for +: 'NoneType' and 'str'")
         | Some workspace_root =>
             let current_workspace := workspace_root +:+ "/workspace_" +:+ username in
             _ ← os_makedirs W current_workspace;
             args ← setitem (server_args i) 2 current_workspace;
             mret (set_args args i)
         end
       else mret i);
  mret (set_timeout timeout i).

(** Second loop of [load_mcp_server]. *)
Fixpoint stamp_servers (self : AgentManager.t) (username : string) (timeout : Z)
    (final_server final_server_timeout : list MCPServer) : result (list MCPServer) :=
  match final_server with
  | [] => Ok final_server_timeout
  | i :: final_server =>
      i ← stamp_server self username timeout i;
      stamp_servers self username timeout final_server (final_server_timeout ++ [i])
  end.

(** [AgentManager.load_mcp_server] *)
Definition load_mcp_server (self : AgentManager.t) (username : string)
    (configs : list string) (timeout : Z) : result (list MCPServer) :=
  final_server ← load_configs configs [];
  stamp_servers self username timeout final_server [].

(** [AgentManager.close_session] *)
Definition close_session (username : string) (σ : Server) : Server :=
  match sessions σ !! username with
  | Some session =>
      mkServer (alter (UserSession.set_is_active false) session (objects σ))
               (AgentManager.set_sessions (delete username) (agent_manager σ))
  | None => σ
  end.

(** [AgentManager.get_session] *)
Definition get_session (username : string) (σ : Server) : option loc :=
  sessions σ !! username.

(** [AgentManager.update_last_active]; [now] is the reading of [time.time()]. *)
Definition update_last_active (username : string) (now : Z) (σ : Server) : Server :=
  match sessions σ !! username with
  | Some session =>
      mkServer (alter (UserSession.set_last_active now) session (objects σ))
               (agent_manager σ)
  | None => σ
  end.

(** [current_time - session.last_active > timeout] *)
Definition is_inactive (current_time timeout : Z) (σ : Server) (item : string * loc) : bool :=
  match objects σ !! item.2 with
  | Some session => bool_decide (current_time - UserSession.last_active session > timeout)%Z
  | None => false
  end.

Definition inactive_users (current_time timeout : Z) (σ : Server) : list string :=
  (filter (λ item, is_inactive current_time timeout σ item) (map_to_list (sessions σ))).*1.

(** [AgentManager.cleanup_inactive_sessions]; [current_time] is the reading
    of [time.time()]. *)
Definition cleanup_inactive_sessions (timeout : Z) (current_time : Z) (σ : Server) : Server :=
  foldl (λ σ username, close_session username σ) σ
        (inactive_users current_time timeout σ).

(** [self.workspace_root = agent_config.workspace_root] and
    [self.mcp_configs = agent_config.mcp_configs] *)
Definition set_workspace_config (agent_config : AgentConfig.t)
    (self : AgentManager.t) : AgentManager.t :=
  AgentManager.mk (AgentManager.sessions self)
    (AgentManager.filesystem_mcp_name self)
    (Some (AgentConfig.workspace_root agent_config))
    (AgentConfig.mcp_configs agent_config).

(** [AgentManager.create_session]; [now] is the reading of [time.time()]. *)
Definition create_session (username : string) (agent_config : AgentConfig.t)
    (now : Z) (σ : Server) : Server * result loc :=
  let σ := if bool_decide (is_Some (sessions σ !! username))
           then close_session username σ else σ in
  if negb (truthy (AgentConfig.api_key agent_config)) then
    (σ, Raise (ValueError "API密钥不能为空"))
  else if negb (truthy (AgentConfig.model_name agent_config)) then
    (σ, Raise (ValueError "模型名称不能为空"))
  else
    let self := set_workspace_config agent_config (agent_manager σ) in
    let σ := mkServer (objects σ) self in
    match load_mcp_server self username (AgentManager.mcp_configs self) 100 with
    | Raise e => (σ, Raise e)
    | Ok mcp_server =>
        match _create_agent_for_user username agent_config mcp_server with
        | Raise e => (σ, Raise (ValueError ("创建智能体失败: " +:+ str e)))
        | Ok agent =>
            let session := fresh (dom (objects σ)) in
            (mkServer
               (<[session := UserSession.mk username agent_config (Some agent)
                               now true (Some [])]> (objects σ))
               (AgentManager.set_sessions (<[username := session]>) self),
             Ok session)
        end
    end.

End manager.

(** ** [utils.py] *)

Section validater.
Context (W : World).

(** [LoginValidater.connect_db]: returns [True] unless the driver raises. *)
Definition connect_db : result bool :=
  _ ← db_connect W; mret true.

(** [LoginValidater.validate_login] *)
Definition validate_login (username password : string) : result (bool * bool) :=
  rows ← select_user_login W username;
  if bool_decide (length rows = 0%nat) then mret (false, false)
  else if existsb (λ row, String.eqb row.2 password) rows then mret (true, true)
  else mret (true, false).

End validater.

(** ** [main.py] *)

(** A [chat] request suspended at [await session.agent.run(...)]: the
    session object it holds and the arguments of the call. *)
Record Pending := mkPending {
  pending_session : loc;
  pending_agent : Agent.t;
  pending_message : string;
  pending_history : option (list ModelMessage) }.

Section endpoints.
Context (W : World).

(** The [mcp_configs] list built by [login]. *)
Definition login_mcp_configs (username : string) : list string :=
  ["./config/mcp_config_base.json"; "./config/mcp_config_office.json"]
  ++ (if bool_decide (username = "admin") then ["./config/mcp_config_map.json"] else []).

(** The [validation_errors] list built by [login]. *)
Definition validation_errors (user : UserLogin.t) : list string :=
  (if truthy (UserLogin.model_name user) then [] else ["模型名称"])
  ++ (if truthy (UserLogin.api_key user) then [] else ["API密钥"])
  ++ (if truthy (UserLogin.system_prompt user) then [] else ["系统提示词"]).

(** The [AgentConfig] built by [login]. *)
Definition login_agent_config (user : UserLogin.t) : AgentConfig.t :=
  AgentConfig.mk (UserLogin.model_name user) (UserLogin.api_key user)
    (UserLogin.base_url user) (UserLogin.system_prompt user)
    (workspace_abspath W) (login_mcp_configs (UserLogin.username user)).

(** [existing_session and existing_session.is_active] *)
Definition existing_active (username : string) (σ : Server) : bool :=
  match get_session username σ with
  | Some existing_session =>
      match objects σ !! existing_session with
      | Some s => UserSession.is_active s
      | None => false
      end
  | None => false
  end.

(** [POST /login]; [now] and [ts] are the readings of [time.time()] and of
    [datetime.now().isoformat()]. *)
Definition login (user : UserLogin.t) (now : Z) (ts : string) (σ : Server)
    : Server * response LoginReply.t :=
  let username := UserLogin.username user in
  if negb (truthy username) then (σ, HTTPException 400 "用户名不能为空")
  else if negb (bool_decide (validation_errors user = [])) then
    (σ, HTTPException 400
          ("以下字段不能为空: " +:+ String.concat ", " (validation_errors user)))
  else
    match connect_db W with
    | Raise e => (σ, Unhandled e)
    | Ok res =>
        if negb res then (σ, HTTPException 500 "连接数据库失败，请与管理员联系")
        else
          match validate_login W username (UserLogin.password user) with
          | Raise e => (σ, Unhandled e)
          | Ok (pass_usr, pass_pwd) =>
              if negb pass_usr then (σ, HTTPException 400 "用户名不存在，请与管理员联系")
              else if negb pass_pwd then (σ, HTTPException 400 "密码错误，请与管理员联系")
              else
                let σ := if existing_active username σ
                         then close_session username σ else σ in
                match create_session W username (login_agent_config user) now σ with
                | (σ, Ok session) =>
                    (σ, Return (LoginReply.mk ("用户 " +:+ username +:+ " 登录成功") true ts))
                | (σ, Raise e) =>
                    if is_ValueError e then (σ, HTTPException 400 (str e))
                    else (σ, HTTPException 500 ("创建会话失败: " +:+ str e))
                end
          end
    end.

(** [POST /logout/{username}] *)
Definition logout (username : string) (σ : Server) : Server * response string :=
  (close_session username σ, Return ("用户 " +:+ username +:+ " 已登出")).

(** [POST /chat] up to its [await]: the lookup, the two checks and
    [update_last_active]. *)
Definition chat_begin (user_message : UserMessage.t) (now : Z) (σ : Server)
    : Server * (response AgentResponse.t + Pending) :=
  match get_session (UserMessage.username user_message) σ with
  | None => (σ, inl (HTTPException 404 "用户会话不存在，请重新登录"))
  | Some session =>
      match objects σ !! session ≫= UserSession.agent with
      | None => (σ, inl (HTTPException 500 "智能体未正确初始化"))
      | Some agent =>
          let σ := update_last_active (UserMessage.username user_message) now σ in
          (σ, inr (mkPending session agent (UserMessage.message user_message)
                     (objects σ !! session ≫= UserSession.history_context)))
      end
  end.

(** [POST /chat] from the completion of [agent.run] on: [outcome] is what the
    awaited call produced. *)
Definition chat_end (call : Pending) (outcome : result AgentRunResult.t)
    (ts : string) (σ : Server) : Server * response AgentResponse.t :=
  match outcome with
  | Ok result =>
      (mkServer
         (alter (UserSession.set_history_context
                   (Some (AgentRunResult.all_messages result)))
                (pending_session call) (objects σ))
         (agent_manager σ),
       Return (AgentResponse.mk (AgentRunResult.output result) ts))
  | Raise e => (σ, HTTPException 500 ("智能体处理错误: " +:+ str e))
  end.

(** What the backend answers to a suspended call. *)
Definition backend (call : Pending) : result AgentRunResult.t :=
  agent_run W (pending_agent call) (pending_message call) (pending_history call).

(** [POST /chat] when no other request runs during its [await]. *)
Definition chat (user_message : UserMessage.t) (now : Z) (ts : string) (σ : Server)
    : Server * response AgentResponse.t :=
  match chat_begin user_message now σ with
  | (σ, inl r) => (σ, r)
  | (σ, inr call) => chat_end call (backend call) ts σ
  end.

(** One iteration of [cleanup_task]. *)
Definition cleanup_sweep (current_time : Z) (σ : Server) : Server :=
  cleanup_inactive_sessions 1800 current_time σ.

(** *** Overlapping [chat] requests

    The event loop interleaves requests at their [await]s only.  A schedule
    is the order in which the two halves of the requests run. *)

Inductive event :=
  | ChatBegin (request : nat) (user_message : UserMessage.t) (now : Z)
  | ChatEnd (request : nat) (ts : string).

Record EventLoop := mkEventLoop {
  server : Server;
  suspended : gmap nat Pending;
  replies : gmap nat (response AgentResponse.t) }.

Definition start (σ : Server) : EventLoop := mkEventLoop σ ∅ ∅.

Definition step (l : EventLoop) (ev : event) : EventLoop :=
  match ev with
  | ChatBegin request user_message now =>
      match chat_begin user_message now (server l) with
      | (σ, inl r) => mkEventLoop σ (suspended l) (<[request := r]> (replies l))
      | (σ, inr call) => mkEventLoop σ (<[request := call]> (suspended l)) (replies l)
      end
  | ChatEnd request ts =>
      match suspended l !! request with
      | None => l
      | Some call =>
          let '(σ, r) := chat_end call (backend call) ts (server l) in
          mkEventLoop σ (delete request (suspended l)) (<[request := r]> (replies l))
      end
  end.

Definition run (schedule : list event) (l : EventLoop) : EventLoop :=
  foldl step l schedule.

End endpoints.

(** ** Sample worlds

    A deployment with three configuration files, a backend that echoes, and
    two accounts; and variants of it in which one collaborator fails. *)

Definition filesystem_server : MCPServer :=
  MCPServerStdio "npx" ["-y"; "@modelcontextprotocol/server-filesystem"; "./"] 5.

Definition word_server : MCPServer :=
  MCPServerStdio "python" ["./python_modules/mcp_server_word/mcp_word_server.py"] 5.

Definition map_server : MCPServer := MCPServerHTTP "http://localhost:9000/mcp" 5.

Definition sample_load_mcp_servers (config : string) : result (list MCPServer) :=
  if String.eqb config "./config/mcp_config_base.json" then Ok [filesystem_server]
  else if String.eqb config "./config/mcp_config_office.json" then Ok [word_server]
  else if String.eqb config "./config/mcp_config_map.json" then Ok [map_server]
  else Raise (OSError "No such file or directory").

Definition echo_run (agent : Agent.t) (message : string)
    (history : option (list ModelMessage)) : result AgentRunResult.t :=
  Ok (AgentRunResult.mk
        (default [] history ++ [ModelRequest message; ModelResponse ("echo: " +:+ message)])
        ("echo: " +:+ message)).

(** The accounts of the sample login table. *)
Definition sample_select_user_login (username : string)
    : result (list (string * string)) :=
  Ok (filter (λ row, row.1 = username)
        [("alice", "wonderland"); ("bob", "builder"); ("admin", "root")]).

Definition sample_world : World :=
  mkWorld sample_load_mcp_servers (λ _, Ok ()) "/srv/workspace" (λ _ _, Ok ())
    echo_run (Ok ()) sample_select_user_login.

(** The model client refuses the credential. *)
Definition world_bad_credential : World :=
  mkWorld sample_load_mcp_servers (λ _, Ok ()) "/srv/workspace"
    (λ _ _, Raise (RuntimeError "invalid api key"))
    echo_run (Ok ()) sample_select_user_login.

(** The backend is down. *)
Definition world_backend_down : World :=
  mkWorld sample_load_mcp_servers (λ _, Ok ()) "/srv/workspace" (λ _ _, Ok ())
    (λ _ _ _, Raise (RuntimeError "connection refused"))
    (Ok ()) sample_select_user_login.

Definition sample_login (username password : string) : UserLogin.t :=
  UserLogin.mk username password "deepseek-chat" "sk-1" None "be brief".

Definition alice_login : UserLogin.t := sample_login "alice" "wonderland".
Definition bob_login : UserLogin.t := sample_login "bob" "builder".

(** The server after alice logged in at time 10. *)
Definition alice_logged_in : Server :=
  (login sample_world alice_login 10 "t10" init_server).1.

(** The server after bob logged in at time 10 and alice at time 50. *)
Definition alice_and_bob : Server :=
  (login sample_world alice_login 50 "t50"
     (login sample_world bob_login 10 "t10" init_server).1).1.

(** ** Vocabulary of the properties *)

Section vocabulary.
Context (W : World).

(** The provisioning step of [create_session] in state [σ]. *)
Definition session_tools (u : string) (agent_config : AgentConfig.t) (σ : Server)
    : result (list MCPServer) :=
  load_mcp_server W (set_workspace_config agent_config (agent_manager σ)) u
    (AgentConfig.mcp_configs agent_config) 100.

(** [create_session], one outcome per exit of the source. *)
Inductive creation (u : string) (agent_config : AgentConfig.t) (now : Z)
    (σ : Server) : Server * result loc → Prop :=
  | creation_no_key :
      truthy (AgentConfig.api_key agent_config) = false →
      creation u agent_config now σ
        (close_session u σ, Raise (ValueError "API密钥不能为空"))
  | creation_no_model :
      truthy (AgentConfig.api_key agent_config) = true →
      truthy (AgentConfig.model_name agent_config) = false →
      creation u agent_config now σ
        (close_session u σ, Raise (ValueError "模型名称不能为空"))
  | creation_no_tools e :
      truthy (AgentConfig.api_key agent_config) = true →
      truthy (AgentConfig.model_name agent_config) = true →
      session_tools u agent_config σ = Raise e →
      creation u agent_config now σ
        (mkServer (objects (close_session u σ))
           (set_workspace_config agent_config (agent_manager (close_session u σ))),
         Raise e)
  | creation_no_agent mcp_server e :
      truthy (AgentConfig.api_key agent_config) = true →
      truthy (AgentConfig.model_name agent_config) = true →
      session_tools u agent_config σ = Ok mcp_server →
      _create_agent_for_user W u agent_config mcp_server = Raise e →
      creation u agent_config now σ
        (mkServer (objects (close_session u σ))
           (set_workspace_config agent_config (agent_manager (close_session u σ))),
         Raise (ValueError ("创建智能体失败: " +:+ str e)))
  | creation_done mcp_server agent :
      truthy (AgentConfig.api_key agent_config) = true →
      truthy (AgentConfig.model_name agent_config) = true →
      session_tools u agent_config σ = Ok mcp_server →
      _create_agent_for_user W u agent_config mcp_server = Ok agent →
      let session := fresh (dom (objects σ)) in
      creation u agent_config now σ
        (mkServer
           (<[session := UserSession.mk u agent_config (Some agent) now true (Some [])]>
              (objects (close_session u σ)))
           (AgentManager.set_sessions (<[u := session]>)
              (set_workspace_config agent_config (agent_manager (close_session u σ)))),
         Ok session).

End vocabulary.

(** The store binds usernames to distinct, live session objects: what
    Python guarantees of a dict whose values are each built by one call of
    [create_session]. *)
Record wf (σ : Server) : Prop := mk_wf {
  wf_object : ∀ u r, sessions σ !! u = Some r →
    ∃ s, objects σ !! r = Some s ∧ UserSession.username s = u
         ∧ UserSession.is_active s = true ∧ is_Some (UserSession.agent s);
  wf_unshared : ∀ u v r,
    sessions σ !! u = Some r → sessions σ !! v = Some r → u = v }.

(** The states the server goes through: every handler, and each half of
    [chat] with whatever the backend answers. *)
Inductive reachable (W : World) : Server → Prop :=
  | reachable_init : reachable W init_server
  | reachable_login user now ts σ :
      reachable W σ → reachable W (login W user now ts σ).1
  | reachable_logout u σ :
      reachable W σ → reachable W (logout u σ).1
  | reachable_chat_begin user_message now σ :
      reachable W σ → reachable W (chat_begin user_message now σ).1
  | reachable_chat_end call outcome ts σ :
      reachable W σ → reachable W (chat_end call outcome ts σ).1
  | reachable_cleanup current_time σ :
      reachable W σ → reachable W (cleanup_sweep current_time σ).

(** The per-user workspace path of the specification,
    [{workspace_root}/workspace_{username}]. *)
Definition user_workspace (workspace_root username : string) : string :=
  workspace_root +:+ "/workspace_" +:+ username.

(** One provisioned tool-server spec, in the specification's words: a spec
    whose second argument is the filesystem tool's identifier has its third
    argument replaced by the user's workspace path; every spec carries the uniform
    timeout; nothing else changes. *)
Definition provisioned (filesystem_tool workspace_root username : string)
    (timeout : Z) (i : MCPServer) : MCPServer :=
  match i with
  | MCPServerStdio command args _ =>
      if bool_decide (args !! 1%nat = Some filesystem_tool)
      then MCPServerStdio command
             (<[2%nat := user_workspace workspace_root username]> args) timeout
      else MCPServerStdio command args timeout
  | MCPServerHTTP url _ => MCPServerHTTP url timeout
  end.

(** A login request that passes the field validation and the
    authentication of [login]. *)
Definition accepted (W : World) (user : UserLogin.t) : Prop :=
  truthy (UserLogin.username user) = true
  ∧ validation_errors user = []
  ∧ db_connect W = Ok ()
  ∧ validate_login W (UserLogin.username user) (UserLogin.password user)
    = Ok (true, true).

(** How [login] answers once [create_session] has run. *)
Definition login_reply (username ts : string) (outcome : Server * result loc)
    : Server * response LoginReply.t :=
  match outcome with
  | (σ, Ok session) =>
      (σ, Return (LoginReply.mk ("用户 " +:+ username +:+ " 登录成功") true ts))
  | (σ, Raise e) =>
      if is_ValueError e then (σ, HTTPException 400 (str e))
      else (σ, HTTPException 500 ("创建会话失败: " +:+ str e))
  end.

(** The manager fields other than the session map are the same in two
    states. *)
Definition same_manager_fields (σ σ' : Server) : Prop :=
  AgentManager.filesystem_mcp_name (agent_manager σ')
  = AgentManager.filesystem_mcp_name (agent_manager σ)
  ∧ AgentManager.workspace_root (agent_manager σ')
    = AgentManager.workspace_root (agent_manager σ)
  ∧ AgentManager.mcp_configs (agent_manager σ')
    = AgentManager.mcp_configs (agent_manager σ).

(** A username has the same binding and the same session in two states. *)
Definition untouched (v : string) (σ σ' : Server) : Prop :=
  sessions σ' !! v = sessions σ !! v ∧ session_of σ' v = session_of σ v.

(** The state [σ] with other values in the two fields that [create_session]
    assigns. *)
Definition with_workspace_fields (workspace_root : option string)
    (mcp_configs : list string) (σ : Server) : Server :=
  mkServer (objects σ)
    (AgentManager.mk (sessions σ)
       (AgentManager.filesystem_mcp_name (agent_manager σ))
       workspace_root mcp_configs).

(** One [chat] request of a schedule: its number, its body and the clock
    readings of its two halves. *)
Record ChatCall := mkChatCall {
  call_id : nat;
  call_message : UserMessage.t;
  call_now : Z;
  call_ts : string }.

(** The schedule in which each request completes before the next begins. *)
Definition serial (calls : list ChatCall) : list event :=
  calls ≫= λ c, [ChatBegin (call_id c) (call_message c) (call_now c);
                 ChatEnd (call_id c) (call_ts c)].

(** The schedule in which the second request begins while the first is
    suspended at the backend call. *)
Definition overlapped (c1 c2 : ChatCall) : list event :=
  [ChatBegin (call_id c1) (call_message c1) (call_now c1);
   ChatBegin (call_id c2) (call_message c2) (call_now c2);
   ChatEnd (call_id c1) (call_ts c1);
   ChatEnd (call_id c2) (call_ts c2)].

(** The schedule in which both requests are suspended at the backend call
    and the one that began last completes first. *)
Definition overlapped_reversed (c1 c2 : ChatCall) : list event :=
  [ChatBegin (call_id c1) (call_message c1) (call_now c1);
   ChatBegin (call_id c2) (call_message c2) (call_now c2);
   ChatEnd (call_id c2) (call_ts c2);
   ChatEnd (call_id c1) (call_ts c1)].

(** The history after the agent has answered the messages one after the
    other, each call being given the message list the previous one
    returned. *)
Fixpoint turns (W : World) (agent : Agent.t) (history : option (list ModelMessage))
    (messages : list string) : result (option (list ModelMessage)) :=
  match messages with
  | [] => Ok history
  | message :: messages =>
      result ← agent_run W agent message history;
      turns W agent (Some (AgentRunResult.all_messages result)) messages
  end.

(** The session objects of the sample runs. *)
Definition sample_agent (username : string) : Agent.t :=
  Agent.mk ("deepseek-chat", "sk-1", None) "be brief"
    [MCPServerStdio "npx"
       ["-y"; "@modelcontextprotocol/server-filesystem";
        "/srv/workspace/workspace_" +:+ username] 100;
     MCPServerStdio "python"
       ["./python_modules/mcp_server_word/mcp_word_server.py"] 100].

Definition sample_session (user : UserLogin.t) (now : Z) : UserSession.t :=
  UserSession.mk (UserLogin.username user) (login_agent_config sample_world user)
    (Some (sample_agent (UserLogin.username user))) now true (Some []).

(** The server after alice logged in at time 10 while the backend is down. *)
Definition alice_backend_down : Server :=
  (login world_backend_down alice_login 10 "t10" init_server).1.

(** Two chat requests of alice. *)
Definition first_call : ChatCall :=
  mkChatCall 1 (UserMessage.mk "alice" "first") 20 "t20".
Definition second_call : ChatCall :=
  mkChatCall 2 (UserMessage.mk "alice" "second") 21 "t21".

(** A manager whose workspace root is set, as [create_session] leaves it. *)
Definition sample_manager : AgentManager.t :=
  AgentManager.mk ∅ "@modelcontextprotocol/server-filesystem"
    (Some "/srv/workspace") [].

(** A configuration whose filesystem entry lacks the directory argument. *)
Definition world_short_args : World :=
  mkWorld
    (λ _, Ok [MCPServerStdio "npx" ["-y"; "@modelcontextprotocol/server-filesystem"] 5])
    (λ _, Ok ()) "/srv/workspace" (λ _ _, Ok ()) echo_run (Ok ())
    sample_select_user_login.

(** ** The remaining endpoints of [main.py] and [get_active_users] *)

(** Python [str] values are held as their UTF-8 bytes.  Equality,
    concatenation and emptiness do not depend on the encoding; [len] and
    slicing count code points, that is, bytes other than continuation bytes
    ([10xxxxxx]). *)
Definition is_continuation_byte (a : Ascii.ascii) : bool :=
  (128 <=? Ascii.nat_of_ascii a)%nat && (Ascii.nat_of_ascii a <? 192)%nat.

(** [len(s)] *)
Fixpoint len (s : string) : nat :=
  match s with
  | EmptyString => 0
  | String a s => if is_continuation_byte a then len s else S (len s)
  end.

(** [s[:n]] *)
Fixpoint slice_to (n : nat) (s : string) : string :=
  match s with
  | EmptyString => EmptyString
  | String a s' =>
      if is_continuation_byte a then String a (slice_to n s')
      else match n with
           | O => EmptyString
           | S n' => String a (slice_to n' s')
           end
  end.

Module UserInfo.
Record t := mk {
  username : string;
  model_name : string;
  is_active : bool;
  last_active : string }.
End UserInfo.

Module UserConfig.
Record t := mk {
  username : string;
  model_name : string;
  base_url : option string;
  system_prompt : string }.
End UserConfig.

Module Health.
Record t := mk { status : string; active_users : nat; timestamp : string }.
End Health.

(** [AgentManager.get_active_users]: the keys of [sessions], listed in the
    order of the finite map, which is not Python's insertion order. *)
Definition get_active_users (σ : Server) : list string :=
  (map_to_list (sessions σ)).*1.

(** [GET /users]; [isoformat] stands for
    [datetime.fromtimestamp(_).isoformat()].  The entries come in the order
    of the finite map. *)
Definition users (isoformat : Z → string) (σ : Server) : list UserInfo.t :=
  omap (λ item : string * loc,
          session ← objects σ !! item.2;
          Some (UserInfo.mk item.1
                  (AgentConfig.model_name (UserSession.agent_config session))
                  (UserSession.is_active session)
                  (isoformat (UserSession.last_active session))))
       (map_to_list (sessions σ)).

(** The [system_prompt] entry of [/user_config]:
    [prompt[:100] + "..." if len(prompt) > 100 else prompt]. *)
Definition shown_prompt (prompt : string) : string :=
  if (100 <? len prompt)%nat then slice_to 100 prompt +:+ "..." else prompt.

(** [GET /user_config/{username}] *)
Definition get_user_config (username : string) (σ : Server) : response UserConfig.t :=
  match get_session username σ ≫= λ session, objects σ !! session with
  | None => HTTPException 404 "用户会话不存在"
  | Some session =>
      let agent_config := UserSession.agent_config session in
      Return (UserConfig.mk username
                (AgentConfig.model_name agent_config)
                (AgentConfig.base_url agent_config)
                (shown_prompt (AgentConfig.system_prompt agent_config)))
  end.

(** [GET /health]; [ts] is the reading of [datetime.now().isoformat()]. *)
Definition health_check (ts : string) (σ : Server) : Health.t :=
  Health.mk "healthy" (size (sessions σ)) ts.

(** ** Invariants of the reachable states *)

Definition server_timeout (i : MCPServer) : Z :=
  match i with
  | MCPServerStdio _ _ timeout => timeout
  | MCPServerHTTP _ timeout => timeout
  end.

(** A session object as [login] and [create_session] build it: its
    configuration passed the checks of both, and its agent was made from that
    configuration with servers that all carry the timeout 100. *)
Record session_built (W : World) (s : UserSession.t) : Prop := mk_session_built {
  built_username : truthy (UserSession.username s) = true;
  built_key : truthy (AgentConfig.api_key (UserSession.agent_config s)) = true;
  built_model : truthy (AgentConfig.model_name (UserSession.agent_config s)) = true;
  built_prompt :
    truthy (AgentConfig.system_prompt (UserSession.agent_config s)) = true;
  built_root :
    AgentConfig.workspace_root (UserSession.agent_config s) = workspace_abspath W;
  built_configs :
    AgentConfig.mcp_configs (UserSession.agent_config s)
    = login_mcp_configs (UserSession.username s);
  built_agent : ∃ a,
    UserSession.agent s = Some a
    ∧ Agent.model a
      = (AgentConfig.model_name (UserSession.agent_config s),
         AgentConfig.api_key (UserSession.agent_config s),
         AgentConfig.base_url (UserSession.agent_config s))
    ∧ Agent.system_prompt a
      = AgentConfig.system_prompt (UserSession.agent_config s)
    ∧ Forall (λ i, server_timeout i = 100%Z) (Agent.toolsets a);
  built_history : is_Some (UserSession.history_context s) }.

(** The manager fields as [__init__] and [login] leave them. *)
Definition manager_fields_inv (W : World) (m : AgentManager.t) : Prop :=
  AgentManager.filesystem_mcp_name m = "@modelcontextprotocol/server-filesystem"
  ∧ ((AgentManager.workspace_root m = None ∧ AgentManager.mcp_configs m = [])
     ∨ (AgentManager.workspace_root m = Some (workspace_abspath W)
        ∧ ∃ u, AgentManager.mcp_configs m = login_mcp_configs u)).

Record store_inv (W : World) (σ : Server) : Prop := mk_store_inv {
  inv_wf : wf σ;
  inv_built : ∀ r s, objects σ !! r = Some s → session_built W s;
  inv_active : ∀ r s,
    objects σ !! r = Some s → UserSession.is_active s = true →
    sessions σ !! UserSession.username s = Some r;
  inv_manager : manager_fields_inv W (agent_manager σ) }.

(** ** [python_modules]: two helpers of the document tools *)

(** [is_file_within_workspace], defined alike in [utils_word.py],
    [utils_excel.py] and [utils_pdf.py]; [resolve] stands for
    [str(Path(_).resolve())], and any exception gives [False]. *)
Definition is_file_within_workspace (resolve : string → result string)
    (file_path workspace_path : string) : bool :=
  match resolve file_path with
  | Raise _ => false
  | Ok file =>
      match resolve workspace_path with
      | Raise _ => false
      | Ok workspace => String.prefix workspace file
      end
  end.

(** [utils_pdf.extract_line_from_text].  A text is the sequence of its
    characters; [position] is a character index, not negative (the caller
    passes [match.start()]). *)
Section text.
Context {char : Type} `{EqDecision char} (newline : char) (isspace : char → bool).

(** Index of the first newline of [text], if any. *)
Fixpoint find_newline (text : list char) : option nat :=
  match text with
  | [] => None
  | c :: text => if decide (c = newline) then Some 0%nat else S <$> find_newline text
  end.

(** Index of the last newline of [text], if any. *)
Fixpoint rfind_newline (text : list char) : option nat :=
  match text with
  | [] => None
  | c :: text =>
      match rfind_newline text with
      | Some i => Some (S i)
      | None => if decide (c = newline) then Some 0%nat else None
      end
  end.

(** [text.find('\n', position)]; [None] stands for [-1]. *)
Definition find (text : list char) (position : nat) : option nat :=
  (λ i, position + i)%nat <$> find_newline (drop position text).

(** [text.rfind('\n', 0, position)]; [None] stands for [-1]. *)
Definition rfind (text : list char) (position : nat) : option nat :=
  rfind_newline (take position text).

(** [text[first:last]] for indices that are not negative. *)
Definition slice (text : list char) (first last : nat) : list char :=
  take (last - first) (drop first text).

Fixpoint lstrip (text : list char) : list char :=
  match text with
  | [] => []
  | c :: rest => if isspace c then lstrip rest else text
  end.

(** [text.strip()] *)
Definition strip (text : list char) : list char :=
  reverse (lstrip (reverse (lstrip text))).

Definition extract_line_from_text (text : list char) (position : nat) : list char :=
  let line_start :=
    match rfind text position with
    | None => 0%nat
    | Some line_start => (line_start + 1)%nat
    end in
  let line_end :=
    match find text position with
    | None => length text
    | Some line_end => line_end
    end in
  strip (slice text line_start line_end).

End text.

(** More sample data. *)
Definition alice_wrong_password : UserLogin.t := sample_login "alice" "looking-glass".

(** A login whose system prompt has 101 characters, the first a Chinese one
    (three bytes). *)
Definition long_prompt : string :=
  "你" +:+ String.concat "" (replicate 10 "0123456789").

Definition long_prompt_login : UserLogin.t :=
  UserLogin.mk "alice" "wonderland" "deepseek-chat" "sk-1" None long_prompt.

(** The sample deployment with a source that cannot be read. *)
Definition world_missing_source : World :=
  mkWorld
    (λ config, if String.eqb config "./config/mcp_config_office.json"
               then Raise (OSError "No such file or directory")
               else sample_load_mcp_servers config)
    (λ _, Ok ()) "/srv/workspace" (λ _ _, Ok ()) echo_run (Ok ())
    sample_select_user_login.

(** A page of text, as characters. *)
Definition sample_page : list Ascii.ascii :=
  String.list_ascii_of_string "title
  total: 42  
end".

(** A chat request of bob. *)
Definition bob_call : ChatCall :=
  mkChatCall 7 (UserMessage.mk "bob" "hello") 60 "t60".

(** ** After a second login *)

(** The states the server goes through from [σ] on for as long as the
    username [u] neither logs out, nor sends a login, nor is reaped: the
    logins (whatever their outcome) and logouts of the other usernames, both
    halves of [chat] for any username with whatever the backend answers, and
    the sweeps that do not find [u] idle. *)
Inductive follows (W : World) (u : string) (σ : Server) : Server → Prop :=
  | follows_refl : follows W u σ σ
  | follows_login user now ts σ' :
      follows W u σ σ' → UserLogin.username user ≠ u →
      follows W u σ (login W user now ts σ').1
  | follows_logout v σ' :
      follows W u σ σ' → v ≠ u → follows W u σ (logout v σ').1
  | follows_chat_begin user_message now σ' :
      follows W u σ σ' → follows W u σ (chat_begin user_message now σ').1
  | follows_chat_end call outcome ts σ' :
      follows W u σ σ' → follows W u σ (chat_end call outcome ts σ').1
  | follows_cleanup current_time σ' :
      follows W u σ σ' → u ∉ inactive_users current_time 1800 σ' →
      follows W u σ (cleanup_sweep current_time σ').

(** The username [u] is bound to the object [r2], which holds the agent
    [a2], while the object [r1] is inactive and no username is bound to it. *)
Record replaced (u : string) (r1 r2 : loc) (a2 : Agent.t) (σ : Server) : Prop :=
  mk_replaced {
    replaced_bound : sessions σ !! u = Some r2;
    replaced_unbound : ∀ v, sessions σ !! v ≠ Some r1;
    replaced_closed :
      ∃ s1, objects σ !! r1 = Some s1 ∧ UserSession.is_active s1 = false;
    replaced_agent :
      ∃ s2, objects σ !! r2 = Some s2 ∧ UserSession.agent s2 = Some a2 }.

(** The server after alice logged in at time 10 and had one turn at
    time 20. *)
Definition alice_chatted : Server :=
  (chat sample_world (UserMessage.mk "alice" "hello") 20 "t20" alice_logged_in).1.

(** A spec that passes the second loop of [load_mcp_server]: it is not taken
    for the filesystem tool, or it has the third argument that
    [i.args[2] = current_workspace] assigns. *)
Definition has_directory_argument (self : AgentManager.t) (i : MCPServer) : bool :=
  negb (is_filesystem_server self i)
  || bool_decide (2 < length (server_args i))%nat.

(** * Properties *)

(** ** The session store: closing, touching, creating *)

Section store.
Context (W : World).
Implicit Types (σ : Server) (u v username : string) (now : Z) (r : loc).

Lemma close_session_absent u σ :
  sessions σ !! u = None → close_session u σ = σ.
Proof. intros H. unfold close_session. by rewrite H. Qed.

Lemma sessions_close_session u v σ :
  sessions (close_session u σ) !! v
  = if decide (u = v) then None else sessions σ !! v.
Proof.
  unfold close_session.
  destruct (sessions σ !! u) as [r|] eqn:Hu.
  - unfold sessions; simpl. apply lookup_delete.
  - case_decide; [by subst|done].
Qed.

Lemma sessions_close_session_eq u σ : sessions (close_session u σ) !! u = None.
Proof. rewrite sessions_close_session. by case_decide. Qed.

Lemma sessions_close_session_ne u v σ :
  u ≠ v → sessions (close_session u σ) !! v = sessions σ !! v.
Proof. intros. rewrite sessions_close_session. by case_decide. Qed.

Lemma close_session_idem u σ :
  close_session u (close_session u σ) = close_session u σ.
Proof. apply close_session_absent, sessions_close_session_eq. Qed.

Lemma dom_objects_close_session u σ :
  dom (objects (close_session u σ)) = dom (objects σ).
Proof.
  unfold close_session. destruct (sessions σ !! u); [|done].
  simpl. apply leibniz_equiv, dom_alter.
Qed.

(** Closing keeps every manager field but the session map. *)
Lemma manager_fields_close_session u σ :
  let m := agent_manager σ in let m' := agent_manager (close_session u σ) in
  AgentManager.filesystem_mcp_name m' = AgentManager.filesystem_mcp_name m
  ∧ AgentManager.workspace_root m' = AgentManager.workspace_root m
  ∧ AgentManager.mcp_configs m' = AgentManager.mcp_configs m.
Proof. unfold close_session. by destruct (sessions σ !! u). Qed.

(** Closing writes to the closed session's object only. *)
Lemma objects_close_session u r σ :
  sessions σ !! u ≠ Some r →
  objects (close_session u σ) !! r = objects σ !! r.
Proof.
  intros Hr. unfold close_session.
  destruct (sessions σ !! u) as [r'|]; [|done].
  simpl. apply lookup_alter_ne. congruence.
Qed.

Lemma objects_close_session_closed u r s σ :
  sessions σ !! u = Some r → objects σ !! r = Some s →
  objects (close_session u σ) !! r = Some (UserSession.set_is_active false s).
Proof.
  intros Hu Hr. unfold close_session. rewrite Hu. simpl.
  by rewrite lookup_alter_eq, Hr.
Qed.

Lemma update_last_active_absent u now σ :
  sessions σ !! u = None → update_last_active u now σ = σ.
Proof. intros H. unfold update_last_active. by rewrite H. Qed.

Lemma sessions_update_last_active u now σ :
  sessions (update_last_active u now σ) = sessions σ.
Proof. unfold update_last_active. by destruct (sessions σ !! u). Qed.

Lemma manager_update_last_active u now σ :
  agent_manager (update_last_active u now σ) = agent_manager σ.
Proof. unfold update_last_active. by destruct (sessions σ !! u). Qed.

Lemma objects_update_last_active u now r s σ :
  sessions σ !! u = Some r → objects σ !! r = Some s →
  objects (update_last_active u now σ) !! r
  = Some (UserSession.set_last_active now s).
Proof.
  intros Hu Hr. unfold update_last_active. rewrite Hu. simpl.
  by rewrite lookup_alter_eq, Hr.
Qed.

Lemma objects_update_last_active_ne u now r σ :
  sessions σ !! u ≠ Some r →
  objects (update_last_active u now σ) !! r = objects σ !! r.
Proof.
  intros Hr. unfold update_last_active.
  destruct (sessions σ !! u) as [r'|]; [|done].
  simpl. apply lookup_alter_ne. congruence.
Qed.

(** [create_session] begins by closing: the test [username in self.sessions]
    only skips a call that would do nothing. *)
Lemma create_session_prelude u σ :
  (if bool_decide (is_Some (sessions σ !! u)) then close_session u σ else σ)
  = close_session u σ.
Proof.
  case_bool_decide as H; [done|].
  symmetry. apply close_session_absent.
  destruct (sessions σ !! u); [|done]. destruct H; eauto.
Qed.

End store.

(** ** Session creation *)

Section creation.
Context (W : World).
Implicit Types (σ : Server) (u v username : string) (now : Z) (r : loc).

Lemma stamp_server_ext self self' u t i :
  AgentManager.filesystem_mcp_name self = AgentManager.filesystem_mcp_name self' →
  AgentManager.workspace_root self = AgentManager.workspace_root self' →
  stamp_server W self u t i = stamp_server W self' u t i.
Proof.
  intros Hn Hw. unfold stamp_server, is_filesystem_server. by rewrite Hn, Hw.
Qed.

Lemma stamp_servers_ext self self' u t l acc :
  AgentManager.filesystem_mcp_name self = AgentManager.filesystem_mcp_name self' →
  AgentManager.workspace_root self = AgentManager.workspace_root self' →
  stamp_servers W self u t l acc = stamp_servers W self' u t l acc.
Proof.
  intros Hn Hw. revert acc. induction l as [|i l IH]; intros acc; [done|].
  simpl. rewrite (stamp_server_ext self self') by done.
  destruct (stamp_server W self' u t i); simpl; [apply IH|done].
Qed.

(** Provisioning reads two manager fields only. *)
Lemma load_mcp_server_ext self self' u configs t :
  AgentManager.filesystem_mcp_name self = AgentManager.filesystem_mcp_name self' →
  AgentManager.workspace_root self = AgentManager.workspace_root self' →
  load_mcp_server W self u configs t = load_mcp_server W self' u configs t.
Proof.
  intros Hn Hw. unfold load_mcp_server.
  destruct (load_configs W configs []); simpl; [|done].
  by apply stamp_servers_ext.
Qed.

Lemma session_tools_close_session u v agent_config σ :
  session_tools W u agent_config (close_session v σ) = session_tools W u agent_config σ.
Proof.
  unfold session_tools. apply load_mcp_server_ext; simpl;
    [|done]. apply (manager_fields_close_session v σ).
Qed.

Lemma create_session_creation u agent_config now σ :
  creation W u agent_config now σ (create_session W u agent_config now σ).
Proof.
  unfold create_session. rewrite create_session_prelude.
  destruct (truthy (AgentConfig.api_key agent_config)) eqn:Hk; simpl;
    [|by constructor].
  destruct (truthy (AgentConfig.model_name agent_config)) eqn:Hm; simpl;
    [|by constructor].
  pose proof (session_tools_close_session u u agent_config σ) as Ht.
  unfold session_tools in Ht at 1. rewrite Ht.
  destruct (session_tools W u agent_config σ) as [mcp_server|e] eqn:Hl;
    [|by econstructor].
  destruct (_create_agent_for_user W u agent_config mcp_server) as [agent|e] eqn:Ha;
    [|by econstructor].
  rewrite dom_objects_close_session. by econstructor.
Qed.

(** What [create_session] leaves in the store, by outcome. *)
Lemma create_session_registration u agent_config now σ :
  match create_session W u agent_config now σ with
  | (σ', Ok session) =>
      sessions σ' !! u = Some session
      ∧ (session ∉ dom (objects σ))
      ∧ ∃ agent, objects σ' !! session
                 = Some (UserSession.mk u agent_config (Some agent) now true (Some []))
  | (σ', Raise e) =>
      sessions σ' !! u = None ∧ dom (objects σ') = dom (objects σ)
  end.
Proof.
  destruct (create_session_creation u agent_config now σ); simpl;
    try (split; [apply sessions_close_session_eq|apply dom_objects_close_session]).
  split_and!.
  - unfold sessions; simpl. apply lookup_insert_eq.
  - apply is_fresh.
  - exists agent. apply lookup_insert_eq.
Qed.

(** C7. Session creation is all-or-nothing, step by step.  [create_session]
    returns exactly when both checks pass, [load_mcp_server] returns the tool
    servers and [_create_agent_for_user] returns the agent; the username is
    then bound to a newly allocated session holding the given configuration,
    that agent, an empty history, the current time as last-activity and the
    active flag.  When a check fails, when [load_mcp_server] raises, or when
    [_create_agent_for_user] raises (raised again as a [ValueError]),
    [create_session] raises, no session is bound to the username and no
    session object has been allocated. *)
Theorem create_session_all_or_nothing u agent_config now σ :
  match create_session W u agent_config now σ with
  | (σ', Ok session) =>
      sessions σ' !! u = Some session
      ∧ (session ∉ dom (objects σ))
      ∧ ∃ agent, objects σ' !! session
                 = Some (UserSession.mk u agent_config (Some agent) now true (Some []))
  | (σ', Raise e) =>
      sessions σ' !! u = None ∧ dom (objects σ') = dom (objects σ)
  end
  ∧ if truthy (AgentConfig.api_key agent_config) then
      if truthy (AgentConfig.model_name agent_config) then
        match load_mcp_server W (set_workspace_config agent_config (agent_manager σ))
                u (AgentConfig.mcp_configs agent_config) 100 with
        | Raise e =>
            (create_session W u agent_config now σ).2 = Raise e
            ∧ sessions (create_session W u agent_config now σ).1 !! u = None
        | Ok mcp_server =>
            match _create_agent_for_user W u agent_config mcp_server with
            | Raise e =>
                (create_session W u agent_config now σ).2
                = Raise (ValueError ("创建智能体失败: " +:+ str e))
                ∧ sessions (create_session W u agent_config now σ).1 !! u = None
            | Ok agent =>
                (create_session W u agent_config now σ).2
                = Ok (fresh (dom (objects σ)))
                ∧ sessions (create_session W u agent_config now σ).1 !! u
                  = Some (fresh (dom (objects σ)))
                ∧ objects (create_session W u agent_config now σ).1
                  !! fresh (dom (objects σ))
                  = Some (UserSession.mk u agent_config (Some agent) now true
                            (Some []))
            end
        end
      else
        (create_session W u agent_config now σ).2
        = Raise (ValueError "模型名称不能为空")
        ∧ sessions (create_session W u agent_config now σ).1 !! u = None
    else
      (create_session W u agent_config now σ).2
      = Raise (ValueError "API密钥不能为空")
      ∧ sessions (create_session W u agent_config now σ).1 !! u = None.
Proof.
  split; [apply create_session_registration|].
  change (load_mcp_server W (set_workspace_config agent_config (agent_manager σ))
            u (AgentConfig.mcp_configs agent_config) 100)
    with (session_tools W u agent_config σ).
  destruct (create_session_creation u agent_config now σ) as
    [Hk|Hk Hm|e Hk Hm Ht|l e Hk Hm Ht Ha|l a Hk Hm Ht Ha]; simpl;
    rewrite ?Hk, ?Hm, ?Ht, ?Ha.
  - split; [done|apply sessions_close_session_eq].
  - split; [done|apply sessions_close_session_eq].
  - split; [done|apply sessions_close_session_eq].
  - split; [done|apply sessions_close_session_eq].
  - split_and!; [done| |]; [unfold sessions; simpl|]; apply lookup_insert_eq.
Qed.

(** Each failure of provisioning or of the agent build is a failure of
    [create_session], and without one the session is created. *)
Lemma create_session_outcome u agent_config now σ :
  truthy (AgentConfig.api_key agent_config) = true →
  truthy (AgentConfig.model_name agent_config) = true →
  (create_session W u agent_config now σ).2
  = match session_tools W u agent_config σ with
    | Raise e => Raise e
    | Ok mcp_server =>
        match agent_init W agent_config mcp_server with
        | Raise e => Raise (ValueError ("创建智能体失败: " +:+ str e))
        | Ok _ => Ok (fresh (dom (objects σ)))
        end
    end.
Proof.
  intros Hk Hm.
  destruct (create_session_creation u agent_config now σ) as
    [?|? ?|e ? ? Ht|l e ? ? Ht Ha|l a ? ? Ht Ha]; simpl; try congruence;
    rewrite Ht; try done;
    unfold _create_agent_for_user in Ha;
    destruct (agent_init W agent_config l); by simplify_eq/=.
Qed.

End creation.

(** ** The store invariant *)

Section invariant.
Context (W : World).
Implicit Types (σ : Server) (u v username : string) (now : Z) (r : loc).

Lemma wf_init : wf init_server.
Proof. split; intros *; unfold sessions; simpl; by rewrite lookup_empty. Qed.

Lemma wf_ext σ σ' :
  sessions σ' = sessions σ → objects σ' = objects σ → wf σ → wf σ'.
Proof. intros Hs Ho [H1 H2]. split; intros *; rewrite ?Hs, ?Ho; eauto. Qed.

(** Writing fields other than the name, the flag and the agent of an object
    keeps the invariant. *)
Lemma wf_alter (f : UserSession.t → UserSession.t) r σ :
  (∀ s, UserSession.username (f s) = UserSession.username s) →
  (∀ s, UserSession.is_active (f s) = UserSession.is_active s) →
  (∀ s, UserSession.agent (f s) = UserSession.agent s) →
  wf σ → wf (mkServer (alter f r (objects σ)) (agent_manager σ)).
Proof.
  intros Hn Ha Hg [H1 H2]. split; [|exact H2].
  intros u r' Hu. destruct (H1 u r' Hu) as (s & Hs & ? & ? & ?).
  change (objects (mkServer ?o _)) with o.
  destruct (decide (r = r')) as [->|Hne].
  - exists (f s). rewrite lookup_alter_eq, Hs, Hn, Ha, Hg. done.
  - exists s. by rewrite lookup_alter_ne.
Qed.

Lemma wf_close_session u σ : wf σ → wf (close_session u σ).
Proof.
  intros [H1 H2]. split.
  - intros v r Hv. rewrite sessions_close_session in Hv.
    case_decide as Huv; [done|].
    rewrite objects_close_session; [by apply H1|].
    intros Hu. apply Huv. eauto.
  - intros v w r Hv Hw. rewrite sessions_close_session in Hv, Hw.
    repeat case_decide; try done. eauto.
Qed.

Lemma wf_update_last_active u now σ : wf σ → wf (update_last_active u now σ).
Proof.
  intros Hwf. unfold update_last_active.
  destruct (sessions σ !! u); [|done]. by apply wf_alter.
Qed.

Lemma wf_create_session u agent_config now σ :
  wf σ → wf (create_session W u agent_config now σ).1.
Proof.
  intros Hwf. apply (wf_close_session u) in Hwf.
  destruct (create_session_creation W u agent_config now σ) as
    [?|? ?|e ? ? Ht|l e ? ? Ht Ha|l a ? ? Ht Ha]; simpl; try done;
    try (by eapply wf_ext; [| |exact Hwf]).
  destruct Hwf as [H1 H2].
  assert (Hfresh : ∀ v, sessions (close_session u σ) !! v ≠ Some session).
  { intros v Hv. destruct (H1 v _ Hv) as (s & Hs & _).
    apply (is_fresh (dom (objects σ))). fold session.
    rewrite <-(dom_objects_close_session u). apply elem_of_dom. eauto. }
  split.
  - intros v r. unfold sessions; simpl. rewrite lookup_insert.
    case_decide as Huv.
    + intros [= <-]. rewrite lookup_insert_eq. eexists. by split_and!.
    + intros Hv. rewrite lookup_insert_ne; [by apply H1|].
      intros <-. by apply (Hfresh v).
  - intros v w r. unfold sessions; simpl. rewrite !lookup_insert.
    repeat case_decide; subst; try done.
    + intros [= <-] Hw. by destruct (Hfresh w).
    + intros Hv [= <-]. by destruct (Hfresh v).
    + apply H2.
Qed.

Lemma wf_close_sessions (us : list string) σ :
  wf σ → wf (foldl (λ σ username, close_session username σ) σ us).
Proof.
  revert σ. induction us as [|u us IH]; intros σ Hwf; [done|].
  simpl. by apply IH, wf_close_session.
Qed.

Lemma wf_login user now ts σ : wf σ → wf (login W user now ts σ).1.
Proof.
  intros Hwf. unfold login.
  repeat (case_match; simpl; try done).
  all: match goal with
       | H : create_session W ?u ?c ?n ?σ0 = _ |- _ =>
           assert (Hc : wf (create_session W u c n σ0).1)
             by (apply wf_create_session; try apply wf_close_session; done);
           by rewrite H in Hc
       end.
Qed.

Lemma wf_chat_begin user_message now σ :
  wf σ → wf (chat_begin user_message now σ).1.
Proof.
  intros Hwf. unfold chat_begin, get_session.
  repeat (case_match; simpl; try done). by apply wf_update_last_active.
Qed.

Lemma wf_chat_end call outcome ts σ :
  wf σ → wf (chat_end call outcome ts σ).1.
Proof.
  intros Hwf. unfold chat_end. destruct outcome; [|done].
  by apply wf_alter.
Qed.

(** Every state the server reaches satisfies the invariant. *)
Lemma reachable_wf σ : reachable W σ → wf σ.
Proof.
  induction 1.
  - apply wf_init.
  - by apply wf_login.
  - by apply wf_close_session.
  - by apply wf_chat_begin.
  - by apply wf_chat_end.
  - by apply wf_close_sessions.
Qed.

End invariant.

(** ** Closing: [close_session], [update_last_active], [/logout] *)

Section closing.
Context (W : World).
Implicit Types (σ : Server) (u v username : string) (now : Z) (r : loc).

(** C9. Closing is idempotent and touching is absent-safe.  Closing a
    username leaves it absent, closing it again changes nothing, and for a
    username that is absent both [close_session] and [update_last_active]
    return the store as it was.  Neither can raise, and [/logout] answers
    with its message (status 200) whatever the store holds. *)
Theorem close_idempotent_touch_absent_safe u now σ :
  sessions (close_session u σ) !! u = None
  ∧ close_session u (close_session u σ) = close_session u σ
  ∧ (sessions σ !! u = None →
       close_session u σ = σ
       ∧ update_last_active u now σ = σ
       ∧ (logout u σ).1 = σ)
  ∧ (logout u σ).2 = Return ("用户 " +:+ u +:+ " 已登出")
  ∧ status (logout u σ).2 = 200%Z.
Proof.
  split_and!; try done.
  - apply sessions_close_session_eq.
  - apply close_session_idem.
  - intros Hu. split_and!.
    + by apply close_session_absent.
    + by apply update_last_active_absent.
    + by apply close_session_absent.
Qed.

End closing.

(** ** One chat turn *)

Section chatting.
Context (W : World).
Implicit Types (σ : Server) (u v username : string) (now : Z) (r : loc).

Lemma chat_begin_absent user_message now σ :
  sessions σ !! UserMessage.username user_message = None →
  chat_begin user_message now σ
  = (σ, inl (HTTPException 404 "用户会话不存在，请重新登录")).
Proof. intros H. unfold chat_begin, get_session. by rewrite H. Qed.

Lemma chat_absent user_message now ts σ :
  sessions σ !! UserMessage.username user_message = None →
  chat W user_message now ts σ
  = (σ, HTTPException 404 "用户会话不存在，请重新登录").
Proof. intros H. unfold chat. by rewrite chat_begin_absent. Qed.

Lemma chat_begin_present user_message now σ r s a :
  sessions σ !! UserMessage.username user_message = Some r →
  objects σ !! r = Some s →
  UserSession.agent s = Some a →
  chat_begin user_message now σ
  = (update_last_active (UserMessage.username user_message) now σ,
     inr (mkPending r a (UserMessage.message user_message)
            (UserSession.history_context s))).
Proof.
  intros Hu Hr Ha. unfold chat_begin, get_session. rewrite Hu, Hr. simpl.
  rewrite Ha. do 3 f_equal.
  by rewrite (objects_update_last_active _ _ r s).
Qed.

Lemma session_of_update_last_active u now σ r s :
  sessions σ !! u = Some r → objects σ !! r = Some s →
  session_of (update_last_active u now σ) u
  = Some (UserSession.set_last_active now s).
Proof.
  intros Hu Hr. unfold session_of.
  rewrite sessions_update_last_active, Hu. simpl.
  by apply objects_update_last_active.
Qed.

(** C2. A chat turn whose backend call fails.  For a session that holds an
    agent: when [agent.run] raises, the reply is the 500 carrying the
    backend's error, the store binds the same usernames as before, and the
    session differs from what it was in its last-activity only, which is now
    the current time: its history is the one it had.  A later chat call for
    the username reaches the backend again, with the same agent and that
    history.  When [agent.run] returns, last-activity is the current time as
    well and the history is the returned message list. *)
Theorem chat_backend_failure_keeps_history user_message now ts σ r s a :
  let u := UserMessage.username user_message in
  let σ' := (chat W user_message now ts σ).1 in
  sessions σ !! u = Some r →
  objects σ !! r = Some s →
  UserSession.agent s = Some a →
  match agent_run W a (UserMessage.message user_message)
          (UserSession.history_context s) with
  | Raise e =>
      (chat W user_message now ts σ).2
        = HTTPException 500 ("智能体处理错误: " +:+ str e)
      ∧ sessions σ' = sessions σ
      ∧ session_of σ' u = Some (UserSession.set_last_active now s)
      ∧ UserSession.history_context <$> session_of σ' u
        = Some (UserSession.history_context s)
      ∧ UserSession.last_active <$> session_of σ' u = Some now
      ∧ ∀ next now',
          UserMessage.username next = u →
          (chat_begin next now' σ').2
          = inr (mkPending r a (UserMessage.message next)
                   (UserSession.history_context s))
  | Ok result =>
      (chat W user_message now ts σ).2
        = Return (AgentResponse.mk (AgentRunResult.output result) ts)
      ∧ sessions σ' = sessions σ
      ∧ session_of σ' u
        = Some (UserSession.set_history_context
                  (Some (AgentRunResult.all_messages result))
                  (UserSession.set_last_active now s))
      ∧ UserSession.last_active <$> session_of σ' u = Some now
  end.
Proof.
  intros u σ' Hu Hr Ha. subst σ'. unfold chat.
  rewrite (chat_begin_present _ _ _ r s a) by done.
  unfold backend; simpl. fold u.
  pose proof (session_of_update_last_active u now σ r s Hu Hr) as Hs.
  destruct (agent_run W a _ _) as [result|e]; simpl.
  - assert (session_of
              (mkServer
                 (alter (UserSession.set_history_context
                           (Some (AgentRunResult.all_messages result))) r
                    (objects (update_last_active u now σ)))
                 (agent_manager (update_last_active u now σ))) u
            = Some (UserSession.set_history_context
                      (Some (AgentRunResult.all_messages result))
                      (UserSession.set_last_active now s))) as Hs'.
    { unfold session_of, sessions; simpl.
      rewrite manager_update_last_active. fold (sessions σ). rewrite Hu. simpl.
      by rewrite lookup_alter_eq, (objects_update_last_active _ _ r s). }
    split_and!; try done.
    + unfold sessions; simpl. by rewrite manager_update_last_active.
    + by rewrite Hs'.
  - split_and!; try done.
    + apply sessions_update_last_active.
    + by rewrite Hs.
    + by rewrite Hs.
    + intros next now' Hn.
      rewrite (chat_begin_present next now' _ r (UserSession.set_last_active now s) a);
        try done.
      * by rewrite Hn, sessions_update_last_active.
      * by apply objects_update_last_active.
Qed.

End chatting.

(** ** The idle sweep *)

Section reaping.
Context (W : World).
Implicit Types (σ : Server) (u v username : string) (r : loc).

Lemma elem_of_inactive_users current_time timeout σ u :
  u ∈ inactive_users current_time timeout σ
  ↔ ∃ r s, sessions σ !! u = Some r ∧ objects σ !! r = Some s
           ∧ (current_time - UserSession.last_active s > timeout)%Z.
Proof.
  unfold inactive_users. rewrite list_elem_of_fmap. split.
  - intros ([u' r] & -> & Hin). apply list_elem_of_filter in Hin as [Hi Hin].
    apply elem_of_map_to_list in Hin. unfold is_inactive in Hi. simpl in *.
    destruct (objects σ !! r) as [s|] eqn:Hr; [|done].
    apply bool_decide_unpack in Hi. eauto.
  - intros (r & s & Hu & Hr & Hlt). exists (u, r). split; [done|].
    apply list_elem_of_filter. split; [|by apply elem_of_map_to_list].
    unfold is_inactive. simpl. rewrite Hr. by apply bool_decide_pack.
Qed.

Lemma sessions_close_sessions (us : list string) σ v :
  sessions (foldl (λ σ username, close_session username σ) σ us) !! v
  = if decide (v ∈ us) then None else sessions σ !! v.
Proof.
  revert σ. induction us as [|u us IH]; intros σ.
  - by rewrite decide_False by apply not_elem_of_nil.
  - change (foldl ?f σ (u :: us)) with (foldl f (close_session u σ) us).
    rewrite IH, sessions_close_session.
    destruct (decide (u = v)) as [->|Hne].
    + rewrite (decide_True (P := v ∈ v :: us)) by apply list_elem_of_here.
      by case_decide.
    + case_decide as Hin.
      * by rewrite decide_True by by apply list_elem_of_further.
      * rewrite decide_False; [done|].
        intros [?|?]%elem_of_cons; by subst.
Qed.

Lemma objects_close_sessions (us : list string) σ r :
  (∀ u, u ∈ us → sessions σ !! u ≠ Some r) →
  objects (foldl (λ σ username, close_session username σ) σ us) !! r
  = objects σ !! r.
Proof.
  revert σ. induction us as [|u us IH]; intros σ Hus; [done|]. simpl.
  rewrite IH.
  - apply objects_close_session, Hus, list_elem_of_here.
  - intros v Hv. rewrite sessions_close_session. case_decide; [done|].
    by apply Hus, list_elem_of_further.
Qed.

Lemma objects_close_sessions_closed (us : list string) σ u r s :
  wf σ → u ∈ us →
  sessions σ !! u = Some r → objects σ !! r = Some s →
  objects (foldl (λ σ username, close_session username σ) σ us) !! r
  = Some (UserSession.set_is_active false s).
Proof.
  revert σ. induction us as [|v us IH]; intros σ Hwf Hin Hu Hr.
  - by apply elem_of_nil in Hin.
  - change (foldl ?f σ (v :: us)) with (foldl f (close_session v σ) us).
    destruct (decide (v = u)) as [->|Hne].
    + rewrite objects_close_sessions; [by apply objects_close_session_closed|].
      intros w _. rewrite sessions_close_session. case_decide as Hw; [done|].
      intros Hw'. apply Hw. by apply (wf_unshared σ Hwf u w r).
    + apply elem_of_cons in Hin as [->|Hin]; [done|].
      apply IH; [by apply wf_close_session|done|by rewrite sessions_close_session_ne|].
      rewrite objects_close_session; [done|].
      intros Hv. apply Hne. by apply (wf_unshared σ Hwf v u r).
Qed.

Lemma manager_fields_close_sessions (us : list string) σ :
  let m := agent_manager σ in
  let m' := agent_manager (foldl (λ σ username, close_session username σ) σ us) in
  AgentManager.filesystem_mcp_name m' = AgentManager.filesystem_mcp_name m
  ∧ AgentManager.workspace_root m' = AgentManager.workspace_root m
  ∧ AgentManager.mcp_configs m' = AgentManager.mcp_configs m.
Proof.
  revert σ. induction us as [|u us IH]; intros σ; [done|]. simpl.
  destruct (IH (close_session u σ)) as (-> & -> & ->).
  apply manager_fields_close_session.
Qed.

(** C4. The idle sweep.  In a store whose sessions are distinct objects, a
    sweep with threshold [timeout] at time [current_time] binds no username
    that was not bound, closes each session whose
    [current_time - last_active] is greater than [timeout] (its object is
    marked inactive and its username unbound), after which a chat call for
    its username is answered 404 (no session), and leaves each
    session whose age is at most [timeout] bound to the same, unchanged
    object. *)
Theorem cleanup_closes_exactly_the_idle timeout current_time σ :
  wf σ →
  (∀ u, sessions σ !! u = None →
        sessions (cleanup_inactive_sessions timeout current_time σ) !! u = None)
  ∧ ∀ u r s,
      sessions σ !! u = Some r → objects σ !! r = Some s →
      if decide (current_time - UserSession.last_active s > timeout)%Z
      then
        sessions (cleanup_inactive_sessions timeout current_time σ) !! u = None
        ∧ objects (cleanup_inactive_sessions timeout current_time σ) !! r
          = Some (UserSession.set_is_active false s)
        ∧ ∀ message now ts,
            chat W (UserMessage.mk u message) now ts
              (cleanup_inactive_sessions timeout current_time σ)
            = (cleanup_inactive_sessions timeout current_time σ,
               HTTPException 404 "用户会话不存在，请重新登录")
      else
        sessions (cleanup_inactive_sessions timeout current_time σ) !! u = Some r
        ∧ objects (cleanup_inactive_sessions timeout current_time σ) !! r = Some s.
Proof.
  intros Hwf. unfold cleanup_inactive_sessions. split.
  - intros u Hu. rewrite sessions_close_sessions. by case_decide.
  - intros u r s Hu Hr. case_decide as Hage.
    + assert (sessions
                (foldl (λ σ username, close_session username σ) σ
                   (inactive_users current_time timeout σ)) !! u = None) as Hgone.
      { rewrite sessions_close_sessions, decide_True; [done|].
        apply elem_of_inactive_users. eauto. }
      split; [done|]. split; [|intros; by apply chat_absent].
      apply (objects_close_sessions_closed _ _ u); try done.
      apply elem_of_inactive_users. eauto.
    + split.
      * rewrite sessions_close_sessions, decide_False; [done|].
        intros (r' & s' & Hu' & Hr' & Hlt)%elem_of_inactive_users.
        by simplify_eq.
      * rewrite objects_close_sessions; [done|].
        intros v (r' & s' & Hv & Hr' & Hlt)%elem_of_inactive_users Hv'.
        assert (v = u) as -> by (eapply (wf_unshared σ Hwf); eauto).
        by simplify_eq.
Qed.

End reaping.

(** ** Tool provisioning *)

Section provisioning.
Context (W : World).
Implicit Types (self : AgentManager.t) (u : string) (i : MCPServer).

Lemma load_configs_ok configs specs acc :
  Forall2 (λ config servers, load_mcp_servers W config = Ok servers) configs specs →
  load_configs W configs acc = Ok (acc ++ concat specs)%list.
Proof.
  intros H. revert acc. induction H as [|config servers configs specs Hl _ IH];
    intros acc; simpl.
  - by rewrite app_nil_r.
  - rewrite Hl. simpl. by rewrite IH, app_assoc.
Qed.

Lemma load_configs_inv configs acc l :
  load_configs W configs acc = Ok l →
  ∃ specs,
    Forall2 (λ config servers, load_mcp_servers W config = Ok servers) configs specs
    ∧ l = (acc ++ concat specs)%list.
Proof.
  revert acc. induction configs as [|config configs IH]; intros acc; simpl.
  - intros [= <-]. exists []. by rewrite app_nil_r.
  - destruct (load_mcp_servers W config) as [servers|] eqn:Hl; [|done]. simpl.
    intros (specs & HF & ->)%IH. exists (servers :: specs).
    split; [by constructor|]. simpl. by rewrite app_assoc.
Qed.

Lemma is_filesystem_server_spec self i :
  is_filesystem_server self i = true
  ↔ server_args i !! 1%nat = Some (AgentManager.filesystem_mcp_name self).
Proof.
  destruct i as [command args t|url t]; simpl; [|done].
  rewrite andb_true_iff, !bool_decide_eq_true. split; [by intros [_ ?]|].
  intros H. split; [|done]. by apply lookup_lt_Some in H.
Qed.

Lemma stamp_server_ok self u timeout root i :
  AgentManager.workspace_root self = Some root →
  (server_args i !! 1%nat = Some (AgentManager.filesystem_mcp_name self) →
   (2 < length (server_args i))%nat ∧ os_makedirs W (user_workspace root u) = Ok ()) →
  stamp_server W self u timeout i
  = Ok (provisioned (AgentManager.filesystem_mcp_name self) root u timeout i).
Proof.
  intros Hroot Hfs. unfold stamp_server.
  destruct (is_filesystem_server self i) eqn:Hi.
  - apply is_filesystem_server_spec in Hi. destruct (Hfs Hi) as [Hlen Hmk].
    rewrite Hroot. fold (user_workspace root u). rewrite Hmk. simpl.
    unfold setitem. rewrite bool_decide_true by done. simpl.
    destruct i as [command args t|url t]; simpl in *; [|done].
    by rewrite bool_decide_true.
  - simpl. destruct i as [command args t|url t]; simpl in *; [|done].
    rewrite bool_decide_false; [done|].
    intros H. apply (is_filesystem_server_spec self (MCPServerStdio command args t)) in H.
    simpl in H. congruence.
Qed.

Lemma stamp_server_inv self u timeout root i i' :
  AgentManager.workspace_root self = Some root →
  stamp_server W self u timeout i = Ok i' →
  i' = provisioned (AgentManager.filesystem_mcp_name self) root u timeout i.
Proof.
  intros Hroot. unfold stamp_server.
  destruct (is_filesystem_server self i) eqn:Hi.
  - apply is_filesystem_server_spec in Hi.
    rewrite Hroot. fold (user_workspace root u).
    destruct (os_makedirs W (user_workspace root u)); [|done]. simpl.
    unfold setitem. case_bool_decide; [|done]. simpl. intros [= <-].
    destruct i as [command args t|url t]; simpl in *; [|done].
    by rewrite bool_decide_true.
  - simpl. intros [= <-].
    destruct i as [command args t|url t]; simpl in *; [|done].
    rewrite bool_decide_false; [done|].
    intros H. apply (is_filesystem_server_spec self (MCPServerStdio command args t)) in H.
    simpl in H. congruence.
Qed.

Lemma stamp_servers_ok self u timeout (f : MCPServer → MCPServer) l acc :
  (∀ i, i ∈ l → stamp_server W self u timeout i = Ok (f i)) →
  stamp_servers W self u timeout l acc = Ok (acc ++ (f <$> l))%list.
Proof.
  revert acc. induction l as [|i l IH]; intros acc Hl; simpl.
  - by rewrite app_nil_r.
  - rewrite Hl by apply list_elem_of_here. simpl.
    rewrite IH, <-app_assoc; [done|].
    intros j Hj. by apply Hl, list_elem_of_further.
Qed.

Lemma stamp_servers_inv self u timeout root l acc l' :
  AgentManager.workspace_root self = Some root →
  stamp_servers W self u timeout l acc = Ok l' →
  l' = (acc ++ (provisioned (AgentManager.filesystem_mcp_name self) root u timeout <$> l))%list.
Proof.
  intros Hroot. revert acc. induction l as [|i l IH]; intros acc; simpl.
  - intros [= <-]. by rewrite app_nil_r.
  - destruct (stamp_server W self u timeout i) as [i'|] eqn:Hi; [|done]. simpl.
    intros ->%IH. apply (stamp_server_inv _ _ _ root) in Hi as ->; [|done].
    by rewrite <-app_assoc.
Qed.

(** When provisioning returns, it returns what the specification says. *)
Lemma load_mcp_server_inv self u configs timeout root l :
  AgentManager.workspace_root self = Some root →
  load_mcp_server W self u configs timeout = Ok l →
  ∃ specs,
    Forall2 (λ config servers, load_mcp_servers W config = Ok servers) configs specs
    ∧ l = provisioned (AgentManager.filesystem_mcp_name self) root u timeout
          <$> concat specs.
Proof.
  intros Hroot. unfold load_mcp_server.
  destruct (load_configs W configs []) as [final_server|] eqn:Hl; [|done]. simpl.
  apply load_configs_inv in Hl as (specs & HF & ->). simpl.
  intros ->%(stamp_servers_inv _ _ _ root); [|done]. by exists specs.
Qed.

(** Provisioning, when every entry of the filesystem tool has its directory
    argument. *)
Lemma load_mcp_server_ok self u configs timeout root specs :
  AgentManager.workspace_root self = Some root →
  Forall2 (λ config servers, load_mcp_servers W config = Ok servers) configs specs →
  (∀ i, i ∈ concat specs →
        server_args i !! 1%nat = Some (AgentManager.filesystem_mcp_name self) →
        (2 < length (server_args i))%nat
        ∧ os_makedirs W (user_workspace root u) = Ok ()) →
  load_mcp_server W self u configs timeout
  = Ok (provisioned (AgentManager.filesystem_mcp_name self) root u timeout
        <$> concat specs).
Proof.
  intros Hroot Hload Hfs. unfold load_mcp_server.
  rewrite (load_configs_ok _ specs) by done. simpl.
  apply (stamp_servers_ok _ _ _ (provisioned _ root u timeout) _ []).
  intros i Hi. apply stamp_server_ok; [done|]. by apply Hfs.
Qed.

(** The body of the second loop: the guard admits a spec of two arguments,
    and the assignment to the third then raises. *)
Lemma stamp_server_cases self u timeout root i :
  AgentManager.workspace_root self = Some root →
  (server_args i !! 1%nat = Some (AgentManager.filesystem_mcp_name self) →
   os_makedirs W (user_workspace root u) = Ok ()) →
  stamp_server W self u timeout i
  = if has_directory_argument self i
    then Ok (provisioned (AgentManager.filesystem_mcp_name self) root u timeout i)
    else Raise (IndexError "list assignment index out of range").
Proof.
  intros Hroot Hmk. unfold has_directory_argument.
  destruct (is_filesystem_server self i) eqn:Hi; simpl.
  - pose proof Hi as Hfs. apply is_filesystem_server_spec in Hfs.
    case_bool_decide as Hlen.
    + apply stamp_server_ok; [done|]. intros _. by split; [|apply Hmk].
    + unfold stamp_server. rewrite Hi, Hroot.
      fold (user_workspace root u). rewrite (Hmk Hfs). simpl.
      unfold setitem. by rewrite bool_decide_false.
  - apply stamp_server_ok; [done|].
    intros Hfs%is_filesystem_server_spec. congruence.
Qed.

Lemma stamp_servers_cases self u timeout root l acc :
  AgentManager.workspace_root self = Some root →
  (∀ i, i ∈ l →
        server_args i !! 1%nat = Some (AgentManager.filesystem_mcp_name self) →
        os_makedirs W (user_workspace root u) = Ok ()) →
  stamp_servers W self u timeout l acc
  = if forallb (has_directory_argument self) l
    then Ok (acc ++ (provisioned (AgentManager.filesystem_mcp_name self) root u timeout
                     <$> l))%list
    else Raise (IndexError "list assignment index out of range").
Proof.
  intros Hroot. revert acc. induction l as [|i l IH]; intros acc Hmk; simpl.
  - by rewrite app_nil_r.
  - rewrite (stamp_server_cases self u timeout root i Hroot)
      by (apply Hmk, list_elem_of_here).
    destruct (has_directory_argument self i); simpl; [|done].
    rewrite IH by (intros j Hj; by apply Hmk, list_elem_of_further).
    destruct (forallb _ l); [|done]. by rewrite <-app_assoc.
Qed.

(** C5.  Tool provisioning, and where it misses.  Let each configuration
    source load, and let the user's workspace directory be created where a
    spec names the filesystem tool as its second argument.  When each
    such spec has a third argument, [load_mcp_server] returns what the
    specification says: the specs of the sources concatenated in source order, duplicates
    kept, each one carrying the given timeout, the filesystem tool's third
    argument replaced by [{workspace_root}/workspace_{username}], and
    everything else as it was loaded.  When one of them has two arguments
    only, the guard [len(i.args) > 1] lets it through, the assignment to
    [i.args[2]] raises [IndexError], and nothing is returned. *)
Theorem load_mcp_server_directory_argument self u configs timeout root specs :
  AgentManager.workspace_root self = Some root →
  Forall2 (λ config servers, load_mcp_servers W config = Ok servers) configs specs →
  (∀ i, i ∈ concat specs →
        server_args i !! 1%nat = Some (AgentManager.filesystem_mcp_name self) →
        os_makedirs W (user_workspace root u) = Ok ()) →
  load_mcp_server W self u configs timeout
  = if forallb (has_directory_argument self) (concat specs)
    then Ok (provisioned (AgentManager.filesystem_mcp_name self) root u timeout
             <$> concat specs)
    else Raise (IndexError "list assignment index out of range").
Proof.
  intros Hroot Hload Hmk. unfold load_mcp_server.
  rewrite (load_configs_ok _ specs) by done. simpl.
  by rewrite (stamp_servers_cases self u timeout root (concat specs) []).
Qed.

End provisioning.

(** ** [/login] *)

Section logging_in.
Context (W : World).
Implicit Types (σ : Server) (u v username : string) (now : Z) (r : loc).

Lemma create_session_after_close u agent_config now σ :
  create_session W u agent_config now (close_session u σ)
  = create_session W u agent_config now σ.
Proof.
  unfold create_session. by rewrite !create_session_prelude, close_session_idem.
Qed.

(** The two closes of [login] and [create_session] amount to one. *)
Lemma create_session_existing_active u agent_config now σ :
  create_session W u agent_config now
    (if existing_active u σ then close_session u σ else σ)
  = create_session W u agent_config now σ.
Proof. destruct (existing_active u σ); [apply create_session_after_close|done]. Qed.

(** Past validation and authentication, [login] is [create_session] and the
    mapping of its exceptions to statuses. *)
Lemma login_accepted user now ts σ :
  accepted W user →
  login W user now ts σ
  = login_reply (UserLogin.username user) ts
      (create_session W (UserLogin.username user) (login_agent_config W user) now σ).
Proof.
  intros (Hu & Hv & Hdb & Hauth). unfold login, connect_db.
  rewrite Hu, Hv, Hdb, Hauth. simpl.
  rewrite create_session_existing_active.
  by destruct (create_session W _ _ now σ) as [σ' [session|e]].
Qed.

Lemma login_Return user now ts σ σ' reply :
  login W user now ts σ = (σ', Return reply) →
  accepted W user
  ∧ reply = LoginReply.mk ("用户 " +:+ UserLogin.username user +:+ " 登录成功") true ts
  ∧ ∃ session,
      create_session W (UserLogin.username user) (login_agent_config W user) now σ
      = (σ', Ok session).
Proof.
  intros Hl.
  assert (accepted W user) as Hadm.
  { revert Hl. unfold login, accepted, connect_db.
    destruct (truthy (UserLogin.username user)); [|done]. simpl.
    case_bool_decide as Hv; [|done]. simpl.
    destruct (db_connect W) as [[]|]; [|done]. simpl.
    destruct (validate_login W _ _) as [[[] []]|]; done. }
  split; [done|]. rewrite login_accepted in Hl by done.
  destruct (create_session W _ _ now σ) as [σ'' [session|e]]; simpl in Hl.
  - simplify_eq. eauto.
  - by destruct (is_ValueError e).
Qed.

(** A login that passed validation carries a key and a model name. *)
Lemma accepted_truthy user :
  accepted W user →
  truthy (AgentConfig.api_key (login_agent_config W user)) = true
  ∧ truthy (AgentConfig.model_name (login_agent_config W user)) = true.
Proof.
  intros (_ & Hv & _). unfold validation_errors in Hv. simpl.
  destruct (truthy (UserLogin.model_name user)),
    (truthy (UserLogin.api_key user)); done.
Qed.

(** The state and the session a successful login produces. *)
Lemma login_Return_session user now ts σ σ' reply :
  login W user now ts σ = (σ', Return reply) →
  let u := UserLogin.username user in
  let agent_config := login_agent_config W user in
  ∃ mcp_server agent,
    session_tools W u agent_config σ = Ok mcp_server
    ∧ Agent.toolsets agent = mcp_server
    ∧ sessions σ' !! u = Some (fresh (dom (objects σ)))
    ∧ (∀ v, v ≠ u → sessions σ' !! v = sessions σ !! v)
    ∧ objects σ'
      = <[fresh (dom (objects σ))
          := UserSession.mk u agent_config (Some agent) now true (Some [])]>
          (objects (close_session u σ)).
Proof.
  intros (Hadm & _ & session & Hc)%login_Return u agent_config.
  pose proof (create_session_creation W u agent_config now σ) as Hcr.
  fold u agent_config in Hc. rewrite Hc in Hcr.
  inversion Hcr as [| | | |mcp_server agent ? ? Ht Ha]; subst.
  exists mcp_server, agent. split_and!; try done.
  - unfold _create_agent_for_user in Ha.
    destruct (agent_init W agent_config mcp_server); simpl in Ha; [|done].
    unfold mret, result_ret in Ha. by simplify_eq.
  - unfold sessions; simpl. apply lookup_insert_eq.
  - intros v Hv. unfold sessions; simpl. rewrite lookup_insert_ne by done.
    by apply sessions_close_session_ne.
Qed.

End logging_in.

Section login_outcomes.
Context (W : World).
Implicit Types (σ : Server) (u v username : string) (now : Z) (r : loc).

Lemma login_reply_state u ts outcome : (login_reply u ts outcome).1 = outcome.1.
Proof. destruct outcome as [σ [session|e]]; simpl; [done|by destruct (is_ValueError e)]. Qed.

Lemma login_reply_response u ts outcome :
  (login_reply u ts outcome).2
  = match outcome.2 with
    | Ok _ => Return (LoginReply.mk ("用户 " +:+ u +:+ " 登录成功") true ts)
    | Raise e =>
        if is_ValueError e then HTTPException 400 (str e)
        else HTTPException 500 ("创建会话失败: " +:+ str e)
    end.
Proof. destruct outcome as [σ [session|e]]; simpl; [done|by destruct (is_ValueError e)]. Qed.

(** C3, as the code has it.  For a login that passed field validation and
    authentication: when the agent build fails, [create_session] raises it
    again as a [ValueError] and [/login] answers 400 with the detail
    [创建智能体失败: ...], no session being registered; a provisioning
    failure is answered 400 when it is a [ValueError] and 500 otherwise; and
    without a failure the answer is the 200 reply. *)
Theorem login_build_failure_is_400 user now ts σ :
  accepted W user →
  match session_tools W (UserLogin.username user) (login_agent_config W user) σ with
  | Raise e =>
      (login W user now ts σ).2
      = if is_ValueError e then HTTPException 400 (str e)
        else HTTPException 500 ("创建会话失败: " +:+ str e)
  | Ok mcp_server =>
      match agent_init W (login_agent_config W user) mcp_server with
      | Raise e =>
          (login W user now ts σ).2
            = HTTPException 400 ("创建智能体失败: " +:+ str e)
          ∧ status (login W user now ts σ).2 = 400%Z
          ∧ sessions (login W user now ts σ).1 !! UserLogin.username user = None
      | Ok _ => status (login W user now ts σ).2 = 200%Z
      end
  end.
Proof.
  intros Hadm. rewrite login_accepted by done.
  destruct (accepted_truthy W user Hadm) as [Hk Hm].
  rewrite login_reply_response, login_reply_state.
  rewrite (create_session_outcome W _ _ now σ Hk Hm).
  pose proof (create_session_registration W (UserLogin.username user)
                (login_agent_config W user) now σ) as Hc.
  pose proof (create_session_outcome W (UserLogin.username user)
                (login_agent_config W user) now σ Hk Hm) as Ho.
  destruct (session_tools W _ _ σ) as [mcp_server|e]; [|done].
  destruct (agent_init W _ mcp_server) as [[]|e]; [done|].
  split_and!; try done.
  destruct (create_session W _ _ now σ) as [σ' [session|e']]; simpl in *;
    [done|apply Hc].
Qed.


End login_outcomes.

(** ** A turn, in closed form *)

Section turn.
Context (W : World).
Implicit Types (σ : Server) (u v username : string) (now : Z) (r : loc).

Lemma alter_lookup_insert (f : UserSession.t → UserSession.t) r s
    (m : gmap loc UserSession.t) :
  m !! r = Some s → alter f r m = <[r := f s]> m.
Proof.
  intros Hr. apply map_eq. intros r'. destruct (decide (r = r')) as [<-|Hne].
  - by rewrite lookup_alter_eq, lookup_insert_eq, Hr.
  - by rewrite lookup_alter_ne, lookup_insert_ne.
Qed.

Lemma update_last_active_present u now σ r s :
  sessions σ !! u = Some r → objects σ !! r = Some s →
  update_last_active u now σ
  = mkServer (<[r := UserSession.set_last_active now s]> (objects σ)) (agent_manager σ).
Proof.
  intros Hu Hr. unfold update_last_active. rewrite Hu.
  by rewrite (alter_lookup_insert _ r s).
Qed.

(** [chat] on a session that holds an agent. *)
Lemma chat_present user_message now ts σ r s a :
  sessions σ !! UserMessage.username user_message = Some r →
  objects σ !! r = Some s →
  UserSession.agent s = Some a →
  chat W user_message now ts σ
  = match agent_run W a (UserMessage.message user_message)
            (UserSession.history_context s) with
    | Ok result =>
        (mkServer
           (<[r := UserSession.set_history_context
                     (Some (AgentRunResult.all_messages result))
                     (UserSession.set_last_active now s)]> (objects σ))
           (agent_manager σ),
         Return (AgentResponse.mk (AgentRunResult.output result) ts))
    | Raise e =>
        (mkServer (<[r := UserSession.set_last_active now s]> (objects σ))
           (agent_manager σ),
         HTTPException 500 ("智能体处理错误: " +:+ str e))
    end.
Proof.
  intros Hu Hr Ha. unfold chat.
  rewrite (chat_begin_present _ _ _ r s a) by done.
  rewrite (update_last_active_present _ _ _ r s) by done.
  unfold backend, chat_end; simpl.
  destruct (agent_run W a _ _) as [result|e]; [|done].
  rewrite (alter_lookup_insert _ r (UserSession.set_last_active now s))
    by apply lookup_insert_eq.
  by rewrite insert_insert_eq.
Qed.

End turn.

(** ** Logging in twice *)

Section relogin.
Context (W : World).
Implicit Types (σ : Server) (u v username : string) (now : Z) (r : loc).

(** *** What the later requests keep *)

Lemma replaced_ext u r1 r2 a2 σ σ' :
  sessions σ' = sessions σ → objects σ' = objects σ →
  replaced u r1 r2 a2 σ → replaced u r1 r2 a2 σ'.
Proof. intros Hs Ho [? ? ? ?]. split; rewrite ?Hs, ?Ho; done. Qed.

(** Writing a field other than the agent, without raising the flag. *)
Lemma replaced_alter (f : UserSession.t → UserSession.t) r u r1 r2 a2 σ :
  (∀ s, UserSession.is_active s = false → UserSession.is_active (f s) = false) →
  (∀ s, UserSession.agent (f s) = UserSession.agent s) →
  replaced u r1 r2 a2 σ →
  replaced u r1 r2 a2 (mkServer (alter f r (objects σ)) (agent_manager σ)).
Proof.
  intros Hact Hag [Hb Hun (s1 & Hs1 & Hc) (s2 & Hs2 & Ha)].
  split; [exact Hb|exact Hun| |]; simpl.
  - destruct (decide (r = r1)) as [->|Hne].
    + exists (f s1). rewrite lookup_alter_eq, Hs1. auto.
    + exists s1. by rewrite lookup_alter_ne.
  - destruct (decide (r = r2)) as [->|Hne].
    + exists (f s2). rewrite lookup_alter_eq, Hs2, Hag. auto.
    + exists s2. by rewrite lookup_alter_ne.
Qed.

Lemma replaced_close_session v u r1 r2 a2 σ :
  v ≠ u → replaced u r1 r2 a2 σ → replaced u r1 r2 a2 (close_session v σ).
Proof.
  intros Hne Hrep. unfold close_session.
  destruct (sessions σ !! v) as [r|] eqn:Hv; [|done].
  destruct (replaced_alter (UserSession.set_is_active false) r u r1 r2 a2 σ)
    as [Hb Hun Hc Ha]; [done..|].
  split; [| |exact Hc|exact Ha].
  - unfold sessions; simpl. rewrite lookup_delete_ne by done. exact Hb.
  - intros w. unfold sessions; simpl. rewrite lookup_delete.
    case_decide; [done|apply Hun].
Qed.

Lemma replaced_close_sessions (us : list string) u r1 r2 a2 σ :
  u ∉ us → replaced u r1 r2 a2 σ →
  replaced u r1 r2 a2 (foldl (λ σ username, close_session username σ) σ us).
Proof.
  revert σ. induction us as [|v us IH]; intros σ Hin Hrep; [done|].
  apply not_elem_of_cons in Hin as [Hne Hin]. simpl.
  apply IH; [done|]. by apply replaced_close_session.
Qed.

Lemma replaced_update_last_active v now u r1 r2 a2 σ :
  replaced u r1 r2 a2 σ → replaced u r1 r2 a2 (update_last_active v now σ).
Proof.
  intros Hrep. unfold update_last_active.
  destruct (sessions σ !! v); [|done]. by apply replaced_alter.
Qed.

Lemma replaced_create_session v agent_config now u r1 r2 a2 σ :
  v ≠ u → replaced u r1 r2 a2 σ →
  replaced u r1 r2 a2 (create_session W v agent_config now σ).1.
Proof.
  intros Hne Hrep. apply (replaced_close_session v) in Hrep; [|done].
  destruct (create_session_creation W v agent_config now σ) as
    [?|? ?|e ? ? Ht|l e ? ? Ht Ha|l a ? ? Ht Ha]; simpl; try done;
    try (by eapply replaced_ext; [| |exact Hrep]).
  destruct Hrep as [Hb Hun (s1 & Hs1 & Hc) (s2 & Hs2 & Hag)].
  assert (∀ r s, objects (close_session v σ) !! r = Some s → r ≠ session)
    as Hfresh.
  { intros r s Hr ->. apply (is_fresh (dom (objects σ))). fold session.
    rewrite <-(dom_objects_close_session v). apply elem_of_dom. eauto. }
  split.
  - unfold sessions; simpl. rewrite lookup_insert_ne by done. exact Hb.
  - intros w. unfold sessions; simpl. rewrite lookup_insert.
    case_decide; [|apply Hun]. intros [= Heq]. by apply (Hfresh r1 s1).
  - exists s1. simpl. rewrite lookup_insert_ne; [done|].
    intros Heq. by apply (Hfresh r1 s1).
  - exists s2. simpl. rewrite lookup_insert_ne; [done|].
    intros Heq. by apply (Hfresh r2 s2).
Qed.

Lemma replaced_login user now ts u r1 r2 a2 σ :
  UserLogin.username user ≠ u → replaced u r1 r2 a2 σ →
  replaced u r1 r2 a2 (login W user now ts σ).1.
Proof.
  intros Hne Hrep. unfold login.
  repeat (case_match; simpl; try done).
  all: match goal with
       | H : create_session W ?v ?c ?n ?σ0 = _ |- _ =>
           assert (Hc : replaced u r1 r2 a2 (create_session W v c n σ0).1)
             by (apply replaced_create_session;
                 try apply replaced_close_session; done);
           by rewrite H in Hc
       end.
Qed.

Lemma replaced_chat_begin user_message now u r1 r2 a2 σ :
  replaced u r1 r2 a2 σ → replaced u r1 r2 a2 (chat_begin user_message now σ).1.
Proof.
  intros Hrep. unfold chat_begin, get_session.
  repeat (case_match; simpl; try done). by apply replaced_update_last_active.
Qed.

Lemma replaced_chat_end call outcome ts u r1 r2 a2 σ :
  replaced u r1 r2 a2 σ → replaced u r1 r2 a2 (chat_end call outcome ts σ).1.
Proof.
  intros Hrep. unfold chat_end. destruct outcome; [|done].
  by apply replaced_alter.
Qed.

(** The replacement lasts for as long as the username is left alone. *)
Lemma follows_replaced u r1 r2 a2 σ σ' :
  follows W u σ σ' → replaced u r1 r2 a2 σ → replaced u r1 r2 a2 σ'.
Proof.
  intros Hf Hrep. induction Hf.
  - done.
  - by apply replaced_login.
  - by apply replaced_close_session.
  - by apply replaced_chat_begin.
  - by apply replaced_chat_end.
  - by apply replaced_close_sessions.
Qed.

(** C1, as the code has it.  Let a username have an active session, in a
    store whose sessions are distinct live objects.  A successful login for
    the username replaces the session: the first session object is marked
    inactive, and the username is bound to a new object with the
    configuration of this login, an empty history and the time of this
    login.  A chat request names a username and nothing else.  So from then
    on, through the logins and logouts of the other usernames, the chat calls
    of any username and the sweeps that do not find the username idle, no
    username is bound to the first object, which stays inactive, and every
    chat call for the username is dispatched to the replacement session, with
    its agent and the history it holds then: the call is answered with the
    backend's output, or with 500 when the backend fails, and never
    with 404, also when it completes after other requests have run. *)
Theorem second_login_takes_over user n2 t2 σ1 σ2 reply r1 s1 :
  let u := UserLogin.username user in
  wf σ1 →
  sessions σ1 !! u = Some r1 →
  objects σ1 !! r1 = Some s1 →
  login W user n2 t2 σ1 = (σ2, Return reply) →
  UserSession.is_active s1 = true
  ∧ ∃ r2 a2,
      r1 ≠ r2
      ∧ sessions σ2 !! u = Some r2
      ∧ objects σ2 !! r1 = Some (UserSession.set_is_active false s1)
      ∧ objects σ2 !! r2
        = Some (UserSession.mk u (login_agent_config W user) (Some a2) n2 true
                  (Some []))
      ∧ ∀ σ3,
          follows W u σ2 σ3 →
          sessions σ3 !! u = Some r2
          ∧ (∀ v, sessions σ3 !! v ≠ Some r1)
          ∧ (∃ s1', objects σ3 !! r1 = Some s1'
                    ∧ UserSession.is_active s1' = false)
          ∧ ∃ s2,
              objects σ3 !! r2 = Some s2
              ∧ UserSession.agent s2 = Some a2
              ∧ ∀ user_message n3 t3,
                  UserMessage.username user_message = u →
                  let call := mkPending r2 a2 (UserMessage.message user_message)
                                (UserSession.history_context s2) in
                  (chat_begin user_message n3 σ3).2 = inr call
                  ∧ (∀ σ4, status (chat_end call (backend W call) t3 σ4).2 ≠ 404%Z)
                  ∧ (chat W user_message n3 t3 σ3).2
                    = match agent_run W a2 (UserMessage.message user_message)
                              (UserSession.history_context s2) with
                      | Ok result =>
                          Return (AgentResponse.mk (AgentRunResult.output result) t3)
                      | Raise e => HTTPException 500 ("智能体处理错误: " +:+ str e)
                      end
                  ∧ status (chat W user_message n3 t3 σ3).2 ≠ 404%Z.
Proof.
  intros u Hwf Hu1 Hr1 Hl.
  apply login_Return_session in Hl as (l2 & a2 & _ & _ & Hs2 & Hother & Ho2).
  fold u in Hs2, Hother, Ho2.
  set (r2 := fresh (dom (objects σ1))) in *.
  destruct (wf_object _ Hwf u r1 Hu1) as (s1' & Hs1' & _ & Hact & _).
  assert (s1' = s1) as -> by congruence.
  split; [exact Hact|].
  assert (r1 ≠ r2) as Hne.
  { intros Heq. apply (is_fresh (dom (objects σ1))). fold r2. rewrite <-Heq.
    apply elem_of_dom. eauto. }
  assert (objects σ2 !! r1 = Some (UserSession.set_is_active false s1)) as Hc.
  { rewrite Ho2, lookup_insert_ne by done. by apply objects_close_session_closed. }
  assert (objects σ2 !! r2
          = Some (UserSession.mk u (login_agent_config W user) (Some a2) n2 true
                    (Some []))) as Hr2
    by (rewrite Ho2; apply lookup_insert_eq).
  exists r2, a2. split_and!; try done.
  intros σ3 Hf.
  assert (replaced u r1 r2 a2 σ2) as Hrep.
  { split; [done| |eauto|eauto].
    intros v Hv. destruct (decide (v = u)) as [->|Hvu]; [congruence|].
    rewrite Hother in Hv by done. apply Hvu.
    by apply (wf_unshared _ Hwf v u r1). }
  apply (follows_replaced u r1 r2 a2 σ2 σ3 Hf) in Hrep
    as [Hb Hun Hcl (s2 & Hs2' & Hag)].
  split_and!; try done.
  exists s2. split_and!; try done.
  intros user_message n3 t3 Hm call. split_and!.
  - rewrite (chat_begin_present user_message n3 σ3 r2 s2 a2); [done| |done..].
    by rewrite Hm.
  - intros σ4. unfold chat_end. by destruct (backend W call).
  - rewrite (chat_present W user_message n3 t3 σ3 r2 s2 a2); [|by rewrite Hm|done..].
    by destruct (agent_run W a2 _ _).
  - rewrite (chat_present W user_message n3 t3 σ3 r2 s2 a2); [|by rewrite Hm|done..].
    by destruct (agent_run W a2 _ _).
Qed.

End relogin.

(** ** What an operation for one username changes *)

Section frame.
Context (W : World).
Implicit Types (σ : Server) (u v username : string) (now : Z) (r : loc).

Lemma untouched_intro v σ σ' :
  sessions σ' !! v = sessions σ !! v →
  (∀ r, sessions σ !! v = Some r → objects σ' !! r = objects σ !! r) →
  untouched v σ σ'.
Proof.
  intros Hs Ho. split; [done|]. unfold session_of. rewrite Hs.
  destruct (sessions σ !! v) as [r|] eqn:Hv; [|done]. simpl. by apply Ho.
Qed.

Lemma untouched_trans v σ1 σ2 σ3 :
  untouched v σ1 σ2 → untouched v σ2 σ3 → untouched v σ1 σ3.
Proof. intros [? ?] [? ?]. split; congruence. Qed.

Lemma untouched_close_session u v σ :
  u ≠ v → wf σ → untouched v σ (close_session u σ).
Proof.
  intros Hne Hwf. apply untouched_intro.
  - by apply sessions_close_session_ne.
  - intros r Hv. apply objects_close_session. intros Hu.
    apply Hne. by apply (wf_unshared σ Hwf u v r).
Qed.

Lemma untouched_update_last_active u v now σ :
  u ≠ v → wf σ → untouched v σ (update_last_active u now σ).
Proof.
  intros Hne Hwf. apply untouched_intro.
  - by rewrite sessions_update_last_active.
  - intros r Hv. apply objects_update_last_active_ne. intros Hu.
    apply Hne. by apply (wf_unshared σ Hwf u v r).
Qed.

Lemma untouched_chat u v user_message now ts σ :
  UserMessage.username user_message = u →
  u ≠ v → wf σ → untouched v σ (chat W user_message now ts σ).1.
Proof.
  intros <- Hne Hwf.
  destruct (sessions σ !! UserMessage.username user_message) as [r|] eqn:Hu;
    [|by rewrite chat_absent].
  destruct (wf_object σ Hwf _ r Hu) as (s & Hr & _ & _ & [a Ha]).
  rewrite (chat_present W _ _ _ _ r s a) by done.
  assert (∀ x, untouched v σ (mkServer (<[r := x]> (objects σ)) (agent_manager σ))) as H.
  { intros x. apply untouched_intro; [done|]. intros r' Hv. simpl.
    apply lookup_insert_ne. intros ->. apply Hne.
    by apply (wf_unshared σ Hwf _ v r'). }
  destruct (agent_run W a _ _); apply H.
Qed.

Lemma same_manager_fields_chat user_message now ts σ :
  wf σ → same_manager_fields σ (chat W user_message now ts σ).1.
Proof.
  intros Hwf.
  destruct (sessions σ !! UserMessage.username user_message) as [r|] eqn:Hu;
    [|by rewrite chat_absent].
  destruct (wf_object σ Hwf _ r Hu) as (s & Hr & _ & _ & [a Ha]).
  rewrite (chat_present W _ _ _ _ r s a) by done.
  by destruct (agent_run W a _ _).
Qed.

Lemma untouched_create_session u v agent_config now σ :
  u ≠ v → wf σ → untouched v σ (create_session W u agent_config now σ).1.
Proof.
  intros Hne Hwf.
  apply (untouched_trans _ _ (close_session u σ));
    [by apply untouched_close_session|].
  pose proof (wf_close_session u σ Hwf) as Hwfc.
  destruct (create_session_creation W u agent_config now σ); simpl;
    try (by apply untouched_intro).
  apply untouched_intro.
  - unfold sessions; simpl. by rewrite lookup_insert_ne.
  - intros r Hv. simpl. apply lookup_insert_ne. intros <-.
    destruct (wf_object _ Hwfc v _ Hv) as (s & Hs & _).
    apply (is_fresh (dom (objects σ))). fold session.
    rewrite <-(dom_objects_close_session u). apply elem_of_dom. eauto.
Qed.

Lemma close_session_with_workspace_fields v root configs σ :
  close_session v (with_workspace_fields root configs σ)
  = with_workspace_fields root configs (close_session v σ).
Proof.
  unfold close_session, with_workspace_fields, sessions. simpl.
  by destruct (AgentManager.sessions (agent_manager σ) !! v).
Qed.

(** [create_session] assigns both fields before it reads them. *)
Lemma create_session_with_workspace_fields v agent_config now root configs σ :
  let before := create_session W v agent_config now σ in
  let after := create_session W v agent_config now (with_workspace_fields root configs σ) in
  after.2 = before.2
  ∧ sessions after.1 = sessions before.1
  ∧ objects after.1 = objects before.1.
Proof.
  unfold create_session. rewrite !create_session_prelude.
  rewrite close_session_with_workspace_fields.
  destruct (truthy (AgentConfig.api_key agent_config)); [|done].
  destruct (truthy (AgentConfig.model_name agent_config)); [|done].
  simpl.
  change (set_workspace_config agent_config
            (agent_manager (with_workspace_fields root configs (close_session v σ))))
    with (set_workspace_config agent_config (agent_manager (close_session v σ))).
  destruct (load_mcp_server W _ v _ 100) as [mcp_server|e]; [|done].
  by destruct (_create_agent_for_user W v agent_config mcp_server).
Qed.

(** C8, as the code has it.  [close_session], [update_last_active] and
    [chat] for a username keep the manager fields other than the session map,
    and the binding and the session of every other username.
    [create_session] keeps those bindings and sessions and
    [filesystem_mcp_name] too, but, once its two checks have passed, it
    assigns the manager fields [workspace_root] and [mcp_configs] from the
    configuration it was given.  As it assigns them before it reads them, what
    a later [create_session] returns and registers does not depend on the
    values found in the two fields. *)
Theorem operations_frame u v σ :
  u ≠ v → wf σ →
  (same_manager_fields σ (close_session u σ)
   ∧ untouched v σ (close_session u σ))
  ∧ (∀ now,
       same_manager_fields σ (update_last_active u now σ)
       ∧ untouched v σ (update_last_active u now σ))
  ∧ (∀ user_message now ts,
       UserMessage.username user_message = u →
       same_manager_fields σ (chat W user_message now ts σ).1
       ∧ untouched v σ (chat W user_message now ts σ).1)
  ∧ (∀ agent_config now,
       untouched v σ (create_session W u agent_config now σ).1
       ∧ AgentManager.filesystem_mcp_name
           (agent_manager (create_session W u agent_config now σ).1)
         = AgentManager.filesystem_mcp_name (agent_manager σ)
       ∧ (truthy (AgentConfig.api_key agent_config) = true →
          truthy (AgentConfig.model_name agent_config) = true →
          AgentManager.workspace_root
            (agent_manager (create_session W u agent_config now σ).1)
          = Some (AgentConfig.workspace_root agent_config)
          ∧ AgentManager.mcp_configs
              (agent_manager (create_session W u agent_config now σ).1)
            = AgentConfig.mcp_configs agent_config))
  ∧ (∀ agent_config now root configs,
       (create_session W v agent_config now (with_workspace_fields root configs σ)).2
       = (create_session W v agent_config now σ).2
       ∧ sessions (create_session W v agent_config now
                     (with_workspace_fields root configs σ)).1
         = sessions (create_session W v agent_config now σ).1
       ∧ objects (create_session W v agent_config now
                    (with_workspace_fields root configs σ)).1
         = objects (create_session W v agent_config now σ).1).
Proof.
  intros Hne Hwf. split_and!.
  - apply manager_fields_close_session.
  - by apply untouched_close_session.
  - intros now. split; [|by apply untouched_update_last_active].
    unfold same_manager_fields. by rewrite manager_update_last_active.
  - intros user_message now ts Hu. split.
    + by apply same_manager_fields_chat.
    + by apply (untouched_chat u).
  - intros agent_config now. split_and!.
    + by apply untouched_create_session.
    + destruct (create_session_creation W u agent_config now σ); simpl;
        apply (manager_fields_close_session u σ).
    + intros Hk Hm.
      destruct (create_session_creation W u agent_config now σ); simpl;
        (congruence || done).
  - intros. apply create_session_with_workspace_fields.
Qed.

End frame.

(** ** Chat requests that overlap *)

Section overlap.
Context (W : World).
Implicit Types (σ : Server) (u v username : string) (now : Z) (r : loc)
  (l : EventLoop) (c : ChatCall).

Lemma run_app schedule1 schedule2 l :
  run W (schedule1 ++ schedule2) l = run W schedule2 (run W schedule1 l).
Proof. apply foldl_app. Qed.

(** A request that runs alone is [chat]. *)
Lemma run_serial_one c l :
  suspended l = ∅ →
  server (run W (serial [c]) l)
  = (chat W (call_message c) (call_now c) (call_ts c) (server l)).1
  ∧ suspended (run W (serial [c]) l) = ∅.
Proof.
  intros Hl. unfold run, serial, chat. simpl.
  destruct (chat_begin (call_message c) (call_now c) (server l)) as [σ [reply|call]];
    simpl.
  - by rewrite Hl, lookup_empty.
  - rewrite lookup_insert_eq.
    destruct (chat_end call (backend W call) (call_ts c) σ) as [σ' reply]. simpl.
    by rewrite delete_insert_eq, Hl, delete_empty.
Qed.

Lemma run_serial calls l :
  suspended l = ∅ →
  server (run W (serial calls) l)
  = foldl (λ σ c, (chat W (call_message c) (call_now c) (call_ts c) σ).1)
      (server l) calls.
Proof.
  revert l. induction calls as [|c calls IH]; intros l Hl; [done|].
  change (serial (c :: calls)) with (serial [c] ++ serial calls)%list.
  rewrite run_app. destruct (run_serial_one c l Hl) as [Hs He].
  rewrite IH by done. by rewrite Hs.
Qed.

Lemma chats_in_turn calls σ u r s a history :
  sessions σ !! u = Some r →
  objects σ !! r = Some s →
  UserSession.agent s = Some a →
  Forall (λ c, UserMessage.username (call_message c) = u) calls →
  turns W a (UserSession.history_context s)
    (UserMessage.message ∘ call_message <$> calls) = Ok history →
  UserSession.history_context
  <$> session_of
        (foldl (λ σ c, (chat W (call_message c) (call_now c) (call_ts c) σ).1) σ calls)
        u
  = Some history.
Proof.
  revert σ s. induction calls as [|c calls IH]; intros σ s Hu Hr Ha Hcalls Hturns;
    simpl in *.
  - simplify_eq. unfold session_of. rewrite Hu. simpl. by rewrite Hr.
  - apply Forall_cons in Hcalls as [Hc Hcalls].
    rewrite (chat_present W _ _ _ _ r s a); [|by rewrite Hc|done..].
    destruct (agent_run W a _ _) as [result|e]; [|done]. simpl in Hturns.
    eapply IH; [exact Hu|apply lookup_insert_eq|exact Ha|exact Hcalls|exact Hturns].
Qed.

(** Two overlapping calls on one session, step by step. *)
Lemma run_overlapped σ u r s a c1 c2 result1 result2 :
  sessions σ !! u = Some r →
  objects σ !! r = Some s →
  UserSession.agent s = Some a →
  UserMessage.username (call_message c1) = u →
  UserMessage.username (call_message c2) = u →
  call_id c1 ≠ call_id c2 →
  agent_run W a (UserMessage.message (call_message c1))
    (UserSession.history_context s) = Ok result1 →
  agent_run W a (UserMessage.message (call_message c2))
    (UserSession.history_context s) = Ok result2 →
  run W (overlapped c1 c2) (start σ)
  = mkEventLoop
      (mkServer
         (alter (UserSession.set_history_context
                   (Some (AgentRunResult.all_messages result2))) r
            (alter (UserSession.set_history_context
                      (Some (AgentRunResult.all_messages result1))) r
               (<[r := UserSession.set_last_active (call_now c2)
                         (UserSession.set_last_active (call_now c1) s)]>
                  (<[r := UserSession.set_last_active (call_now c1) s]>
                     (objects σ)))))
         (agent_manager σ))
      ∅
      (<[call_id c2 := Return (AgentResponse.mk (AgentRunResult.output result2)
                                 (call_ts c2))]>
         (<[call_id c1 := Return (AgentResponse.mk (AgentRunResult.output result1)
                                    (call_ts c1))]> ∅)).
Proof.
  intros Hu Hr Ha H1 H2 Hid Hrun1 Hrun2.
  set (s1 := UserSession.set_last_active (call_now c1) s).
  set (s2 := UserSession.set_last_active (call_now c2) s1).
  set (call1 := mkPending r a (UserMessage.message (call_message c1))
                  (UserSession.history_context s)).
  set (call2 := mkPending r a (UserMessage.message (call_message c2))
                  (UserSession.history_context s)).
  set (σ1 := mkServer (<[r := s1]> (objects σ)) (agent_manager σ)).
  set (σ2 := mkServer (<[r := s2]> (objects σ1)) (agent_manager σ1)).
  unfold run, overlapped. cbn [foldl].
  assert (step W (start σ) (ChatBegin (call_id c1) (call_message c1) (call_now c1))
          = mkEventLoop σ1 (<[call_id c1 := call1]> ∅) ∅) as ->.
  { unfold step, start. cbn [server suspended replies].
    rewrite (chat_begin_present (call_message c1) (call_now c1) σ r s a);
      [|by rewrite H1|done..].
    by rewrite H1, (update_last_active_present _ _ _ r s). }
  assert (step W (mkEventLoop σ1 (<[call_id c1 := call1]> ∅) ∅)
            (ChatBegin (call_id c2) (call_message c2) (call_now c2))
          = mkEventLoop σ2 (<[call_id c2 := call2]> (<[call_id c1 := call1]> ∅)) ∅)
    as ->.
  { unfold step. cbn [server suspended replies].
    rewrite (chat_begin_present (call_message c2) (call_now c2) σ1 r s1 a);
      [|by rewrite H2|apply lookup_insert_eq|done].
    by rewrite H2, (update_last_active_present _ _ _ r s1);
      [|done|apply lookup_insert_eq]. }
  unfold step. cbn [server suspended replies].
  rewrite lookup_insert_ne, lookup_insert_eq by done.
  unfold backend. cbn [pending_agent pending_message pending_history call1].
  rewrite Hrun1. cbn [chat_end server suspended replies].
  rewrite lookup_delete_ne, lookup_insert_eq by done.
  cbn [pending_agent pending_message pending_history call2].
  rewrite Hrun2. cbn [chat_end server suspended replies pending_session call1 call2].
  rewrite delete_insert_ne by done.
  by rewrite !delete_insert_eq, !delete_empty.
Qed.

(** The same two calls when the second completes first. *)
Lemma run_overlapped_reversed σ u r s a c1 c2 result1 result2 :
  sessions σ !! u = Some r →
  objects σ !! r = Some s →
  UserSession.agent s = Some a →
  UserMessage.username (call_message c1) = u →
  UserMessage.username (call_message c2) = u →
  call_id c1 ≠ call_id c2 →
  agent_run W a (UserMessage.message (call_message c1))
    (UserSession.history_context s) = Ok result1 →
  agent_run W a (UserMessage.message (call_message c2))
    (UserSession.history_context s) = Ok result2 →
  run W (overlapped_reversed c1 c2) (start σ)
  = mkEventLoop
      (mkServer
         (alter (UserSession.set_history_context
                   (Some (AgentRunResult.all_messages result1))) r
            (alter (UserSession.set_history_context
                      (Some (AgentRunResult.all_messages result2))) r
               (<[r := UserSession.set_last_active (call_now c2)
                         (UserSession.set_last_active (call_now c1) s)]>
                  (<[r := UserSession.set_last_active (call_now c1) s]>
                     (objects σ)))))
         (agent_manager σ))
      ∅
      (<[call_id c1 := Return (AgentResponse.mk (AgentRunResult.output result1)
                                 (call_ts c1))]>
         (<[call_id c2 := Return (AgentResponse.mk (AgentRunResult.output result2)
                                    (call_ts c2))]> ∅)).
Proof.
  intros Hu Hr Ha H1 H2 Hid Hrun1 Hrun2.
  set (s1 := UserSession.set_last_active (call_now c1) s).
  set (s2 := UserSession.set_last_active (call_now c2) s1).
  set (call1 := mkPending r a (UserMessage.message (call_message c1))
                  (UserSession.history_context s)).
  set (call2 := mkPending r a (UserMessage.message (call_message c2))
                  (UserSession.history_context s)).
  set (σ1 := mkServer (<[r := s1]> (objects σ)) (agent_manager σ)).
  set (σ2 := mkServer (<[r := s2]> (objects σ1)) (agent_manager σ1)).
  unfold run, overlapped_reversed. cbn [foldl].
  assert (step W (start σ) (ChatBegin (call_id c1) (call_message c1) (call_now c1))
          = mkEventLoop σ1 (<[call_id c1 := call1]> ∅) ∅) as ->.
  { unfold step, start. cbn [server suspended replies].
    rewrite (chat_begin_present (call_message c1) (call_now c1) σ r s a);
      [|by rewrite H1|done..].
    by rewrite H1, (update_last_active_present _ _ _ r s). }
  assert (step W (mkEventLoop σ1 (<[call_id c1 := call1]> ∅) ∅)
            (ChatBegin (call_id c2) (call_message c2) (call_now c2))
          = mkEventLoop σ2 (<[call_id c2 := call2]> (<[call_id c1 := call1]> ∅)) ∅)
    as ->.
  { unfold step. cbn [server suspended replies].
    rewrite (chat_begin_present (call_message c2) (call_now c2) σ1 r s1 a);
      [|by rewrite H2|apply lookup_insert_eq|done].
    by rewrite H2, (update_last_active_present _ _ _ r s1);
      [|done|apply lookup_insert_eq]. }
  unfold step. cbn [server suspended replies].
  rewrite lookup_insert_eq.
  unfold backend. cbn [pending_agent pending_message pending_history call2].
  rewrite Hrun2. cbn [chat_end server suspended replies].
  rewrite lookup_delete_ne, lookup_insert_ne, lookup_insert_eq by done.
  cbn [pending_agent pending_message pending_history call1].
  rewrite Hrun1. cbn [chat_end server suspended replies pending_session call1 call2].
  rewrite (delete_insert_eq _ (call_id c2)), delete_insert_ne by done.
  by rewrite delete_empty, delete_insert_eq, delete_empty.
Qed.

(** C6, as the code has it.  A session has no lock and [chat] takes none:
    each call hands the backend the history the session holds when the call
    begins and, when the backend returns, replaces the history by the
    returned message list.  So calls for one username that complete one
    after the other produce the turns in order (the history is the one
    obtained by chaining the backend through the messages), whereas of two
    calls that are both begun before either completes, both answered 200,
    the history keeps the message list of the one that completes last,
    whichever began first, computed from the history that preceded both: the
    turn of the other is lost. *)
Theorem chats_without_lock σ u r s a :
  sessions σ !! u = Some r →
  objects σ !! r = Some s →
  UserSession.agent s = Some a →
  (∀ calls history,
     Forall (λ c, UserMessage.username (call_message c) = u) calls →
     turns W a (UserSession.history_context s)
       (UserMessage.message ∘ call_message <$> calls) = Ok history →
     UserSession.history_context
     <$> session_of (server (run W (serial calls) (start σ))) u
     = Some history)
  ∧ (∀ c1 c2 result1 result2,
       UserMessage.username (call_message c1) = u →
       UserMessage.username (call_message c2) = u →
       call_id c1 ≠ call_id c2 →
       agent_run W a (UserMessage.message (call_message c1))
         (UserSession.history_context s) = Ok result1 →
       agent_run W a (UserMessage.message (call_message c2))
         (UserSession.history_context s) = Ok result2 →
       replies (run W (overlapped c1 c2) (start σ)) !! call_id c1
       = Some (Return (AgentResponse.mk (AgentRunResult.output result1) (call_ts c1)))
       ∧ replies (run W (overlapped c1 c2) (start σ)) !! call_id c2
         = Some (Return (AgentResponse.mk (AgentRunResult.output result2) (call_ts c2)))
       ∧ UserSession.history_context
         <$> session_of (server (run W (overlapped c1 c2) (start σ))) u
         = Some (Some (AgentRunResult.all_messages result2)))
  ∧ (∀ c1 c2 result1 result2,
       UserMessage.username (call_message c1) = u →
       UserMessage.username (call_message c2) = u →
       call_id c1 ≠ call_id c2 →
       agent_run W a (UserMessage.message (call_message c1))
         (UserSession.history_context s) = Ok result1 →
       agent_run W a (UserMessage.message (call_message c2))
         (UserSession.history_context s) = Ok result2 →
       replies (run W (overlapped_reversed c1 c2) (start σ)) !! call_id c1
       = Some (Return (AgentResponse.mk (AgentRunResult.output result1) (call_ts c1)))
       ∧ replies (run W (overlapped_reversed c1 c2) (start σ)) !! call_id c2
         = Some (Return (AgentResponse.mk (AgentRunResult.output result2) (call_ts c2)))
       ∧ UserSession.history_context
         <$> session_of (server (run W (overlapped_reversed c1 c2) (start σ))) u
         = Some (Some (AgentRunResult.all_messages result1))).
Proof.
  intros Hu Hr Ha. split_and!.
  - intros calls history Hcalls Hturns.
    rewrite run_serial by done. by eapply chats_in_turn.
  - intros c1 c2 result1 result2 H1 H2 Hid Hrun1 Hrun2.
    rewrite (run_overlapped σ u r s a c1 c2 result1 result2) by done.
    cbn [server replies]. split_and!.
    + by rewrite lookup_insert_ne, lookup_insert_eq.
    + by rewrite lookup_insert_eq.
    + unfold session_of, sessions. simpl. fold (sessions σ). rewrite Hu. simpl.
      by rewrite !lookup_alter_eq, !lookup_insert_eq.
  - intros c1 c2 result1 result2 H1 H2 Hid Hrun1 Hrun2.
    rewrite (run_overlapped_reversed σ u r s a c1 c2 result1 result2) by done.
    cbn [server replies]. split_and!.
    + by rewrite lookup_insert_eq.
    + by rewrite lookup_insert_ne, lookup_insert_eq.
    + unfold session_of, sessions. simpl. fold (sessions σ). rewrite Hu. simpl.
      by rewrite !lookup_alter_eq, !lookup_insert_eq.
Qed.

End overlap.

(** * Worked runs

    The theorems above at the sample worlds, and the inputs on which the
    statements they amend fail. *)

Lemma wf_alice_and_bob : wf alice_and_bob.
Proof.
  apply (reachable_wf sample_world). unfold alice_and_bob.
  apply reachable_login, reachable_login, reachable_init.
Defined.

Lemma wf_alice_logged_in : wf alice_logged_in.
Proof.
  apply (reachable_wf sample_world). unfold alice_logged_in.
  apply reachable_login, reachable_init.
Defined.

(** ** Session creation (C7) *)

Example create_session_registers :
  let '(σ, outcome) :=
    create_session sample_world "alice" (login_agent_config sample_world alice_login)
      10 init_server in
  outcome = Ok 0%nat
  ∧ session_of σ "alice" = Some (sample_session alice_login 10).
Proof. vm_compute. done. Qed.

Example create_session_aborts :
  let '(σ, outcome) :=
    create_session world_bad_credential "alice"
      (login_agent_config world_bad_credential alice_login) 60 alice_logged_in in
  outcome = Raise (ValueError "创建智能体失败: invalid api key")
  ∧ sessions σ !! "alice" = None.
Proof. vm_compute. done. Qed.

(** ** Closing (C9) *)

Lemma close_absent_witness :
  sessions init_server !! "alice" = None
  ∧ close_session "alice" init_server = init_server
  ∧ update_last_active "alice" 5 init_server = init_server
  ∧ (logout "alice" init_server).1 = init_server.
Proof.
  split; [reflexivity|].
  destruct (close_idempotent_touch_absent_safe "alice" 5 init_server)
    as (_ & _ & H & _).
  exact (H eq_refl).
Defined.

(** ** A failed turn (C2) *)

Lemma chat_backend_failure_witness :
  sessions alice_backend_down !! "alice" = Some 0%nat
  ∧ objects alice_backend_down !! 0%nat = Some (sample_session alice_login 10)
  ∧ (chat world_backend_down (UserMessage.mk "alice" "hi") 20 "t20"
       alice_backend_down).2
    = HTTPException 500 "智能体处理错误: connection refused"
  ∧ UserSession.history_context
    <$> session_of (chat world_backend_down (UserMessage.mk "alice" "hi") 20 "t20"
                      alice_backend_down).1 "alice"
    = Some (Some [])
  ∧ UserSession.last_active
    <$> session_of (chat world_backend_down (UserMessage.mk "alice" "hi") 20 "t20"
                      alice_backend_down).1 "alice"
    = Some 20%Z.
Proof.
  assert (sessions alice_backend_down !! "alice" = Some 0%nat) as Hs
    by (vm_compute; reflexivity).
  assert (objects alice_backend_down !! 0%nat = Some (sample_session alice_login 10))
    as Ho by (vm_compute; reflexivity).
  split; [exact Hs|]. split; [exact Ho|].
  pose proof (chat_backend_failure_keeps_history world_backend_down
                (UserMessage.mk "alice" "hi") 20 "t20" alice_backend_down 0%nat
                (sample_session alice_login 10) (sample_agent "alice")
                Hs Ho eq_refl) as H.
  cbn [agent_run world_backend_down] in H.
  destruct H as (H1 & _ & _ & H4 & H5 & _).
  split; [exact H1|]. split; [exact H4|exact H5].
Defined.

(** ** The sweep (C4): at time 1850 bob, idle since 10, is reaped; alice,
    whose age is exactly the threshold, is not. *)

Lemma cleanup_witness :
  wf alice_and_bob
  ∧ sessions (cleanup_inactive_sessions 1800 1850 alice_and_bob) !! "bob" = None
  ∧ sessions (cleanup_inactive_sessions 1800 1850 alice_and_bob) !! "alice"
    = Some 1%nat
  ∧ objects (cleanup_inactive_sessions 1800 1850 alice_and_bob) !! 1%nat
    = Some (sample_session alice_login 50).
Proof.
  split; [exact wf_alice_and_bob|].
  destruct (cleanup_closes_exactly_the_idle sample_world 1800 1850 alice_and_bob
              wf_alice_and_bob) as [_ H].
  assert (sessions alice_and_bob !! "bob" = Some 0%nat) as Hb
    by (vm_compute; reflexivity).
  assert (objects alice_and_bob !! 0%nat = Some (sample_session bob_login 10)) as Hbo
    by (vm_compute; reflexivity).
  assert (sessions alice_and_bob !! "alice" = Some 1%nat) as Ha
    by (vm_compute; reflexivity).
  assert (objects alice_and_bob !! 1%nat = Some (sample_session alice_login 50)) as Hao
    by (vm_compute; reflexivity).
  pose proof (H "bob" _ _ Hb Hbo) as H1.
  pose proof (H "alice" _ _ Ha Hao) as H2.
  rewrite decide_True in H1 by (simpl; lia).
  rewrite decide_False in H2 by (simpl; lia).
  split; [exact (proj1 H1)|exact H2].
Defined.

(** ** Provisioning (C5) *)

(** A source listed twice is provisioned twice. *)
Example load_mcp_server_twice :
  load_mcp_server sample_world sample_manager "alice"
    ["./config/mcp_config_base.json"; "./config/mcp_config_office.json";
     "./config/mcp_config_base.json"] 100
  = Ok [MCPServerStdio "npx"
          ["-y"; "@modelcontextprotocol/server-filesystem";
           "/srv/workspace/workspace_alice"] 100;
        MCPServerStdio "python"
          ["./python_modules/mcp_server_word/mcp_word_server.py"] 100;
        MCPServerStdio "npx"
          ["-y"; "@modelcontextprotocol/server-filesystem";
           "/srv/workspace/workspace_alice"] 100].
Proof.
  apply (load_mcp_server_ok sample_world sample_manager "alice" _ 100 "/srv/workspace"
           [[filesystem_server]; [word_server]; [filesystem_server]] eq_refl).
  - repeat constructor.
  - intros i Hi Hfs. split; [|reflexivity].
    simpl in Hi. apply list_elem_of_In in Hi. simpl in Hi.
    destruct Hi as [<-|[<-|[<-|[]]]]; simpl in *; (lia || discriminate).
Qed.

(** The filesystem entry of the source has the two arguments [-y] and the
    tool's identifier: provisioning raises. *)
Lemma load_mcp_server_directory_argument_witness :
  AgentManager.workspace_root sample_manager = Some "/srv/workspace"
  ∧ Forall2 (λ config servers, load_mcp_servers world_short_args config = Ok servers)
      ["./config/mcp_config_base.json"]
      [[MCPServerStdio "npx" ["-y"; "@modelcontextprotocol/server-filesystem"] 5]]
  ∧ os_makedirs world_short_args (user_workspace "/srv/workspace" "alice") = Ok ()
  ∧ load_mcp_server world_short_args sample_manager "alice"
      ["./config/mcp_config_base.json"] 100
    = Raise (IndexError "list assignment index out of range").
Proof.
  assert (Forall2 (λ config servers, load_mcp_servers world_short_args config = Ok servers)
            ["./config/mcp_config_base.json"]
            [[MCPServerStdio "npx" ["-y"; "@modelcontextprotocol/server-filesystem"] 5]])
    as Hload by (repeat constructor).
  split; [reflexivity|]. split; [exact Hload|]. split; [reflexivity|].
  exact (load_mcp_server_directory_argument world_short_args sample_manager "alice"
           ["./config/mcp_config_base.json"] 100 "/srv/workspace"
           [[MCPServerStdio "npx" ["-y"; "@modelcontextprotocol/server-filesystem"] 5]]
           eq_refl Hload (λ _ _ _, eq_refl)).
Defined.

(** With that source, a login that passes authentication is answered 500
    and registers no session. *)
Example login_short_args :
  login world_short_args alice_login 10 "t10" init_server
  = ((login world_short_args alice_login 10 "t10" init_server).1,
     HTTPException 500 "创建会话失败: list assignment index out of range")
  ∧ sessions (login world_short_args alice_login 10 "t10" init_server).1 !! "alice"
    = None.
Proof. split; vm_compute; reflexivity. Qed.

(** ** The administrator's sources (C10) *)


(** ** A failed agent build (C3) *)

Lemma login_build_failure_witness :
  accepted world_bad_credential alice_login
  ∧ (login world_bad_credential alice_login 10 "t10" init_server).2
    = HTTPException 400 "创建智能体失败: invalid api key"
  ∧ sessions (login world_bad_credential alice_login 10 "t10" init_server).1
    !! "alice" = None.
Proof.
  assert (accepted world_bad_credential alice_login) as Hadm
    by (repeat split; vm_compute; reflexivity).
  split; [exact Hadm|].
  pose proof (login_build_failure_is_400 world_bad_credential alice_login 10 "t10"
                init_server Hadm) as H.
  destruct H as (H1 & _ & H3). split; [exact H1|exact H3].
Defined.

(** C3 as stated fails: with a model client that refuses the credential, the
    login of alice passes validation and authentication, the tools are
    provisioned, the agent build raises, and the status is 400, not 500. *)
Lemma login_build_failure_is_not_500 :
  ¬ (∀ (W : World) user now ts σ mcp_server e,
       accepted W user →
       session_tools W (UserLogin.username user) (login_agent_config W user) σ
       = Ok mcp_server →
       agent_init W (login_agent_config W user) mcp_server = Raise e →
       status (login W user now ts σ).2 = 500%Z).
Proof.
  intros H.
  assert (accepted world_bad_credential alice_login) as Hadm
    by (repeat split; vm_compute; reflexivity).
  specialize (H world_bad_credential alice_login 10%Z "t10" init_server
                (Agent.toolsets (sample_agent "alice"))
                (RuntimeError "invalid api key") Hadm).
  assert (status (login world_bad_credential alice_login 10 "t10" init_server).2
          = 400%Z) as H400 by (vm_compute; reflexivity).
  rewrite H in H400; [discriminate|vm_compute; reflexivity|reflexivity].
Qed.

(** ** Logging in twice (C1) *)

(** The server after alice logged in at time 10 and again at time 50. *)
Lemma alice_twice_logins :
  login sample_world alice_login 10 "t10" init_server
  = (alice_logged_in, Return (LoginReply.mk "用户 alice 登录成功" true "t10"))
  ∧ login sample_world alice_login 50 "t50" alice_logged_in
    = ((login sample_world alice_login 50 "t50" alice_logged_in).1,
       Return (LoginReply.mk "用户 alice 登录成功" true "t50")).
Proof. split; vm_compute; reflexivity. Defined.

(** Alice has had a turn when she logs in again; bob logs in afterwards. *)
Lemma wf_alice_chatted : wf alice_chatted.
Proof.
  apply (reachable_wf sample_world).
  assert (reachable sample_world alice_logged_in) as Hreach
    by (unfold alice_logged_in; apply reachable_login, reachable_init).
  pose proof (reachable_chat_begin sample_world (UserMessage.mk "alice" "hello") 20
                alice_logged_in Hreach) as Hbegin.
  unfold alice_chatted, chat.
  destruct (chat_begin (UserMessage.mk "alice" "hello") 20 alice_logged_in)
    as [σ [reply|call]]; cbn [fst] in *; [exact Hbegin|].
  by apply reachable_chat_end.
Defined.

Lemma second_login_witness :
  wf alice_chatted
  ∧ sessions alice_chatted !! "alice" = Some 0%nat
  ∧ objects alice_chatted !! 0%nat
    = Some (UserSession.set_history_context
              (Some [ModelRequest "hello"; ModelResponse "echo: hello"])
              (UserSession.set_last_active 20 (sample_session alice_login 10)))
  ∧ login sample_world alice_login 50 "t50" alice_chatted
    = ((login sample_world alice_login 50 "t50" alice_chatted).1,
       Return (LoginReply.mk "用户 alice 登录成功" true "t50"))
  ∧ ∃ r2,
      0%nat ≠ r2
      ∧ sessions (login sample_world alice_login 50 "t50" alice_chatted).1 !! "alice"
        = Some r2
      ∧ objects (login sample_world alice_login 50 "t50" alice_chatted).1 !! 0%nat
        = Some (UserSession.set_is_active false
                  (UserSession.set_history_context
                     (Some [ModelRequest "hello"; ModelResponse "echo: hello"])
                     (UserSession.set_last_active 20 (sample_session alice_login 10))))
      ∧ status (chat sample_world (UserMessage.mk "alice" "again") 60 "t60"
                  (login sample_world alice_login 50 "t50" alice_chatted).1).2
        ≠ 404%Z
      ∧ status (chat sample_world (UserMessage.mk "alice" "again") 60 "t60"
                  (login sample_world bob_login 55 "t55"
                     (login sample_world alice_login 50 "t50" alice_chatted).1).1).2
        ≠ 404%Z.
Proof.
  assert (sessions alice_chatted !! "alice" = Some 0%nat) as Hs
    by (vm_compute; reflexivity).
  assert (objects alice_chatted !! 0%nat
          = Some (UserSession.set_history_context
                    (Some [ModelRequest "hello"; ModelResponse "echo: hello"])
                    (UserSession.set_last_active 20 (sample_session alice_login 10))))
    as Ho by (vm_compute; reflexivity).
  assert (login sample_world alice_login 50 "t50" alice_chatted
          = ((login sample_world alice_login 50 "t50" alice_chatted).1,
             Return (LoginReply.mk "用户 alice 登录成功" true "t50"))) as Hl
    by (vm_compute; reflexivity).
  split; [exact wf_alice_chatted|]. split; [exact Hs|]. split; [exact Ho|].
  split; [exact Hl|].
  destruct (second_login_takes_over sample_world alice_login 50 "t50"
              alice_chatted _ _ 0%nat _ wf_alice_chatted Hs Ho Hl)
    as (_ & r2 & a2 & Hne & Hr2 & Ho1 & _ & Hlater).
  exists r2. split_and!; [exact Hne|exact Hr2|exact Ho1| |].
  - destruct (Hlater _ (follows_refl _ _ _)) as (_ & _ & _ & s2 & _ & _ & Hchat).
    exact (proj2 (proj2 (proj2 (Hchat (UserMessage.mk "alice" "again") 60%Z "t60"
                                  eq_refl)))).
  - assert (UserLogin.username bob_login ≠ UserLogin.username alice_login) as Hbob
      by (simpl; discriminate).
    destruct (Hlater _ (follows_login _ _ _ bob_login 55%Z "t55" _
                          (follows_refl _ _ _) Hbob))
      as (_ & _ & _ & s2 & _ & _ & Hchat).
    exact (proj2 (proj2 (proj2 (Hchat (UserMessage.mk "alice" "again") 60%Z "t60"
                                  eq_refl)))).
Defined.

(** C1 as stated fails: after alice has logged in twice, a chat call for
    alice, whoever sends it, is answered 200 by the replacement session. *)
Lemma displaced_caller_is_served :
  ¬ (∀ (W : World) user1 user2 n1 t1 n2 t2 σ σ1 σ2 reply1 reply2 user_message n3 t3,
       UserLogin.username user2 = UserLogin.username user1 →
       login W user1 n1 t1 σ = (σ1, Return reply1) →
       login W user2 n2 t2 σ1 = (σ2, Return reply2) →
       UserMessage.username user_message = UserLogin.username user1 →
       status (chat W user_message n3 t3 σ2).2 = 404%Z).
Proof.
  intros H. destruct alice_twice_logins as [H1 H2].
  specialize (H sample_world alice_login alice_login 10%Z "t10" 50%Z "t50"
                init_server _ _ _ _ (UserMessage.mk "alice" "hello") 60%Z "t60"
                eq_refl H1 H2 eq_refl).
  vm_compute in H. discriminate H.
Qed.

(** ** Manager fields (C8) *)

Lemma operations_frame_witness :
  "alice" ≠ "bob"
  ∧ wf alice_and_bob
  ∧ untouched "bob" alice_and_bob
      (chat sample_world (UserMessage.mk "alice" "hello") 60 "t60" alice_and_bob).1
  ∧ untouched "bob" alice_and_bob
      (create_session sample_world "alice"
         (login_agent_config sample_world alice_login) 60 alice_and_bob).1.
Proof.
  assert ("alice" ≠ "bob") as Hne by discriminate.
  split; [exact Hne|]. split; [exact wf_alice_and_bob|].
  destruct (operations_frame sample_world "alice" "bob" alice_and_bob Hne
              wf_alice_and_bob) as (_ & _ & Hchat & Hcreate & _).
  split.
  - exact (proj2 (Hchat (UserMessage.mk "alice" "hello") 60%Z "t60" eq_refl)).
  - exact (proj1 (Hcreate (login_agent_config sample_world alice_login) 60%Z)).
Defined.

(** C8 as stated fails: creating alice's session on the fresh manager
    changes the manager field [workspace_root] from [None] to alice's
    workspace root (and [mcp_configs] to her sources). *)
Lemma create_session_writes_manager_fields :
  ¬ (∀ (W : World) u v agent_config now σ,
       u ≠ v →
       same_manager_fields σ (create_session W u agent_config now σ).1).
Proof.
  intros H.
  specialize (H sample_world "alice" "bob"
                (login_agent_config sample_world alice_login) 10%Z init_server
                ltac:(discriminate)).
  destruct H as (_ & H & _). vm_compute in H. discriminate H.
Qed.

(** ** Overlapping chat requests (C6) *)

Lemma chats_without_lock_witness :
  sessions alice_logged_in !! "alice" = Some 0%nat
  ∧ objects alice_logged_in !! 0%nat = Some (sample_session alice_login 10)
  ∧ UserSession.history_context
    <$> session_of (server (run sample_world (serial [first_call; second_call])
                              (start alice_logged_in))) "alice"
    = Some (Some [ModelRequest "first"; ModelResponse "echo: first";
                  ModelRequest "second"; ModelResponse "echo: second"])
  ∧ UserSession.history_context
    <$> session_of (server (run sample_world (overlapped first_call second_call)
                              (start alice_logged_in))) "alice"
    = Some (Some [ModelRequest "second"; ModelResponse "echo: second"])
  ∧ UserSession.history_context
    <$> session_of (server (run sample_world
                              (overlapped_reversed first_call second_call)
                              (start alice_logged_in))) "alice"
    = Some (Some [ModelRequest "first"; ModelResponse "echo: first"]).
Proof.
  assert (sessions alice_logged_in !! "alice" = Some 0%nat) as Hs
    by (vm_compute; reflexivity).
  assert (objects alice_logged_in !! 0%nat = Some (sample_session alice_login 10))
    as Ho by (vm_compute; reflexivity).
  split; [exact Hs|]. split; [exact Ho|].
  destruct (chats_without_lock sample_world alice_logged_in "alice" 0%nat
              (sample_session alice_login 10) (sample_agent "alice") Hs Ho eq_refl)
    as (Hserial & Hoverlap & Hreversed).
  split_and!.
  - apply (Hserial [first_call; second_call]).
    + repeat constructor.
    + reflexivity.
  - refine (proj2 (proj2 (Hoverlap first_call second_call _ _ eq_refl eq_refl
                            ltac:(discriminate) eq_refl eq_refl))).
  - refine (proj2 (proj2 (Hreversed first_call second_call _ _ eq_refl eq_refl
                            ltac:(discriminate) eq_refl eq_refl))).
Defined.

(** C6 as stated fails: when the second request of alice begins while the
    first is suspended at the backend, both are answered 200 and the history
    holds one turn; it is the history of neither order of the two requests
    run one after the other. *)
Lemma overlapping_chats_not_serialized :
  ¬ (∀ (W : World) σ c1 c2,
       UserMessage.username (call_message c1) = UserMessage.username (call_message c2) →
       call_id c1 ≠ call_id c2 →
       session_of (server (run W (overlapped c1 c2) (start σ)))
         (UserMessage.username (call_message c1))
       = session_of (server (run W (serial [c1; c2]) (start σ)))
           (UserMessage.username (call_message c1))
       ∨ session_of (server (run W (overlapped c1 c2) (start σ)))
           (UserMessage.username (call_message c1))
         = session_of (server (run W (serial [c2; c1]) (start σ)))
             (UserMessage.username (call_message c1))).
Proof.
  intros H.
  specialize (H sample_world alice_logged_in first_call second_call eq_refl
                ltac:(discriminate)).
  vm_compute in H. destruct H as [H|H]; discriminate H.
Qed.

(** * Further properties

    Properties of the session store, of tool provisioning and of the
    endpoints that the code shows beyond the ones above. *)

(** ** What every reachable state satisfies *)

Section reachable_states.
Context (W : World).
Implicit Types (σ : Server) (u v username : string) (now : Z) (r : loc).

(** A login that is not accepted is answered 400 or 500 and leaves the
    server as it was. *)
Lemma login_not_accepted user now ts σ :
  accepted W user
  ∨ (login W user now ts σ).1 = σ
    ∧ (status (login W user now ts σ).2 = 400%Z
       ∨ status (login W user now ts σ).2 = 500%Z).
Proof.
  unfold login, accepted, connect_db.
  destruct (truthy (UserLogin.username user)); simpl; [|by right; split; [|left]].
  case_bool_decide as Hv; simpl; [|by right; split; [|left]].
  destruct (db_connect W) as [[]|e]; simpl; [|by right; split; [|right]].
  destruct (validate_login W _ _) as [[[] []]|e]; simpl;
    try (by right; split; [|left]); try (by right; split; [|right]).
  by left.
Qed.

Lemma accepted_prompt user :
  accepted W user →
  truthy (AgentConfig.system_prompt (login_agent_config W user)) = true.
Proof.
  intros (_ & Hv & _). unfold validation_errors in Hv. simpl.
  destruct (truthy (UserLogin.model_name user)),
    (truthy (UserLogin.api_key user)),
    (truthy (UserLogin.system_prompt user)); done.
Qed.

Lemma store_inv_init : store_inv W init_server.
Proof.
  split.
  - apply wf_init.
  - intros r s. simpl. by rewrite lookup_empty.
  - intros r s. simpl. by rewrite lookup_empty.
  - split; [done|]. by left.
Qed.

Lemma session_built_ext s s' :
  UserSession.username s' = UserSession.username s →
  UserSession.agent_config s' = UserSession.agent_config s →
  UserSession.agent s' = UserSession.agent s →
  is_Some (UserSession.history_context s') →
  session_built W s → session_built W s'.
Proof.
  intros Hn Hc Ha Hh [? ? ? ? ? ? ? ?].
  split; rewrite ?Hn, ?Hc, ?Ha; done.
Qed.

Lemma store_inv_close_session u σ : store_inv W σ → store_inv W (close_session u σ).
Proof.
  intros [Hwf Hb Ha Hm]. split.
  - by apply wf_close_session.
  - intros r s. unfold close_session.
    destruct (sessions σ !! u) as [r'|]; [|apply Hb]. simpl.
    destruct (decide (r' = r)) as [->|Hne].
    + rewrite lookup_alter_eq. destruct (objects σ !! r) as [s0|] eqn:Hr; [|done].
      simpl. intros [= <-]. apply (session_built_ext s0); try done.
      * by destruct (Hb r s0 Hr).
      * by apply (Hb r).
    + rewrite lookup_alter_ne by done. apply Hb.
  - intros r s Hr Hact.
    destruct (sessions σ !! u) as [r'|] eqn:Hu;
      [|rewrite close_session_absent in Hr |- * by done; by apply Ha].
    destruct (decide (r' = r)) as [->|Hne].
    + destruct (wf_object σ Hwf u r Hu) as (s0 & Hs0 & _).
      rewrite (objects_close_session_closed u r s0) in Hr by done.
      by simplify_eq.
    + rewrite objects_close_session in Hr by congruence.
      rewrite sessions_close_session. case_decide as Heq; [|by apply Ha].
      specialize (Ha r s Hr Hact). congruence.
  - destruct (manager_fields_close_session u σ) as (Hf & Hw & Hc).
    unfold manager_fields_inv in *. simpl in *. by rewrite Hf, Hw, Hc.
Qed.

Lemma store_inv_alter (f : UserSession.t → UserSession.t) r σ :
  (∀ s, UserSession.username (f s) = UserSession.username s) →
  (∀ s, UserSession.agent_config (f s) = UserSession.agent_config s) →
  (∀ s, UserSession.is_active (f s) = UserSession.is_active s) →
  (∀ s, UserSession.agent (f s) = UserSession.agent s) →
  (∀ s, is_Some (UserSession.history_context s) →
        is_Some (UserSession.history_context (f s))) →
  store_inv W σ → store_inv W (mkServer (alter f r (objects σ)) (agent_manager σ)).
Proof.
  intros Hn Hc Hact Hg Hh [Hwf Hb Ha Hm].
  assert (∀ r' s', alter f r (objects σ) !! r' = Some s' →
            ∃ s, objects σ !! r' = Some s
                 ∧ UserSession.username s' = UserSession.username s
                 ∧ UserSession.is_active s' = UserSession.is_active s
                 ∧ (session_built W s → session_built W s')) as Hold.
  { intros r' s'. destruct (decide (r = r')) as [->|Hne].
    - rewrite lookup_alter_eq. destruct (objects σ !! r') as [s|]; [|done].
      simpl. intros [= <-]. exists s. split_and!; try done.
      intros Hs. apply (session_built_ext s); try done.
      apply Hh. by destruct Hs.
    - rewrite lookup_alter_ne by done. intros Hr'. exists s'. by split_and!. }
  split; simpl.
  - by apply wf_alter.
  - intros r' s' (s & Hs & _ & _ & Hbs)%Hold. apply Hbs. by apply (Hb r').
  - intros r' s' (s & Hs & Hus & Has & _)%Hold Hactive.
    unfold sessions. simpl. fold (sessions σ). rewrite Hus. apply (Ha r' s Hs).
    congruence.
  - done.
Qed.

Lemma store_inv_update_last_active u now σ :
  store_inv W σ → store_inv W (update_last_active u now σ).
Proof.
  intros Hinv. unfold update_last_active.
  destruct (sessions σ !! u); [|done]. by apply store_inv_alter.
Qed.

Lemma store_inv_chat_end call outcome ts σ :
  store_inv W σ → store_inv W (chat_end call outcome ts σ).1.
Proof.
  intros Hinv. unfold chat_end. destruct outcome; [|done].
  by apply store_inv_alter.
Qed.

Lemma store_inv_chat_begin user_message now σ :
  store_inv W σ → store_inv W (chat_begin user_message now σ).1.
Proof.
  intros Hinv. unfold chat_begin, get_session.
  repeat (case_match; simpl; try done). by apply store_inv_update_last_active.
Qed.

Lemma store_inv_close_sessions (us : list string) σ :
  store_inv W σ → store_inv W (foldl (λ σ username, close_session username σ) σ us).
Proof.
  revert σ. induction us as [|u us IH]; intros σ Hinv; [done|].
  simpl. by apply IH, store_inv_close_session.
Qed.

Lemma provisioned_timeout fs root u t i :
  server_timeout (provisioned fs root u t i) = t.
Proof. destruct i; simpl; [by case_bool_decide|done]. Qed.

Lemma store_inv_create_session user now σ :
  accepted W user →
  store_inv W σ →
  store_inv W (create_session W (UserLogin.username user)
                 (login_agent_config W user) now σ).1.
Proof.
  intros Hadm Hinv.
  apply (store_inv_close_session (UserLogin.username user)) in Hinv.
  set (u := UserLogin.username user) in *.
  set (agent_config := login_agent_config W user) in *.
  assert (manager_fields_inv W
            (set_workspace_config agent_config (agent_manager (close_session u σ))))
    as Hm'.
  { destruct (inv_manager W _ Hinv) as [Hf _]. split; [done|].
    right. split; [done|]. by exists u. }
  destruct (create_session_creation W u agent_config now σ) as
    [?|? ?|e ? ? Ht|l e ? ? Ht Ha|l a ? ? Ht Ha]; simpl; try done.
  - destruct Hinv as [Hwf Hb Hact Hm]. split; try done.
    by eapply wf_ext; [| |exact Hwf].
  - destruct Hinv as [Hwf Hb Hact Hm]. split; try done.
    by eapply wf_ext; [| |exact Hwf].
  - pose proof (wf_create_session W u agent_config now σ) as Hwf'.
    pose proof (create_session_creation W u agent_config now σ) as Hcr.
    destruct Hinv as [Hwf Hb Hact Hm].
    assert (session ∉ dom (objects (close_session u σ))) as Hfresh.
    { rewrite dom_objects_close_session. apply is_fresh. }
    split; simpl.
    + split.
      * intros v r. unfold sessions; simpl. rewrite lookup_insert.
        case_decide as Huv.
        -- intros [= <-]. rewrite lookup_insert_eq. eexists. by split_and!.
        -- intros Hv. rewrite lookup_insert_ne; [by apply (wf_object _ Hwf)|].
           intros <-. destruct (wf_object _ Hwf v _ Hv) as (s & Hs & _).
           apply Hfresh, elem_of_dom. eauto.
      * intros v w r. unfold sessions; simpl. rewrite !lookup_insert.
        repeat case_decide; subst; try done.
        -- intros [= <-] Hw. destruct (wf_object _ Hwf w _ Hw) as (s & Hs & _).
           destruct Hfresh. apply elem_of_dom. eauto.
        -- intros Hv [= <-]. destruct (wf_object _ Hwf v _ Hv) as (s & Hs & _).
           destruct Hfresh. apply elem_of_dom. eauto.
        -- apply (wf_unshared _ Hwf).
    + intros r s. rewrite lookup_insert. case_decide as Hr; [|apply Hb].
      intros [= <-]. pose proof (accepted_prompt user Hadm) as Hp.
      destruct Hadm as (Hu & Hv & Hdb & Hauth).
      unfold _create_agent_for_user in Ha.
      destruct (agent_init W agent_config l); simpl in Ha; [|done].
      unfold mret, result_ret in Ha. simplify_eq.
      unfold session_tools in Ht.
      apply (load_mcp_server_inv _ _ _ _ _ (workspace_abspath W)) in Ht
        as (specs & _ & ->); [|done].
      split; simpl; try done.
      eexists. split_and!; try done.
      apply Forall_fmap, Forall_forall. intros i _. apply provisioned_timeout.
    + intros r s. rewrite lookup_insert. unfold sessions; simpl.
      case_decide as Hr.
      * intros [= <-] _. simpl. subst r. apply lookup_insert_eq.
      * intros Hs Has. specialize (Hact r s Hs Has).
        rewrite lookup_insert_ne; [done|].
        intros Heq. rewrite <-Heq, sessions_close_session_eq in Hact. done.
    + done.
Qed.

Lemma store_inv_login user now ts σ :
  store_inv W σ → store_inv W (login W user now ts σ).1.
Proof.
  intros Hinv. destruct (login_not_accepted user now ts σ) as [Hadm|[-> _]]; [|done].
  rewrite login_accepted, login_reply_state by done.
  by apply store_inv_create_session.
Qed.

Lemma reachable_store_inv σ : reachable W σ → store_inv W σ.
Proof.
  induction 1.
  - apply store_inv_init.
  - by apply store_inv_login.
  - by apply store_inv_close_session.
  - by apply store_inv_chat_begin.
  - by apply store_inv_chat_end.
  - by apply store_inv_close_sessions.
Qed.

End reachable_states.

Section reachable_properties.
Context (W : World).
Implicit Types (σ : Server) (u v username : string) (now : Z) (r : loc).

(** X1. Every state the server reaches satisfies [store_inv]: usernames are
    bound to distinct session objects carrying their own name; an object is
    active exactly as long as it is bound; every session object, bound or
    not, holds a history, a configuration that passed the checks of [login]
    (non-empty username, key, model and prompt, the server's workspace root,
    the sources [login] gives its username) and an agent made from that
    configuration whose tool servers all carry the timeout 100; and the
    manager fields are the initial ones or those of some login. *)
Theorem reachable_states_invariant σ : reachable W σ → store_inv W σ.
Proof. apply reachable_store_inv. Qed.

(** X2. A login that does not pass the field validation and the
    authentication (empty username or field, database failure, unknown user,
    wrong password) is answered 400 or 500 and changes nothing: an existing
    session of the username stays as it is. *)
Theorem login_refused_changes_nothing user now ts σ :
  ¬ accepted W user →
  (login W user now ts σ).1 = σ
  ∧ (status (login W user now ts σ).2 = 400%Z
     ∨ status (login W user now ts σ).2 = 500%Z).
Proof. intros Hn. by destruct (login_not_accepted W user now ts σ). Qed.

(** X3. [validate_login] on the rows the query returns: the first flag says
    that there is a row, the second that some row holds the given password;
    the second is never set without the first.  An exception of the query is
    passed on. *)
Theorem validate_login_flags username password :
  match select_user_login W username with
  | Raise e => validate_login W username password = Raise e
  | Ok rows =>
      ∃ pass_usr pass_pwd,
        validate_login W username password = Ok (pass_usr, pass_pwd)
        ∧ (pass_usr = true ↔ rows ≠ [])
        ∧ (pass_pwd = true ↔ ∃ row, row ∈ rows ∧ row.2 = password)
        ∧ (pass_pwd = true → pass_usr = true)
  end.
Proof.
  unfold validate_login. destruct (select_user_login W username) as [rows|e];
    [|done]. simpl.
  assert (existsb (λ row : string * string, String.eqb row.2 password) rows = true
          ↔ ∃ row, row ∈ rows ∧ row.2 = password) as Hex.
  { rewrite existsb_exists. split; intros (row & Hin & Heq); exists row.
    - split; [by apply list_elem_of_In|by apply String.eqb_eq].
    - split; [by apply list_elem_of_In|by apply String.eqb_eq]. }
  case_bool_decide as Hlen.
  - apply length_zero_iff_nil in Hlen as ->.
    exists false, false. split_and!; try done.
    all: split; [done|]; intros (row & Hin & _); by apply elem_of_nil in Hin.
  - assert (rows ≠ []) by (intros ->; done).
    destruct (existsb _ rows) eqn:He.
    + exists true, true. split_and!; try done.
      all: split; [intros _|done]; by apply Hex.
    + exists true, false. split_and!; try done.
      all: split; [done|]; intros Hrow%Hex; congruence.
Qed.

(** X4. In a reachable state [/chat] has three answers only: 404 when the
    username has no session; otherwise 200 with the backend's output when
    [agent.run] returns and 500 with its error when it raises.  The answer
    [智能体未正确初始化] never occurs.  Whatever the answer, [chat] leaves the
    bindings and the other manager fields as they were. *)
Theorem chat_answers user_message now ts σ :
  reachable W σ →
  agent_manager (chat W user_message now ts σ).1 = agent_manager σ
  ∧ match session_of σ (UserMessage.username user_message) with
    | None =>
        (chat W user_message now ts σ).2
        = HTTPException 404 "用户会话不存在，请重新登录"
    | Some s =>
        ∃ a, UserSession.agent s = Some a
             ∧ (chat W user_message now ts σ).2
               = match agent_run W a (UserMessage.message user_message)
                         (UserSession.history_context s) with
                 | Ok result =>
                     Return (AgentResponse.mk (AgentRunResult.output result) ts)
                 | Raise e => HTTPException 500 ("智能体处理错误: " +:+ str e)
                 end
    end.
Proof.
  intros Hwf%reachable_wf. unfold session_of.
  destruct (sessions σ !! UserMessage.username user_message) as [r|] eqn:Hu; simpl.
  - destruct (wf_object σ Hwf _ r Hu) as (s & Hr & _ & _ & [a Ha]).
    rewrite Hr, (chat_present W _ _ _ _ r s a) by done.
    destruct (agent_run W a _ _) eqn:Hrun; (split; [done|]);
      exists a; by rewrite Hrun.
  - by rewrite chat_absent.
Qed.

(** X5. After [/logout] for a username, whatever the state was, a chat call
    and a configuration request for it are answered 404 and the username is
    not among the active users, until it logs in again. *)
Theorem logout_ends_the_session u σ :
  (∀ user_message now ts,
     UserMessage.username user_message = u →
     chat W user_message now ts (logout u σ).1
     = ((logout u σ).1, HTTPException 404 "用户会话不存在，请重新登录"))
  ∧ get_user_config u (logout u σ).1 = HTTPException 404 "用户会话不存在"
  ∧ u ∉ get_active_users (logout u σ).1.
Proof.
  simpl. pose proof (sessions_close_session_eq u σ) as Hu. split_and!.
  - intros user_message now ts <-. by apply chat_absent.
  - unfold get_user_config, get_session. by rewrite Hu.
  - unfold get_active_users. rewrite list_elem_of_fmap.
    intros ([u' r] & -> & Hin%elem_of_map_to_list). simpl in *. congruence.
Qed.

End reachable_properties.

(** ** More on the idle sweep *)

Section sweeping.
Context (W : World).
Implicit Types (σ : Server) (u v username : string) (now : Z) (r : loc).

Lemma cleanup_keeps timeout current_time σ u r s :
  sessions σ !! u = Some r → objects σ !! r = Some s →
  ¬ (current_time - UserSession.last_active s > timeout)%Z →
  sessions (cleanup_inactive_sessions timeout current_time σ) !! u = Some r.
Proof.
  intros Hu Hr Hage. unfold cleanup_inactive_sessions.
  rewrite sessions_close_sessions, decide_False; [done|].
  intros (r' & s' & Hu' & Hr' & Hlt)%elem_of_inactive_users. by simplify_eq.
Qed.

Lemma inactive_users_after_cleanup timeout current_time σ :
  wf σ →
  inactive_users current_time timeout
    (cleanup_inactive_sessions timeout current_time σ) = [].
Proof.
  intros Hwf. apply elem_of_nil_inv. intros u.
  intros (r & s & Hu & Hr & Hlt)%elem_of_inactive_users.
  unfold cleanup_inactive_sessions in Hu, Hr.
  rewrite sessions_close_sessions in Hu. case_decide as Hin; [done|].
  rewrite objects_close_sessions in Hr.
  - apply Hin, elem_of_inactive_users. eauto.
  - intros v Hv Hv'. apply Hin.
    by rewrite <-(wf_unshared σ Hwf v u r Hv' Hu).
Qed.

(** X6. Activity protects from reaping.  In a reachable state, after a chat
    call for a bound username at time [now], whether the backend answered or
    failed, a sweep at a time [current_time] with
    [current_time - now <= timeout] leaves the username bound to its
    session. *)
Theorem chat_postpones_reaping user_message now ts timeout current_time σ r :
  reachable W σ →
  sessions σ !! UserMessage.username user_message = Some r →
  (current_time - now ≤ timeout)%Z →
  sessions (cleanup_inactive_sessions timeout current_time
              (chat W user_message now ts σ).1)
  !! UserMessage.username user_message = Some r.
Proof.
  intros Hwf%reachable_wf Hu Hage.
  destruct (wf_object σ Hwf _ r Hu) as (s & Hr & _ & _ & [a Ha]).
  rewrite (chat_present W _ _ _ _ r s a) by done.
  destruct (agent_run W a _ _) as [result|e]; simpl.
  - eapply cleanup_keeps; [done|apply lookup_insert_eq|simpl; lia].
  - eapply cleanup_keeps; [done|apply lookup_insert_eq|simpl; lia].
Qed.

(** X7. A sweep changes no manager field other than the session map, and
    sweeping again at the same time with the same threshold changes
    nothing. *)
Theorem cleanup_idempotent timeout current_time σ :
  wf σ →
  same_manager_fields σ (cleanup_inactive_sessions timeout current_time σ)
  ∧ cleanup_inactive_sessions timeout current_time
      (cleanup_inactive_sessions timeout current_time σ)
    = cleanup_inactive_sessions timeout current_time σ.
Proof.
  intros Hwf. split.
  - apply manager_fields_close_sessions.
  - unfold cleanup_inactive_sessions at 1.
    by rewrite inactive_users_after_cleanup.
Qed.

End sweeping.

(** ** More on provisioning *)

Section provisioning_failures.
Context (W : World).
Implicit Types (self : AgentManager.t) (u : string) (i : MCPServer).

Lemma stamp_server_Ok_inv self u timeout root i i' :
  AgentManager.workspace_root self = Some root →
  stamp_server W self u timeout i = Ok i' →
  server_args i !! 1%nat = Some (AgentManager.filesystem_mcp_name self) →
  (2 < length (server_args i))%nat ∧ os_makedirs W (user_workspace root u) = Ok ().
Proof.
  intros Hroot Hs Hfs. unfold stamp_server in Hs.
  apply is_filesystem_server_spec in Hfs. rewrite Hfs, Hroot in Hs.
  fold (user_workspace root u) in Hs.
  destruct (os_makedirs W (user_workspace root u)) as [[]|]; [|done].
  simpl in Hs. unfold setitem in Hs. by case_bool_decide.
Qed.

Lemma stamp_servers_Ok_inv self u timeout root l acc l' :
  AgentManager.workspace_root self = Some root →
  stamp_servers W self u timeout l acc = Ok l' →
  ∀ i, i ∈ l →
    server_args i !! 1%nat = Some (AgentManager.filesystem_mcp_name self) →
    (2 < length (server_args i))%nat ∧ os_makedirs W (user_workspace root u) = Ok ().
Proof.
  intros Hroot. revert acc. induction l as [|j l IH]; intros acc Hs i Hi.
  - by apply elem_of_nil in Hi.
  - simpl in Hs. destruct (stamp_server W self u timeout j) as [j'|] eqn:Hj; [|done].
    apply elem_of_cons in Hi as [->|Hi].
    + by apply (stamp_server_Ok_inv self u timeout root j j').
    + by apply (IH _ Hs).
Qed.

(** X8. When [load_mcp_server] returns, every source loaded, every spec
    naming the filesystem tool had a third argument and its directory could be
    created, and the result is the provisioned concatenation: as many servers
    as the sources declare, each carrying the timeout. *)
Theorem load_mcp_server_returns_only_provisioned self u configs timeout root l :
  AgentManager.workspace_root self = Some root →
  load_mcp_server W self u configs timeout = Ok l →
  ∃ specs,
    Forall2 (λ config servers, load_mcp_servers W config = Ok servers) configs specs
    ∧ (∀ i, i ∈ concat specs →
            server_args i !! 1%nat = Some (AgentManager.filesystem_mcp_name self) →
            (2 < length (server_args i))%nat
            ∧ os_makedirs W (user_workspace root u) = Ok ())
    ∧ l = provisioned (AgentManager.filesystem_mcp_name self) root u timeout
          <$> concat specs
    ∧ length l = length (concat specs)
    ∧ Forall (λ i, server_timeout i = timeout) l.
Proof.
  intros Hroot Hl.
  destruct (load_mcp_server_inv W _ _ _ _ root _ Hroot Hl) as (specs & HF & ->).
  exists specs. split_and!; try done.
  - unfold load_mcp_server in Hl.
    rewrite (load_configs_ok W _ specs) in Hl by done. simpl in Hl.
    by apply (stamp_servers_Ok_inv _ _ _ _ _ _ _ Hroot Hl).
  - by rewrite length_fmap.
  - apply Forall_fmap, Forall_forall. intros i _. apply provisioned_timeout.
Qed.

Lemma load_configs_raise pre config post specs e acc :
  Forall2 (λ config servers, load_mcp_servers W config = Ok servers) pre specs →
  load_mcp_servers W config = Raise e →
  load_configs W (pre ++ config :: post) acc = Raise e.
Proof.
  intros HF He. revert acc. induction HF as [|c servers pre specs Hc _ IH];
    intros acc; simpl.
  - by rewrite He.
  - rewrite Hc. simpl. apply IH.
Qed.

(** X9. A source that cannot be loaded aborts provisioning: when the sources
    before it load, [load_mcp_server] raises the exception of the first
    source that fails, whatever follows it. *)
Theorem load_mcp_server_first_failure self u pre config post specs timeout e :
  Forall2 (λ config servers, load_mcp_servers W config = Ok servers) pre specs →
  load_mcp_servers W config = Raise e →
  load_mcp_server W self u (pre ++ config :: post) timeout = Raise e.
Proof.
  intros HF He. unfold load_mcp_server.
  by rewrite (load_configs_raise _ _ _ specs e).
Qed.

Lemma stamp_server_short self u timeout root i :
  AgentManager.workspace_root self = Some root →
  os_makedirs W (user_workspace root u) = Ok () →
  (∃ i', stamp_server W self u timeout i = Ok i')
  ∨ stamp_server W self u timeout i
    = Raise (IndexError "list assignment index out of range").
Proof.
  intros Hroot Hmk. unfold stamp_server.
  destruct (is_filesystem_server self i); simpl; [|by eauto].
  rewrite Hroot. fold (user_workspace root u). rewrite Hmk. simpl.
  unfold setitem. case_bool_decide; simpl; eauto.
Qed.

Lemma stamp_servers_short self u timeout root l acc :
  AgentManager.workspace_root self = Some root →
  os_makedirs W (user_workspace root u) = Ok () →
  (∃ i, i ∈ l
        ∧ server_args i !! 1%nat = Some (AgentManager.filesystem_mcp_name self)
        ∧ length (server_args i) = 2%nat) →
  stamp_servers W self u timeout l acc
  = Raise (IndexError "list assignment index out of range").
Proof.
  intros Hroot Hmk. revert acc. induction l as [|j l IH]; intros acc (i & Hi & Hfs & Hlen).
  - by apply elem_of_nil in Hi.
  - simpl. destruct (stamp_server_short self u timeout root j Hroot Hmk)
      as [[j' Hj]| ->]; [|done].
    rewrite Hj. simpl. apply elem_of_cons in Hi as [->|Hi].
    + destruct (stamp_server_Ok_inv _ _ _ _ _ _ Hroot Hj Hfs). lia.
    + apply IH. eauto.
Qed.

(** X10. A filesystem entry without the directory argument aborts
    provisioning: when the sources load, the workspace root is set and the
    directory can be created, a spec whose arguments are exactly two, the
    second being the filesystem tool's identifier, makes [load_mcp_server]
    raise [IndexError] (the guard tests [len(i.args) > 1], the assignment
    writes [i.args[2]]). *)
Theorem load_mcp_server_short_filesystem_args self u configs timeout root specs :
  AgentManager.workspace_root self = Some root →
  os_makedirs W (user_workspace root u) = Ok () →
  Forall2 (λ config servers, load_mcp_servers W config = Ok servers) configs specs →
  (∃ i, i ∈ concat specs
        ∧ server_args i !! 1%nat = Some (AgentManager.filesystem_mcp_name self)
        ∧ length (server_args i) = 2%nat) →
  load_mcp_server W self u configs timeout
  = Raise (IndexError "list assignment index out of range").
Proof.
  intros Hroot Hmk HF Hbad. unfold load_mcp_server.
  rewrite (load_configs_ok W _ specs) by done. simpl.
  by apply (stamp_servers_short _ _ _ root).
Qed.

End provisioning_failures.

(** ** A chat call whose session is closed while it awaits the backend *)

Section detached.
Context (W : World).
Implicit Types (σ : Server) (u v username : string) (now : Z) (r : loc).




End detached.

(** ** Listing, health and configuration endpoints *)

Section listing.
Context (W : World).
Implicit Types (σ : Server) (u v username : string) (r : loc) (s t : string).

Lemma len_app s t : len (s +:+ t) = (len s + len t)%nat.
Proof.
  induction s as [|a s IH]; simpl; [done|].
  destruct (is_continuation_byte a); simpl; by rewrite IH.
Qed.

Lemma len_slice_to n s : len (slice_to n s) = (n `min` len s)%nat.
Proof.
  revert n. induction s as [|a s IH]; intros n; simpl.
  - by rewrite Nat.min_0_r.
  - destruct (is_continuation_byte a) eqn:Ha; simpl.
    + by rewrite Ha, IH.
    + destruct n as [|n]; simpl; [done|]. by rewrite Ha, IH.
Qed.

Lemma slice_to_prefix n s : ∃ rest, s = slice_to n s +:+ rest.
Proof.
  revert n. induction s as [|a s IH]; intros n; simpl.
  - by exists "".
  - destruct (is_continuation_byte a).
    + destruct (IH n) as [rest Hrest]. exists rest.
      change (String a s = String a (slice_to n s +:+ rest)). by f_equal.
    + destruct n as [|n]; [by eexists|].
      destruct (IH n) as [rest Hrest]. exists rest.
      change (String a s = String a (slice_to n s +:+ rest)). by f_equal.
Qed.

Lemma slice_to_all n s : (len s ≤ n)%nat → slice_to n s = s.
Proof.
  revert n. induction s as [|a s IH]; intros n; simpl; [done|].
  destruct (is_continuation_byte a).
  - intros Hn. by rewrite IH.
  - destruct n as [|n]; [lia|]. intros Hn. rewrite IH; [done|lia].
Qed.

Lemma users_usernames isoformat σ :
  wf σ → UserInfo.username <$> users isoformat σ = get_active_users σ.
Proof.
  intros Hwf. unfold users, get_active_users.
  assert (Forall (λ item : string * loc, is_Some (objects σ !! item.2))
            (map_to_list (sessions σ))) as Hall.
  { apply Forall_forall. intros [u r] Hin%elem_of_map_to_list. simpl.
    destruct (wf_object σ Hwf u r Hin) as (s & Hs & _). by exists s. }
  induction Hall as [|[u r] l [s Hs] _ IH]; [done|].
  cbn [omap list_omap fmap list_fmap fst snd]. simpl in Hs. rewrite Hs.
  cbn [mbind option_bind fmap list_fmap UserInfo.username]. by f_equal.
Qed.

(** X12. The listing endpoints agree with the store.  In a store that
    satisfies [wf], [/users] has one entry per bound username and no two for
    the same name, [/health] reports their number, a username is listed
    exactly when it is bound, and each entry shows the session's model name
    and the flag [is_active = true]: a closed session is never listed. *)
Theorem users_lists_the_bound_sessions isoformat ts σ :
  wf σ →
  length (users isoformat σ) = Health.active_users (health_check ts σ)
  ∧ NoDup (UserInfo.username <$> users isoformat σ)
  ∧ (∀ u, u ∈ (UserInfo.username <$> users isoformat σ)
          ↔ is_Some (sessions σ !! u))
  ∧ (∀ u, u ∈ get_active_users σ ↔ is_Some (sessions σ !! u))
  ∧ ∀ info, info ∈ users isoformat σ →
      UserInfo.is_active info = true
      ∧ ∃ session,
          session_of σ (UserInfo.username info) = Some session
          ∧ UserInfo.model_name info
            = AgentConfig.model_name (UserSession.agent_config session)
          ∧ UserInfo.last_active info
            = isoformat (UserSession.last_active session).
Proof.
  intros Hwf.
  assert (∀ u, u ∈ get_active_users σ ↔ is_Some (sessions σ !! u)) as Hmem.
  { intros u. unfold get_active_users. rewrite list_elem_of_fmap. split.
    - intros ([u' r] & -> & Hin%elem_of_map_to_list). by exists r.
    - intros [r Hr]. exists (u, r). split; [done|]. by apply elem_of_map_to_list. }
  split_and!.
  - rewrite <-(length_fmap UserInfo.username), users_usernames by done.
    unfold get_active_users, health_check. simpl.
    by rewrite length_fmap, length_map_to_list.
  - rewrite users_usernames by done. apply NoDup_fst_map_to_list.
  - intros u. by rewrite users_usernames.
  - done.
  - intros info. unfold users. rewrite list_elem_of_omap.
    intros ([u r] & Hin%elem_of_map_to_list & Hinfo). simpl in Hinfo.
    destruct (wf_object σ Hwf u r Hin) as (s & Hs & _ & Hact & _).
    rewrite Hs in Hinfo. simpl in Hinfo. simplify_eq. simpl.
    split; [done|]. exists s. split_and!; try done.
    unfold session_of. rewrite Hin. done.
Qed.

(** X13. [/user_config] answers 404 for a username without a session;
    otherwise it shows the session's model name and base URL, and the system
    prompt as it is when it has at most 100 characters, else its first 100
    characters followed by [...]: the prompt shown never exceeds 103
    characters. *)
Theorem user_config_shows_at_most_103_characters u σ :
  match session_of σ u with
  | None => get_user_config u σ = HTTPException 404 "用户会话不存在"
  | Some session =>
      let prompt := AgentConfig.system_prompt (UserSession.agent_config session) in
      ∃ shown,
        get_user_config u σ
        = Return (UserConfig.mk u
                    (AgentConfig.model_name (UserSession.agent_config session))
                    (AgentConfig.base_url (UserSession.agent_config session))
                    shown)
        ∧ (len shown ≤ 103)%nat
        ∧ ((len prompt ≤ 100)%nat → shown = prompt)
        ∧ ((100 < len prompt)%nat →
           shown = slice_to 100 prompt +:+ "..."
           ∧ len (slice_to 100 prompt) = 100%nat
           ∧ len shown = 103%nat
           ∧ ∃ rest, prompt = slice_to 100 prompt +:+ rest)
  end.
Proof.
  unfold get_user_config, get_session. fold (session_of σ u).
  destruct (session_of σ u) as [session|]; [|done]. simpl.
  set (prompt := AgentConfig.system_prompt (UserSession.agent_config session)).
  eexists. split; [done|]. unfold shown_prompt.
  destruct (Nat.ltb_spec 100 (len prompt)) as [Hlong|Hshort].
  - assert (len (slice_to 100 prompt) = 100%nat) as Hs
      by (rewrite len_slice_to; lia).
    assert (len (slice_to 100 prompt +:+ "...") = 103%nat) as Hl
      by (rewrite len_app, Hs; done).
    split_and!; [lia|lia|]. intros _. split_and!; try done.
    apply slice_to_prefix.
  - split_and!; [lia|done|lia].
Qed.

End listing.

(** ** What a successful login leaves behind *)

Section login_effects.
Context (W : World).
Implicit Types (σ : Server) (u v username : string) (now : Z) (r : loc).

(** X14. What [/login] stores is what the other endpoints give back.  After
    a successful login, [/user_config] for the username shows the model name
    and the base URL of the request and its system prompt (cut as
    [/user_config] cuts it); the session map is the previous one with the
    username bound to a new object; and [/health] counts one user more when
    the username had no session and as many as before when it had one. *)
Theorem login_records_the_request user now ts ts' σ σ' reply :
  login W user now ts σ = (σ', Return reply) →
  get_user_config (UserLogin.username user) σ'
  = Return (UserConfig.mk (UserLogin.username user) (UserLogin.model_name user)
              (UserLogin.base_url user)
              (shown_prompt (UserLogin.system_prompt user)))
  ∧ sessions σ' = <[UserLogin.username user := fresh (dom (objects σ))]> (sessions σ)
  ∧ Health.active_users (health_check ts' σ')
    = match sessions σ !! UserLogin.username user with
      | Some _ => Health.active_users (health_check ts' σ)
      | None => S (Health.active_users (health_check ts' σ))
      end.
Proof.
  intros (l & a & _ & _ & Hs & Hother & Ho)%login_Return_session.
  set (u := UserLogin.username user) in *.
  assert (sessions σ' = <[u := fresh (dom (objects σ))]> (sessions σ)) as Heq.
  { apply map_eq. intros v. destruct (decide (u = v)) as [<-|Hne].
    - by rewrite lookup_insert_eq.
    - rewrite lookup_insert_ne by done. by apply Hother. }
  split_and!; [|done|].
  - unfold get_user_config, get_session. rewrite Hs. simpl.
    by rewrite Ho, lookup_insert_eq.
  - unfold health_check. simpl. rewrite Heq, map_size_insert.
    by destruct (sessions σ !! u).
Qed.

Lemma append_inj_r (s a b : string) : s +:+ a = s +:+ b → a = b.
Proof.
  induction s as [|c s IH]; [done|].
  change (String c (s +:+ a) = String c (s +:+ b) → a = b).
  intros [= H]. by apply IH.
Qed.

Lemma user_workspace_inj root u v :
  user_workspace root u = user_workspace root v → u = v.
Proof.
  unfold user_workspace. by intros ?%append_inj_r%append_inj_r.
Qed.

(** X15. Workspaces of distinct users.  When provisioning a filesystem
    spec succeeds for two distinct usernames, each result has the user's own
    workspace path [{workspace_root}/workspace_{username}] as its third
    argument, and the two paths differ. *)
Theorem filesystem_roots_differ self u v timeout i iu iv :
  u ≠ v →
  server_args i !! 1%nat = Some (AgentManager.filesystem_mcp_name self) →
  stamp_server W self u timeout i = Ok iu →
  stamp_server W self v timeout i = Ok iv →
  ∃ root,
    AgentManager.workspace_root self = Some root
    ∧ server_args iu !! 2%nat = Some (user_workspace root u)
    ∧ server_args iv !! 2%nat = Some (user_workspace root v)
    ∧ server_args iu !! 2%nat ≠ server_args iv !! 2%nat.
Proof.
  intros Hne Hfs Hu Hv.
  destruct (AgentManager.workspace_root self) as [root|] eqn:Hroot.
  - exists root.
    destruct (stamp_server_Ok_inv W self u timeout root i iu Hroot Hu Hfs) as [Hlen _].
    apply (stamp_server_inv W _ _ _ root) in Hu as ->; [|done].
    apply (stamp_server_inv W _ _ _ root) in Hv as ->; [|done].
    destruct i as [command args t|url t]; simpl in *; [|done].
    rewrite !bool_decide_true by done. simpl.
    rewrite !list_lookup_insert_eq by done.
    split_and!; try done. intros [= Heq]. by apply Hne, (user_workspace_inj root).
  - unfold stamp_server in Hu. apply is_filesystem_server_spec in Hfs.
    by rewrite Hfs, Hroot in Hu.
Qed.

End login_effects.

(** ** Helpers of the document tools *)

Section workspace_check.

Lemma prefix_append (workspace file : string) :
  String.prefix workspace file = true ↔ ∃ rest, file = workspace +:+ rest.
Proof.
  revert file. induction workspace as [|c workspace IH]; intros [|d file]; simpl.
  - split; [intros _; by exists ""|done].
  - split; [intros _; by exists (String d file)|done].
  - split; [done|]. intros [rest Hrest].
    change (EmptyString = String c (workspace +:+ rest)) in Hrest. done.
  - destruct (Ascii.ascii_dec c d) as [->|Hne].
    + rewrite IH. split; intros [rest Hrest]; exists rest.
      * change (String d file = String d (workspace +:+ rest)). by f_equal.
      * change (String d file = String d (workspace +:+ rest)) in Hrest.
        by simplify_eq.
    + split; [done|]. intros [rest Hrest].
      change (String d file = String c (workspace +:+ rest)) in Hrest.
      by simplify_eq.
Qed.

Lemma append_assoc (a b c : string) : (a +:+ b) +:+ c = a +:+ (b +:+ c).
Proof.
  induction a as [|x a IH]; [done|].
  change (String x ((a +:+ b) +:+ c) = String x (a +:+ (b +:+ c))). by f_equal.
Qed.

(** X16. The workspace check compares strings, not path components.
    [is_file_within_workspace] accepts a file exactly when both paths resolve
    and the resolved file path begins with the characters of the resolved
    workspace path.  So it accepts the files of the workspace, and also those
    of a sibling directory whose name extends the workspace's: for
    workspaces laid out as [workspace_{username}], a file of the user
    [u ++ suffix] passes the check against the workspace of the user [u]. *)
Theorem is_file_within_workspace_prefix (resolve : string → result string)
    (file_path workspace_path : string) :
  (is_file_within_workspace resolve file_path workspace_path = true
   ↔ ∃ workspace rest,
       resolve workspace_path = Ok workspace
       ∧ resolve file_path = Ok (workspace +:+ rest))
  ∧ ∀ root u suffix name,
      workspace_path = user_workspace root u →
      file_path = user_workspace root (u +:+ suffix) +:+ "/" +:+ name →
      resolve workspace_path = Ok workspace_path →
      resolve file_path = Ok file_path →
      is_file_within_workspace resolve file_path workspace_path = true.
Proof.
  assert (is_file_within_workspace resolve file_path workspace_path = true
          ↔ ∃ workspace rest,
              resolve workspace_path = Ok workspace
              ∧ resolve file_path = Ok (workspace +:+ rest)) as Hiff.
  { unfold is_file_within_workspace.
    destruct (resolve file_path) as [file|e]; [|split; [done|by intros (?&?&?&?)]].
    destruct (resolve workspace_path) as [workspace|e];
      [|split; [done|by intros (?&?&?&?)]].
    rewrite prefix_append. split.
    - intros [rest ->]. by exists workspace, rest.
    - intros (w & rest & [= <-] & [= ->]). by exists rest. }
  split; [done|].
  intros root u suffix name -> -> Hw Hf. apply Hiff.
  exists (user_workspace root u), (suffix +:+ "/" +:+ name). split; [done|].
  rewrite Hf. f_equal. unfold user_workspace. by rewrite !append_assoc.
Qed.

End workspace_check.

Section lines.
Context {char : Type} `{EqDecision char} (newline : char) (isspace : char → bool).
Implicit Types (text : list char) (position : nat).
Local Open Scope list_scope.

Lemma find_newline_None text : find_newline newline text = None → newline ∉ text.
Proof.
  induction text as [|c text IH]; simpl; [intros _; apply not_elem_of_nil|].
  case_decide as Hc; [done|].
  destruct (find_newline newline text); [done|]. intros _.
  apply not_elem_of_cons. split; [done|by apply IH].
Qed.

Lemma find_newline_Some text j :
  find_newline newline text = Some j →
  (newline ∉ take j text) ∧ text !! j = Some newline.
Proof.
  revert j. induction text as [|c text IH]; intros j; simpl; [done|].
  case_decide as Hc.
  - intros [= <-]. subst c. split; [apply not_elem_of_nil|done].
  - destruct (find_newline newline text) as [j'|]; [|done]. simpl.
    intros [= <-]. destruct (IH j' eq_refl) as [Hno Hj]. simpl.
    split; [|done]. apply not_elem_of_cons. by split.
Qed.

Lemma rfind_newline_None text : rfind_newline newline text = None → newline ∉ text.
Proof.
  induction text as [|c text IH]; simpl; [intros _; apply not_elem_of_nil|].
  destruct (rfind_newline newline text); [done|].
  case_decide as Hc; [done|]. intros _.
  apply not_elem_of_cons. split; [done|by apply IH].
Qed.

Lemma rfind_newline_Some text i :
  rfind_newline newline text = Some i →
  (newline ∉ drop (S i) text) ∧ text !! i = Some newline.
Proof.
  revert i. induction text as [|c text IH]; intros i; simpl; [done|].
  destruct (rfind_newline newline text) as [i'|] eqn:Hr.
  - intros [= <-]. by apply IH.
  - case_decide as Hc; [|done]. intros [= <-]. subst c. simpl.
    split; [|done]. rewrite drop_0. by apply rfind_newline_None.
Qed.

Lemma lstrip_spec text :
  ∃ spaces, text = spaces ++ lstrip isspace text
            ∧ ∀ c rest, lstrip isspace text = c :: rest → isspace c = false.
Proof.
  induction text as [|c text (spaces & Heq & Hhead)]; simpl.
  - exists []. by split.
  - destruct (isspace c) eqn:Hc.
    + exists (c :: spaces). split; [simpl; by f_equal|done].
    + exists []. split; [done|]. by intros ? ? [= <- <-].
Qed.

Lemma strip_spec text :
  (∃ before after, text = before ++ strip isspace text ++ after)
  ∧ (∀ c rest, strip isspace text = c :: rest → isspace c = false)
  ∧ (∀ front c, strip isspace text = front ++ [c] → isspace c = false).
Proof.
  unfold strip.
  destruct (lstrip_spec text) as (before & Hbefore & Hhead).
  destruct (lstrip_spec (reverse (lstrip isspace text))) as (after & Hafter & Hlast).
  set (m := lstrip isspace text) in *.
  set (n := lstrip isspace (reverse m)) in *.
  assert (m = reverse n ++ reverse after) as Hm.
  { rewrite <-reverse_app, <-Hafter. by rewrite reverse_involutive. }
  split_and!.
  - exists before, (reverse after). by rewrite <-Hm.
  - intros c rest Hrev. destruct (reverse n) as [|c' rest'] eqn:Hn; [done|].
    simplify_eq. apply (Hhead c (rest ++ reverse after)). by rewrite Hm.
  - intros front c Hrev. apply (Hlast c (reverse front)).
    rewrite <-(reverse_involutive n), Hrev, reverse_app. done.
Qed.

(** The line before [strip]: the characters between the last newline before
    [position] and the first newline from [position] on. *)
Lemma line_slice text position :
  let line_start :=
    match rfind newline text position with
    | None => 0%nat
    | Some line_start => (line_start + 1)%nat
    end in
  let line_end :=
    match find newline text position with
    | None => length text
    | Some line_end => line_end
    end in
  ∃ before after,
    text = before ++ slice text line_start line_end ++ after
    ∧ (newline ∉ slice text line_start line_end)
    ∧ (before = [] ∨ ∃ front, before = front ++ [newline])
    ∧ (after = [] ∨ ∃ rest, after = newline :: rest)
    ∧ length before = line_start
    ∧ (line_start ≤ position)%nat
    ∧ ((position ≤ length text)%nat →
       (position ≤ length before + length (slice text line_start line_end))%nat).
Proof.
  intros line_start line_end.
  set (A := take position text). set (B := drop position text).
  assert (text = A ++ B) as Htext by (symmetry; apply take_drop).
  assert (length A = position `min` length text)%nat as HlenA
    by apply length_take.
  set (endB := match find_newline newline B with Some j => j | None => length B end).
  assert (line_end = length A + endB)%nat as Hend.
  { subst line_end endB. unfold find. fold B.
    destruct (find_newline newline B) as [j|] eqn:Hj; simpl.
    - apply find_newline_Some in Hj as [_ Hj%lookup_lt_Some].
      subst B. rewrite length_drop in Hj. lia.
    - subst B. rewrite length_drop. lia. }
  assert (line_start ≤ length A)%nat as Hstart.
  { subst line_start. unfold rfind. fold A.
    destruct (rfind_newline newline A) as [i|] eqn:Hi; [|lia].
    apply rfind_newline_Some in Hi as [_ Hi%lookup_lt_Some]. lia. }
  assert (slice text line_start line_end = drop line_start A ++ take endB B) as Hslice.
  { unfold slice. rewrite Hend, Htext at 1.
    rewrite drop_app_le by done.
    replace (length A + endB - line_start)%nat
      with (length (drop line_start A) + endB)%nat by (rewrite length_drop; lia).
    apply take_app_add. }
  exists (take line_start A), (drop endB B). rewrite Hslice. split_and!.
  - rewrite app_assoc, (app_assoc (take _ _)), take_drop, <-app_assoc, take_drop.
    done.
  - apply not_elem_of_app. split.
    + subst line_start. unfold rfind. fold A.
      destruct (rfind_newline newline A) as [i|] eqn:Hi.
      * rewrite Nat.add_1_r. by apply rfind_newline_Some in Hi as [? _].
      * rewrite drop_0. by apply rfind_newline_None.
    + subst endB. destruct (find_newline newline B) as [j|] eqn:Hj.
      * by apply find_newline_Some in Hj as [? _].
      * rewrite take_ge by done. by apply find_newline_None.
  - subst line_start. unfold rfind. fold A.
    destruct (rfind_newline newline A) as [i|] eqn:Hi; [|by left].
    right. apply rfind_newline_Some in Hi as [_ Hi]. exists (take i A).
    rewrite Nat.add_1_r. by apply take_S_r.
  - subst endB. destruct (find_newline newline B) as [j|] eqn:Hj.
    + right. apply find_newline_Some in Hj as [_ Hj]. exists (drop (S j) B).
      by apply drop_S.
    + left. by rewrite drop_all.
  - rewrite length_take. lia.
  - lia.
  - intros Hp. rewrite length_take, length_app, length_drop. lia.
Qed.

(** X17. [extract_line_from_text] returns the line of the text around
    [position], stripped.  The text is [before], the line, [after], where
    the line holds no newline, [before] is empty or ends with a newline and
    has at most [position] characters, [after] is empty or begins with a
    newline, and, for a position inside the text, [before] and the line
    together reach [position].  The result is this line without the
    whitespace at its two ends: it begins and ends with a character that is
    not whitespace (or is empty), holds no newline, and is a contiguous part
    of the text. *)
Theorem extract_line_from_text_is_the_line text position :
  ∃ before line after,
    text = before ++ line ++ after
    ∧ (newline ∉ line)
    ∧ (before = [] ∨ ∃ front, before = front ++ [newline])
    ∧ (after = [] ∨ ∃ rest, after = newline :: rest)
    ∧ (length before ≤ position)%nat
    ∧ ((position ≤ length text)%nat → (position ≤ length before + length line)%nat)
    ∧ extract_line_from_text newline isspace text position = strip isspace line
    ∧ (∃ left right,
         line = left ++ extract_line_from_text newline isspace text position ++ right)
    ∧ (newline ∉ extract_line_from_text newline isspace text position)
    ∧ (∀ c rest, extract_line_from_text newline isspace text position = c :: rest →
                 isspace c = false)
    ∧ (∀ front c, extract_line_from_text newline isspace text position = front ++ [c] →
                  isspace c = false).
Proof.
  destruct (line_slice text position)
    as (before & after & Htext & Hno & Hbefore & Hafter & Hlen & Hle & Hreach).
  unfold extract_line_from_text.
  set (line := slice text _ _) in *.
  destruct (strip_spec line) as ((left & right & Hline) & Hhead & Hlast).
  exists before, line, after. split_and!; try done.
  - lia.
  - by exists left, right.
  - intros Hin. apply Hno. rewrite Hline.
    apply elem_of_app. right. apply elem_of_app. by left.
Qed.

End lines.

(** ** Worked runs of the further properties *)

Lemma reachable_alice_logged_in : reachable sample_world alice_logged_in.
Proof. unfold alice_logged_in. apply reachable_login, reachable_init. Defined.

Lemma reachable_alice_and_bob : reachable sample_world alice_and_bob.
Proof.
  unfold alice_and_bob. apply reachable_login, reachable_login, reachable_init.
Defined.

Lemma reachable_states_witness :
  reachable sample_world alice_and_bob ∧ store_inv sample_world alice_and_bob.
Proof.
  split; [exact reachable_alice_and_bob|].
  exact (reachable_states_invariant sample_world alice_and_bob
           reachable_alice_and_bob).
Defined.

Lemma login_refused_witness :
  ¬ accepted sample_world alice_wrong_password
  ∧ (login sample_world alice_wrong_password 60 "t60" alice_logged_in).1
    = alice_logged_in
  ∧ status (login sample_world alice_wrong_password 60 "t60" alice_logged_in).2
    = 400%Z.
Proof.
  assert (¬ accepted sample_world alice_wrong_password) as Hn.
  { intros (_ & _ & _ & Hauth). vm_compute in Hauth. discriminate Hauth. }
  split; [exact Hn|].
  destruct (login_refused_changes_nothing sample_world alice_wrong_password 60
              "t60" alice_logged_in Hn) as [Hstate _].
  split; [exact Hstate|]. vm_compute. reflexivity.
Defined.

Lemma chat_answers_witness :
  reachable sample_world alice_logged_in
  ∧ agent_manager
      (chat sample_world (UserMessage.mk "alice" "hi") 20 "t20" alice_logged_in).1
    = agent_manager alice_logged_in.
Proof.
  split; [exact reachable_alice_logged_in|].
  exact (proj1 (chat_answers sample_world (UserMessage.mk "alice" "hi") 20 "t20"
                  alice_logged_in reachable_alice_logged_in)).
Defined.

Lemma logout_witness :
  chat sample_world (UserMessage.mk "alice" "hi") 20 "t20"
    (logout "alice" alice_logged_in).1
  = ((logout "alice" alice_logged_in).1,
     HTTPException 404 "用户会话不存在，请重新登录").
Proof.
  destruct (logout_ends_the_session sample_world "alice" alice_logged_in)
    as (H & _ & _).
  exact (H (UserMessage.mk "alice" "hi") 20%Z "t20" eq_refl).
Defined.

Lemma chat_postpones_reaping_witness :
  reachable sample_world alice_logged_in
  ∧ sessions alice_logged_in !! "alice" = Some 0%nat
  ∧ (1820 - 20 ≤ 1800)%Z
  ∧ sessions (cleanup_inactive_sessions 1800 1820
                (chat sample_world (UserMessage.mk "alice" "hi") 20 "t20"
                   alice_logged_in).1) !! "alice" = Some 0%nat.
Proof.
  assert (sessions alice_logged_in !! "alice" = Some 0%nat) as Hs
    by (vm_compute; reflexivity).
  assert (1820 - 20 ≤ 1800)%Z as Hage by lia.
  split; [exact reachable_alice_logged_in|]. split; [exact Hs|]. split; [exact Hage|].
  exact (chat_postpones_reaping sample_world (UserMessage.mk "alice" "hi") 20 "t20"
           1800 1820 alice_logged_in 0%nat reachable_alice_logged_in Hs Hage).
Defined.

Lemma cleanup_idempotent_witness :
  wf alice_and_bob
  ∧ cleanup_inactive_sessions 1800 1850 (cleanup_inactive_sessions 1800 1850 alice_and_bob)
    = cleanup_inactive_sessions 1800 1850 alice_and_bob.
Proof.
  split; [exact wf_alice_and_bob|].
  exact (proj2 (cleanup_idempotent 1800 1850 alice_and_bob wf_alice_and_bob)).
Defined.

Lemma load_mcp_server_returns_witness :
  AgentManager.workspace_root sample_manager = Some "/srv/workspace"
  ∧ load_mcp_server sample_world sample_manager "alice" (login_mcp_configs "alice") 100
    = Ok (Agent.toolsets (sample_agent "alice"))
  ∧ ∃ specs,
      Forall2 (λ config servers, load_mcp_servers sample_world config = Ok servers)
        (login_mcp_configs "alice") specs
      ∧ length (Agent.toolsets (sample_agent "alice")) = length (concat specs).
Proof.
  assert (load_mcp_server sample_world sample_manager "alice"
            (login_mcp_configs "alice") 100
          = Ok (Agent.toolsets (sample_agent "alice"))) as Hl
    by (vm_compute; reflexivity).
  split; [reflexivity|]. split; [exact Hl|].
  destruct (load_mcp_server_returns_only_provisioned sample_world sample_manager
              "alice" _ 100 "/srv/workspace" _ eq_refl Hl)
    as (specs & HF & _ & _ & Hlen & _).
  by exists specs.
Defined.

Lemma load_mcp_server_first_failure_witness :
  Forall2 (λ config servers, load_mcp_servers world_missing_source config = Ok servers)
    ["./config/mcp_config_base.json"] [[filesystem_server]]
  ∧ load_mcp_servers world_missing_source "./config/mcp_config_office.json"
    = Raise (OSError "No such file or directory")
  ∧ load_mcp_server world_missing_source sample_manager "admin"
      (["./config/mcp_config_base.json"]
       ++ "./config/mcp_config_office.json" :: ["./config/mcp_config_map.json"])%list
      100
    = Raise (OSError "No such file or directory").
Proof.
  assert (Forall2 (λ config servers,
                     load_mcp_servers world_missing_source config = Ok servers)
            ["./config/mcp_config_base.json"] [[filesystem_server]]) as HF
    by (repeat constructor).
  split; [exact HF|]. split; [reflexivity|].
  exact (load_mcp_server_first_failure world_missing_source sample_manager "admin"
           ["./config/mcp_config_base.json"] "./config/mcp_config_office.json"
           ["./config/mcp_config_map.json"] [[filesystem_server]] 100
           (OSError "No such file or directory") HF eq_refl).
Defined.

Lemma load_mcp_server_short_args_witness :
  AgentManager.workspace_root sample_manager = Some "/srv/workspace"
  ∧ os_makedirs world_short_args (user_workspace "/srv/workspace" "alice") = Ok ()
  ∧ load_mcp_server world_short_args sample_manager "alice"
      ["./config/mcp_config_base.json"] 100
    = Raise (IndexError "list assignment index out of range").
Proof.
  split; [reflexivity|]. split; [reflexivity|].
  apply (load_mcp_server_short_filesystem_args world_short_args sample_manager
           "alice" _ 100 "/srv/workspace"
           [[MCPServerStdio "npx" ["-y"; "@modelcontextprotocol/server-filesystem"] 5]]
           eq_refl eq_refl).
  - repeat constructor.
  - eexists. split; [apply list_elem_of_here|]. by split.
Defined.


Lemma users_witness :
  wf alice_and_bob
  ∧ length (users (λ _, "1970-01-01T00:00:00") alice_and_bob) = 2%nat
  ∧ Health.active_users (health_check "t" alice_and_bob) = 2%nat.
Proof.
  split; [exact wf_alice_and_bob|].
  destruct (users_lists_the_bound_sessions (λ _, "1970-01-01T00:00:00") "t"
              alice_and_bob wf_alice_and_bob) as (Hlen & _).
  split; [|vm_compute; reflexivity]. rewrite Hlen. vm_compute. reflexivity.
Defined.

(** A prompt of 101 characters is cut after its 100th character, the Chinese
    one counting for one. *)
Example user_config_cuts_the_prompt :
  len long_prompt = 101%nat
  ∧ get_user_config "alice"
      (login sample_world long_prompt_login 10 "t10" init_server).1
    = Return (UserConfig.mk "alice" "deepseek-chat" None
                ("你" +:+ String.concat "" (replicate 9 "0123456789")
                 +:+ "012345678" +:+ "...")).
Proof. split; vm_compute; reflexivity. Qed.

Lemma login_records_witness :
  login sample_world alice_login 10 "t10" init_server
  = (alice_logged_in, Return (LoginReply.mk "用户 alice 登录成功" true "t10"))
  ∧ get_user_config "alice" alice_logged_in
    = Return (UserConfig.mk "alice" "deepseek-chat" None "be brief")
  ∧ Health.active_users (health_check "t" alice_logged_in) = 1%nat.
Proof.
  destruct alice_twice_logins as [H1 _]. split; [exact H1|].
  destruct (login_records_the_request sample_world alice_login 10 "t10" "t"
              init_server _ _ H1) as (Hc & _ & Hh).
  split; [exact Hc|exact Hh].
Defined.

Lemma filesystem_roots_witness :
  "alice" ≠ "bob"
  ∧ stamp_server sample_world sample_manager "alice" 100 filesystem_server
    = Ok (MCPServerStdio "npx"
            ["-y"; "@modelcontextprotocol/server-filesystem";
             "/srv/workspace/workspace_alice"] 100)
  ∧ stamp_server sample_world sample_manager "bob" 100 filesystem_server
    = Ok (MCPServerStdio "npx"
            ["-y"; "@modelcontextprotocol/server-filesystem";
             "/srv/workspace/workspace_bob"] 100)
  ∧ ∃ root, AgentManager.workspace_root sample_manager = Some root.
Proof.
  assert ("alice" ≠ "bob") as Hne by discriminate.
  split; [exact Hne|]. split; [reflexivity|]. split; [reflexivity|].
  destruct (filesystem_roots_differ sample_world sample_manager "alice" "bob" 100
              filesystem_server _ _ Hne eq_refl eq_refl eq_refl)
    as (root & Hroot & _).
  by exists root.
Defined.

Lemma is_file_within_workspace_witness :
  is_file_within_workspace Ok "/srv/workspace/workspace_alice2/notes.docx"
    "/srv/workspace/workspace_alice" = true.
Proof.
  exact (proj2 (is_file_within_workspace_prefix Ok
                  "/srv/workspace/workspace_alice2/notes.docx"
                  "/srv/workspace/workspace_alice")
           "/srv/workspace" "alice" "2" "notes.docx" eq_refl eq_refl eq_refl eq_refl).
Defined.

(** The line around character 12 of the sample page. *)
Example extract_line_of_sample_page :
  String.string_of_list_ascii
    (extract_line_from_text (Ascii.ascii_of_nat 10)
       (λ c, bool_decide (c = Ascii.ascii_of_nat 32)
             || bool_decide (c = Ascii.ascii_of_nat 10))
       sample_page 12)
  = "total: 42".
Proof. vm_compute. reflexivity. Qed.

(** ** Overlapping chat requests of different users *)

Section independent.
Context (W : World).
Implicit Types (σ : Server) (u v username : string) (now : Z) (r : loc)
  (l : EventLoop) (c : ChatCall).

Lemma chat_end_present call outcome ts σ s :
  objects σ !! pending_session call = Some s →
  chat_end call outcome ts σ
  = match outcome with
    | Ok result =>
        (mkServer
           (<[pending_session call
              := UserSession.set_history_context
                   (Some (AgentRunResult.all_messages result)) s]> (objects σ))
           (agent_manager σ),
         Return (AgentResponse.mk (AgentRunResult.output result) ts))
    | Raise e => (σ, HTTPException 500 ("智能体处理错误: " +:+ str e))
    end.
Proof.
  intros Hs. unfold chat_end. destruct outcome; [|done].
  by rewrite (alter_lookup_insert _ _ s).
Qed.

Lemma chat_end_other call outcome ts σ r :
  pending_session call ≠ r →
  agent_manager (chat_end call outcome ts σ).1 = agent_manager σ
  ∧ objects (chat_end call outcome ts σ).1 !! r = objects σ !! r.
Proof.
  intros Hr. unfold chat_end. destruct outcome; [|done]. simpl.
  split; [done|]. by apply lookup_alter_ne.
Qed.

(** X18. Chat requests of different users do not interfere.  In a reachable
    state, when the second of two chat calls for two distinct bound usernames
    begins while the first is suspended at the backend, the server ends in
    the state it reaches when the first call completes before the second
    begins, and each caller gets the same reply. *)
Theorem overlapping_chats_of_two_users c1 c2 σ :
  reachable W σ →
  UserMessage.username (call_message c1) ≠ UserMessage.username (call_message c2) →
  is_Some (sessions σ !! UserMessage.username (call_message c1)) →
  is_Some (sessions σ !! UserMessage.username (call_message c2)) →
  call_id c1 ≠ call_id c2 →
  server (run W (overlapped c1 c2) (start σ))
  = server (run W (serial [c1; c2]) (start σ))
  ∧ replies (run W (overlapped c1 c2) (start σ))
    = replies (run W (serial [c1; c2]) (start σ)).
Proof.
  intros Hwf%reachable_wf Hne [r1 Hu1] [r2 Hu2] Hid.
  destruct (wf_object σ Hwf _ r1 Hu1) as (s1 & Hr1 & _ & _ & [a1 Ha1]).
  destruct (wf_object σ Hwf _ r2 Hu2) as (s2 & Hr2 & _ & _ & [a2 Ha2]).
  assert (r1 ≠ r2) as Hr.
  { intros <-. by apply Hne, (wf_unshared σ Hwf _ _ r1). }
  set (u1 := UserMessage.username (call_message c1)) in *.
  set (u2 := UserMessage.username (call_message c2)) in *.
  set (t1 := UserSession.set_last_active (call_now c1) s1).
  set (t2 := UserSession.set_last_active (call_now c2) s2).
  set (call1 := mkPending r1 a1 (UserMessage.message (call_message c1))
                  (UserSession.history_context s1)).
  set (call2 := mkPending r2 a2 (UserMessage.message (call_message c2))
                  (UserSession.history_context s2)).
  set (σ1 := mkServer (<[r1 := t1]> (objects σ)) (agent_manager σ)).
  set (σ2 := mkServer (<[r2 := t2]> (objects σ1)) (agent_manager σ1)).
  assert (chat_begin (call_message c1) (call_now c1) σ = (σ1, inr call1)) as Hb1.
  { rewrite (chat_begin_present _ _ _ r1 s1 a1) by done. fold u1.
    by rewrite (update_last_active_present _ _ _ r1 s1). }
  assert (∀ σ', sessions σ' = sessions σ → objects σ' !! r2 = Some s2 →
            chat_begin (call_message c2) (call_now c2) σ'
            = (mkServer (<[r2 := t2]> (objects σ')) (agent_manager σ'), inr call2))
    as Hb2.
  { intros σ' Hs' Ho'.
    rewrite (chat_begin_present _ _ _ r2 s2 a2); [|by rewrite Hs'|done..].
    fold u2. rewrite (update_last_active_present _ _ _ r2 s2); [done| |done].
    by rewrite Hs'. }
  (* the overlapped schedule *)
  assert (run W (overlapped c1 c2) (start σ)
          = let '(σ3, reply1) := chat_end call1 (backend W call1) (call_ts c1) σ2 in
            let '(σ4, reply2) := chat_end call2 (backend W call2) (call_ts c2) σ3 in
            mkEventLoop σ4 ∅ (<[call_id c2 := reply2]> (<[call_id c1 := reply1]> ∅)))
    as ->.
  { unfold run, overlapped. cbn [foldl].
    assert (step W (start σ) (ChatBegin (call_id c1) (call_message c1) (call_now c1))
            = mkEventLoop σ1 (<[call_id c1 := call1]> ∅) ∅) as ->.
    { unfold step, start. cbn [server suspended replies]. by rewrite Hb1. }
    assert (step W (mkEventLoop σ1 (<[call_id c1 := call1]> ∅) ∅)
              (ChatBegin (call_id c2) (call_message c2) (call_now c2))
            = mkEventLoop σ2 (<[call_id c2 := call2]> (<[call_id c1 := call1]> ∅)) ∅)
      as ->.
    { unfold step. cbn [server suspended replies].
      rewrite (Hb2 σ1); [done|done|]. simpl. by rewrite lookup_insert_ne. }
    unfold step. cbn [server suspended replies].
    rewrite lookup_insert_ne, lookup_insert_eq by done.
    destruct (chat_end call1 (backend W call1) (call_ts c1) σ2) as [σ3 reply1].
    cbn [server suspended replies].
    rewrite lookup_delete_ne, lookup_insert_eq by done.
    destruct (chat_end call2 (backend W call2) (call_ts c2) σ3) as [σ4 reply2].
    rewrite delete_insert_ne by done.
    by rewrite !delete_insert_eq, !delete_empty. }
  (* the serial schedule *)
  assert (run W (serial [c1; c2]) (start σ)
          = let '(σ3, reply1) := chat_end call1 (backend W call1) (call_ts c1) σ1 in
            let '(σ4, reply2) :=
              chat_end call2 (backend W call2) (call_ts c2)
                (mkServer (<[r2 := t2]> (objects σ3)) (agent_manager σ3)) in
            mkEventLoop σ4 ∅ (<[call_id c2 := reply2]> (<[call_id c1 := reply1]> ∅)))
    as ->.
  { unfold run, serial. cbn [mbind list_bind app foldl].
    unfold step at 4. unfold start. cbn [server suspended replies]. rewrite Hb1.
    unfold step at 3. cbn [server suspended replies]. rewrite lookup_insert_eq.
    destruct (chat_end call1 (backend W call1) (call_ts c1) σ1) as [σ3 reply1] eqn:He1.
    assert (sessions σ3 = sessions σ ∧ objects σ3 !! r2 = Some s2) as [Hs3 Ho3].
    { pose proof (chat_end_other call1 (backend W call1) (call_ts c1) σ1 r2) as [Hm Ho];
        [done|]. rewrite He1 in Hm, Ho. simpl in Hm, Ho. split.
      - unfold sessions. by rewrite Hm.
      - rewrite Ho. simpl. by rewrite lookup_insert_ne. }
    unfold step at 2. cbn [server suspended replies].
    rewrite (Hb2 σ3) by done.
    unfold step. cbn [server suspended replies]. rewrite lookup_insert_eq.
    destruct (chat_end call2 _ _ _) as [σ4 reply2].
    by rewrite !delete_insert_eq, !delete_empty. }
  (* both end in the same state *)
  rewrite (chat_end_present call1 _ _ σ2 t1)
    by (simpl; by rewrite lookup_insert_ne, lookup_insert_eq).
  rewrite (chat_end_present call1 _ _ σ1 t1) by apply lookup_insert_eq.
  destruct (backend W call1) as [result1|e1].
  - rewrite (chat_end_present call2 _ _ _ t2)
      by (simpl; by rewrite lookup_insert_ne, lookup_insert_eq).
    rewrite (chat_end_present call2 _ _ _ t2) by apply lookup_insert_eq.
    destruct (backend W call2) as [result2|e2]; simpl; split; try done.
    + by rewrite (insert_insert_ne _ r1 r2).
    + by rewrite (insert_insert_ne _ r1 r2).
  - rewrite (chat_end_present call2 _ _ _ t2) by apply lookup_insert_eq.
    rewrite (chat_end_present call2 _ _ _ t2) by apply lookup_insert_eq.
    destruct (backend W call2) as [result2|e2]; simpl; split; try done.
Qed.

End independent.

Lemma overlapping_chats_of_two_users_witness :
  reachable sample_world alice_and_bob
  ∧ server (run sample_world (overlapped first_call bob_call) (start alice_and_bob))
    = server (run sample_world (serial [first_call; bob_call]) (start alice_and_bob)).
Proof.
  split; [exact reachable_alice_and_bob|].
  refine (proj1 (overlapping_chats_of_two_users sample_world first_call bob_call
                   alice_and_bob reachable_alice_and_bob _ _ _ _)).
  - discriminate.
  - exists 1%nat. vm_compute. reflexivity.
  - exists 0%nat. vm_compute. reflexivity.
  - discriminate.
Defined.
